(** * Behavior/video session toolkit: a shallow embedding

    This development embeds the parts of [behavior.py] and [video.py] that
    parse session file names, match behavior sessions to video sessions,
    select and refit clock-alignment points, and split a seek time.

    Conventions.
    - Python floats are idealised as rationals ([Q]); a float that may be
      NaN is an [option Q] with [None] for NaN.  Equalities between
      computed numbers are stated with [Qeq] ([==]).
    - pandas timestamps and durations are integers counting nanoseconds;
      a missing one (NaT) is [None].
    - A pandas [Series] is a list of (label, value) pairs in row order; a
      [DataFrame] is a list of (label, row record) pairs.
    - Exceptions are explicit: a computation returns [Ok v] or [Raise e].
    - What a function prints is part of its result.
    - The file system, [ffprobe], [os.path.abspath] and
      [datetime.strptime] are parameters of the sections that use them. *)

From Stdlib Require Import ZArith QArith Qminmax List Bool Ascii String Lia.
From Stdlib Require Import Setoid Morphisms.
Import ListNotations.

Set Implicit Arguments.

(** ** Exceptions *)

Inductive exn : Type :=
| ValueError
| AttributeError
| IndexError
| KeyError
| TypeError
| AssertionError
| UnboundLocalError
| CalledProcessError.

Inductive result (A : Type) : Type :=
| Ok (a : A)
| Raise (e : exn).

Arguments Ok {A} a.
Arguments Raise {A} e.

Definition bind {A B : Type} (m : result A) (k : A -> result B) : result B :=
  match m with
  | Ok a => k a
  | Raise e => Raise e
  end.

Declare Scope result_scope.
Delimit Scope result_scope with result.
Notation "x <- m ;; k" := (bind m (fun x => k))
  (at level 61, m at next level, right associativity) : result_scope.
Notation "' p <- m ;; k" := (bind m (fun p => k))
  (at level 61, p pattern, m at next level, right associativity) : result_scope.

(** ** numpy: polynomials with the highest power first *)

Module Np.

Local Open Scope Q_scope.

(** [for pv in p: y = y * x + pv], started from [y]. *)
Fixpoint horner (p : list Q) (y x : Q) : Q :=
  match p with
  | [] => y
  | pv :: p' => horner p' (y * x + pv) x
  end.

(** [np.polyval(p, x)] at a scalar [x]: [y] starts at zero. *)
Definition polyval (p : list Q) (x : Q) : Q := horner p 0 x.

(** [np.polyval(p, xs)] at an array: the same loop, element by element. *)
Definition polyval_arr (p : list Q) (xs : list Q) : list Q :=
  map (polyval p) xs.

Definition is_zero (q : Q) : bool := (Qnum q =? 0)%Z.

(** [trim_zeros(c, 'f')]: drop the leading zero coefficients. *)
Fixpoint trim_zeros (c : list Q) : list Q :=
  match c with
  | [] => []
  | q :: c' => if is_zero q then trim_zeros c' else c
  end.

(** [np.poly1d(c)]: the coefficients with leading zeros trimmed; the
    zero polynomial keeps one coefficient. *)
Definition poly1d (c : list Q) : list Q :=
  match trim_zeros c with
  | [] => [0]
  | c' => c'
  end.

Fixpoint zip_add (a b : list Q) : list Q :=
  match a, b with
  | x :: a', y :: b' => (x + y) :: zip_add a' b'
  | _, _ => []
  end.

Definition zeros (n : nat) : list Q := repeat 0 n.

(** [np.polyadd]: the shorter array is padded with zeros in front. *)
Definition polyadd (a b : list Q) : list Q :=
  let la := List.length a in
  let lb := List.length b in
  poly1d (zip_add (zeros (lb - la) ++ a) (zeros (la - lb) ++ b)).

(** [np.polymul] is [np.convolve] of the coefficient arrays.  Written
    here by recursion on the first array: the head coefficient times
    [b], shifted by the remaining length, plus the product of the rest. *)
Fixpoint convolve (a b : list Q) : list Q :=
  match a with
  | [] => []
  | x :: a' =>
      let hd := map (Qmult x) b ++ zeros (List.length a') in
      match a' with
      | [] => hd
      | _ => zip_add hd (zeros 1 ++ convolve a' b)
      end
  end.

Definition polymul (a b : list Q) : list Q := poly1d (convolve a b).

(** A value of the loop variable [y] of [np.polyval] when [x] is a
    [poly1d]: the integer [0] before the first step, a [poly1d] after. *)
Inductive pval : Type :=
| Scalar (q : Q)
| Poly (c : list Q).

(** [y * x] with [x] a poly1d: a scalar scales the coefficients
    ([poly1d.__rmul__]), a poly1d multiplies ([poly1d.__mul__]). *)
Definition pval_mul (y : pval) (x : list Q) : list Q :=
  match y with
  | Scalar q => poly1d (map (Qmult q) x)
  | Poly c => polymul c x
  end.

(** [... + pv] with [pv] a number: [poly1d.__add__] wraps it. *)
Definition poly_add_scalar (c : list Q) (pv : Q) : list Q :=
  polyadd c (poly1d [pv]).

Fixpoint polyval_loop (p : list Q) (y : pval) (x : list Q) : pval :=
  match p with
  | [] => y
  | pv :: p' => polyval_loop p' (Poly (poly_add_scalar (pval_mul y x) pv)) x
  end.

(** [np.polyval(p, x)] with [x] a poly1d.  [p] is the coefficient array
    of its first argument ([asarray] of a poly1d gives its trimmed
    coefficients). *)
Definition polyval_poly (p : list Q) (x : list Q) : pval :=
  polyval_loop p (Scalar 0) x.

(** [np.asarray] of the result, as printed by ["%r" % np.asarray(...)]. *)
Definition asarray (y : pval) : list Q :=
  match y with
  | Scalar q => [q]
  | Poly c => c
  end.

(** The value at [t] of the loop variable. *)
Definition pval_at (y : pval) (t : Q) : Q :=
  match y with
  | Scalar q => q
  | Poly c => polyval c t
  end.

(** [x ** n] *)
Fixpoint qpow (x : Q) (n : nat) : Q :=
  match n with
  | O => 1
  | S n' => x * qpow x n'
  end.

End Np.

(** ** pandas: series *)

Module Pd.

Local Open Scope Q_scope.

(** A series: rows of (index label, value), in row order.  The frames
    and series of this program carry unique integer labels (row numbers
    given by [DataFrame.from_records], trial numbers). *)
Definition series (A : Type) : Type := list (Z * A).

(** A float series; [None] is NaN. *)
Definition fseries : Type := series (option Q).

Definition index {A : Type} (s : series A) : list Z := map fst s.
Definition values {A : Type} (s : series A) : list A := map snd s.

Definition Qlt_bool (x y : Q) : bool := negb (Qle_bool y x).

(** [ser[cond(ser)] = np.nan]: a comparison with NaN is false, so a NaN
    row is not selected (and stays NaN). *)
Definition set_nan_where (cond : Q -> bool) (s : fseries) : fseries :=
  map (fun row : Z * option Q =>
         match snd row with
         | Some q => if cond q then (fst row, None) else row
         | None => row
         end) s.

Definition dropna (s : fseries) : fseries :=
  filter (fun row : Z * option Q =>
            match snd row with Some _ => true | None => false end) s.

Definition fsub (a b : option Q) : option Q :=
  match a, b with
  | Some x, Some y => Some (x - y)
  | _, _ => None
  end.

(** [ser.diff()]: each value minus the one of the previous row. *)
Fixpoint diff_from (prev : option Q) (s : fseries) : fseries :=
  match s with
  | [] => []
  | (l, v) :: s' => (l, fsub v prev) :: diff_from v s'
  end.

Definition diff (s : fseries) : fseries := diff_from None s.

(** [ser.shift(-1)]: each row takes the value of the next one. *)
Definition shift_up (s : fseries) : fseries :=
  combine (index s) (tl (values s) ++ [None]).

(** [ser.argmax()] ([idxmax]): the label of the first largest value,
    missing values (NaN, NaT) skipped.  numpy refuses an empty array;
    when every value is missing the label itself is missing. *)
Section Argmax.

Variable A : Type.
Variable ltb : A -> A -> bool.

Fixpoint first_max (best : option (Z * A)) (s : series (option A))
  : option (Z * A) :=
  match s with
  | [] => best
  | (l, None) :: s' => first_max best s'
  | (l, Some q) :: s' =>
      match best with
      | None => first_max (Some (l, q)) s'
      | Some (_, m) =>
          if ltb m q then first_max (Some (l, q)) s'
          else first_max best s'
      end
  end.

Definition argmax (s : series (option A)) : result (option Z) :=
  match s with
  | [] => Raise ValueError
  | _ => Ok (option_map fst (first_max None s))
  end.

End Argmax.

(** [ser.index[k]] and [ser.index[-1]]. *)
Definition index_at {A : Type} (s : series A) (k : nat) : result Z :=
  match nth_error (index s) k with
  | Some l => Ok l
  | None => Raise IndexError
  end.

Definition index_last {A : Type} (s : series A) : result Z :=
  match rev (index s) with
  | l :: _ => Ok l
  | [] => Raise IndexError
  end.

(** [ser.ix[a:b]]: the rows from label [a] through label [b]. *)
Fixpoint drop_until {A : Type} (a : Z) (s : series A) : series A :=
  match s with
  | [] => []
  | row :: s' => if (fst row =? a)%Z then s else drop_until a s'
  end.

Fixpoint take_through {A : Type} (b : Z) (s : series A) : series A :=
  match s with
  | [] => []
  | row :: s' => if (fst row =? b)%Z then [row] else row :: take_through b s'
  end.

Definition label_slice {A : Type} (a b : Z) (s : series A) : series A :=
  take_through b (drop_until a s).

(** [ser.ix[labels]]: the value at each label; a missing label gives NaN. *)
Fixpoint value_at (l : Z) (s : fseries) : option Q :=
  match s with
  | [] => None
  | row :: s' => if (fst row =? l)%Z then snd row else value_at l s'
  end.

Definition take_labels (labels : list (option Z)) (s : fseries) : list (option Q) :=
  map (fun ol => match ol with
                 | Some l => value_at l s
                 | None => None
                 end) labels.

End Pd.

(** ** Running a fallible step over a list *)

Fixpoint mapM {A B : Type} (f : A -> result B) (l : list A) : result (list B) :=
  match l with
  | [] => Ok []
  | a :: l' =>
      match f a with
      | Ok b =>
          match mapM f l' with
          | Ok bs => Ok (b :: bs)
          | Raise e => Raise e
          end
      | Raise e => Raise e
      end
  end.

(** [range(n)] *)
Definition range (n : Z) : list Z := map Z.of_nat (seq 0 (Z.to_nat n)).

(** ** Printing and subprocesses

    A function that prints or starts a subprocess returns the events it
    produced, in order, next to its value or exception. *)

Inductive syscall : Type :=
| FfmpegBest (coarse : Q) (filename : string) (fine : Q) (output_filename : string)
| FfmpegAccurate (filename : string) (frametime : Q) (output_filename : string)
| FfmpegFast (frametime : Q) (filename : string) (output_filename : string).

Inductive event : Type :=
| PrintText (s : string)
| PrintMplayer (pre_test_time : Z) (video : string) (guess : Q) (next : option Q)
| PrintLenWarning (N : Z) (len : nat)
| PrintCombinedFit (c : list Q)
| PrintResids (r : list Q)
| PrintSyscall (c : syscall)
| Ffprobe (filename : string)
| CheckOutput (c : syscall).

Definition io (A : Type) : Type := (list event * result A)%type.

Definition io_ret {A : Type} (a : A) : io A := ([], Ok a).

Definition io_bind {A B : Type} (m : io A) (k : A -> io B) : io B :=
  match m with
  | (out, Ok a) => let (out', r) := k a in (out ++ out', r)
  | (out, Raise e) => (out, Raise e)
  end.

Definition emit (e : event) : io unit := ([e], Ok tt).
Definition throw {A : Type} (e : exn) : io A := ([], Raise e).
Definition lift {A : Type} (r : result A) : io A := ([], r).

Declare Scope io_scope.
Delimit Scope io_scope with io.
Notation "x <- m ;; k" := (io_bind m (fun x => k))
  (at level 61, m at next level, right associativity) : io_scope.
Notation "' p <- m ;; k" := (io_bind m (fun p => k))
  (at level 61, p pattern, m at next level, right associativity) : io_scope.
Notation "m ;; k" := (io_bind m (fun _ => k))
  (at level 61, right associativity) : io_scope.

(** [for a in l: f(a)] *)
Fixpoint io_iter {A : Type} (f : A -> io unit) (l : list A) : io unit :=
  match l with
  | [] => io_ret tt
  | a :: l' => io_bind (f a) (fun _ => io_iter f l')
  end.

(** ** behavior.py: the clock aligner *)

Module Behavior.

Import Np Pd.
Local Open Scope Q_scope.

(** [mask_by_buffer_from_end(ser, end_time, buffer)] updates [ser] in
    place; the updated series is returned here. *)
Definition mask_by_buffer_from_end (ser : fseries) (end_time buffer : Q) : fseries :=
  let ser1 := set_nan_where (fun v => Qlt_bool v buffer) ser in
  set_nan_where (fun v => Qlt_bool (end_time - buffer) v) ser1.

(** What the two assignments of [mask_by_buffer_from_end] do to one
    row. *)
Definition mask_row (end_time buffer : Q) (row : Z * option Q) : Z * option Q :=
  match snd row with
  | Some q =>
      if Qlt_bool q buffer then (fst row, None)
      else if Qlt_bool (end_time - buffer) q then (fst row, None)
      else row
  | None => row
  end.

(** A float that is NaN or lies between the two bounds. *)
Definition nan_or_within (lo hi : Q) (v : option Q) : Prop :=
  match v with
  | Some q => lo <= q /\ q <= hi
  | None => True
  end.

(** [np.polyval(p, ser)] on a series that may hold NaN: with no
    coefficient the loop does not run and the zeros are returned. *)
Definition polyval_f (p : list Q) (v : option Q) : option Q :=
  match p with
  | [] => Some 0
  | _ => option_map (polyval p) v
  end.

Definition map_values {A B : Type} (f : A -> B) (s : series A) : series B :=
  map (fun row => (fst row, f (snd row))) s.

Local Open Scope result_scope.

(** [index_of_biggest_diffs_across_arr(ser, ncuts_total)]: in each
    segment, the label of the row before the largest gap.  The
    division is the integer division of Python 2. *)
Definition index_of_biggest_diffs_across_arr (ser : fseries) (ncuts_total : Z)
  : result (list (option Z)) :=
  let ser := dropna ser in
  cuts <- mapM (fun ncut =>
                  index_at ser
                    (Z.to_nat (Z.of_nat (List.length ser) * ncut / ncuts_total)))
               (range ncuts_total) ;;
  last <- index_last ser ;;
  let cuts := cuts ++ [last] in
  mapM (fun ncut =>
          let subser :=
            label_slice (nth ncut cuts 0%Z) (nth (ncut + 1) cuts 0%Z) ser in
          argmax Qlt_bool (shift_up (diff subser)))
       (seq 0 (List.length cuts - 1)).

(** [generate_test_times_for_user(times, max_time, initial_guess, N,
    buffer)]: the values of the two series it returns. *)
Definition generate_test_times_for_user (times : fseries) (max_time : Q)
    (initial_guess : list Q) (N : Z) (buffer : Q)
  : result (list (option Q) * list (option Q)) :=
  let new_values := map_values (polyval_f initial_guess) times in
  let times := mask_by_buffer_from_end new_values max_time buffer in
  test_idxs <- index_of_biggest_diffs_across_arr times N ;;
  let test_times := take_labels test_idxs times in
  let test_next_times := take_labels test_idxs (shift_up times) in
  Ok (test_times, test_next_times).

Local Close Scope result_scope.

(** [x / np.timedelta64(1, 's')] *)
Definition seconds (ns : Z) : Q := ns # 1000000000.

(** [int(x)]: truncation toward zero. *)
Definition int (x : Q) : Z := Z.quot (Qnum x) (Zpos (Qden x)).

(** [os.path.split(p)[-1]]: what follows the last slash. *)
Fixpoint path_tail_from (cur s : string) : string :=
  match s with
  | EmptyString => cur
  | String c s' =>
      if Ascii.eqb c "/"%char then path_tail_from s' s' else path_tail_from cur s'
  end.

Definition path_tail (p : string) : string := path_tail_from p p.

(** The numbers of an array whose entries were all checked not to be NaN. *)
Definition known (l : list (option Q)) : list Q :=
  flat_map (fun v => match v with Some q => [q] | None => [] end) l.

Fixpoint zip_sub (a b : list Q) : list Q :=
  match a, b with
  | x :: a', y :: b' => (x - y) :: zip_sub a' b'
  | _, _ => []
  end.

(** The row of [bv_files] that is synced. *)
Record metadata : Type := {
  filename : string;
  filename_video : string;
  guess_vvsb_start : Z;
  duration_video : Z
}.

Section ClockAligner.

(** ArduFSM reads the behavior file and identifies the servo
    retraction times of its trials. *)
Variable servo_retract_times : string -> fseries.

(** The least-squares line of numpy: slope and intercept of
    [np.polyfit(x, y, deg=1)] for non-empty [x] and [y] of one length. *)
Variable lstsq_line : list Q -> list Q -> Q * Q.

(** [np.polyfit(x, y, deg=1)] with its argument checks. *)
Definition polyfit (x y : list Q) : result (list Q) :=
  match x with
  | [] => Raise TypeError
  | _ => if (List.length x =? List.length y)%nat
         then let (m, c) := lstsq_line x y in Ok [m; c]
         else Raise TypeError
  end.

Local Open Scope io_scope.

(** [generate_mplayer_guesses_and_sync(metadata, user_results, guess,
    N, pre_time)].  It returns nothing: its result is what it prints.
    [int(test_time)] refuses NaN, so past the print loop every test
    time is a number. *)
Definition generate_mplayer_guesses_and_sync (md : metadata)
    (user_results : option (list Q)) (guess : list Q) (N : Z) (pre_time : Z)
  : io unit :=
  let time_retract := servo_retract_times (filename md) in
  let test_guess_vvsb := seconds (guess_vvsb_start md) in
  let time_retract_vbase :=
    map_values (fun v => fsub v (Some test_guess_vvsb)) time_retract in
  let initial_guess := guess in
  let time_retract_vbase2 :=
    map_values (polyval_f initial_guess) time_retract_vbase in
  let video_duration := seconds (duration_video md) in
  '(test_times, test_next_times) <-
    lift (generate_test_times_for_user time_retract_vbase video_duration
            initial_guess N 30) ;;
  io_iter (fun tn : option Q * option Q =>
             match fst tn with
             | None => throw ValueError
             | Some test_time =>
                 let pre_test_time := (int test_time - pre_time)%Z in
                 emit (PrintMplayer pre_test_time (filename_video md)
                         test_time (snd tn))
             end)
          (combine test_times test_next_times) ;;
  match user_results with
  | None => io_ret tt
  | Some user_results =>
      if negb (Z.of_nat (List.length user_results) =? N)%Z then
        emit (PrintLenWarning N (List.length user_results))
      else
        new_fit <- lift (polyfit (known test_times) user_results) ;;
        let resids :=
          zip_sub (polyval_arr new_fit (known test_times)) user_results in
        let combined_fit := polyval_poly (poly1d new_fit) (poly1d initial_guess) in
        emit (PrintText (path_tail (filename md))) ;;
        emit (PrintText (path_tail (filename_video md))) ;;
        emit (PrintCombinedFit (asarray combined_fit)) ;;
        emit (PrintResids resids)
  end.

(** The test times [generate_mplayer_guesses_and_sync] shows the
    user: its call of [generate_test_times_for_user]. *)
Definition chosen_test_times (md : metadata) (guess : list Q) (N : Z)
  : result (list (option Q) * list (option Q)) :=
  generate_test_times_for_user
    (map_values (fun v => fsub v (Some (seconds (guess_vvsb_start md))))
                (servo_retract_times (filename md)))
    (seconds (duration_video md)) guess N 30.

(** The mplayer commands printed for test times that are numbers. *)
Definition mplayer_lines (md : metadata) (pre_time : Z) (test_times : list Q)
    (test_next_times : list (option Q)) : list event :=
  map (fun tn => PrintMplayer (int (fst tn) - pre_time)%Z (filename_video md)
                   (fst tn) (snd tn))
      (combine test_times test_next_times).

End ClockAligner.

(** The exact least-squares line through the points, by the normal
    equations (the line numpy approximates when the [x] are not all
    equal). *)
Definition Qsum (l : list Q) : Q := fold_right Qplus 0 l.

Fixpoint zip_mul (a b : list Q) : list Q :=
  match a, b with
  | x :: a', y :: b' => (x * y) :: zip_mul a' b'
  | _, _ => []
  end.

Definition exact_lstsq_line (x y : list Q) : Q * Q :=
  let n := inject_Z (Z.of_nat (List.length x)) in
  let sx := Qsum x in
  let sy := Qsum y in
  let sxx := Qsum (zip_mul x x) in
  let sxy := Qsum (zip_mul x y) in
  let m := (n * sxy - sx * sy) / (n * sxx - sx * sx) in
  (m, (sy - m * sx) / n).

End Behavior.

(** ** Strings and the regular expressions of the parsers *)

Module Re.

Definition is_space (c : ascii) : bool :=
  let n := nat_of_ascii c in
  ((n =? 32) || ((9 <=? n) && (n <=? 13)))%nat.

Definition is_digit (c : ascii) : bool :=
  let n := nat_of_ascii c in
  ((48 <=? n) && (n <=? 57))%nat.

(** [str.upper] on a byte string. *)
Definition upper_char (c : ascii) : ascii :=
  let n := nat_of_ascii c in
  if ((97 <=? n) && (n <=? 122))%nat then ascii_of_nat (n - 32) else c.

Fixpoint upper (s : string) : string :=
  match s with
  | EmptyString => EmptyString
  | String c s' => String (upper_char c) (upper s')
  end.

Fixpoint take (n : nat) (s : string) : string :=
  match n, s with
  | S n', String c s' => String c (take n' s')
  | _, _ => EmptyString
  end.

Fixpoint drop (n : nat) (s : string) : string :=
  match n, s with
  | S n', String _ s' => drop n' s'
  | _, _ => s
  end.

Fixpoint strip_prefix (p s : string) : option string :=
  match p, s with
  | EmptyString, _ => Some s
  | String a p', String b s' =>
      if Ascii.eqb a b then strip_prefix p' s' else None
  | String _ _, EmptyString => None
  end.

(** [needle in hay] *)
Fixpoint contains (needle hay : string) : bool :=
  match strip_prefix needle hay with
  | Some _ => true
  | None =>
      match hay with
      | EmptyString => false
      | String _ hay' => contains needle hay'
      end
  end.

Inductive char_class : Type :=
| NonSpace   (* \S *)
| Digit.     (* \d *)

Definition in_class (k : char_class) (c : ascii) : bool :=
  match k with
  | NonSpace => negb (is_space c)
  | Digit => is_digit c
  end.

(** The patterns of this program are sequences of literal text and of
    groups [(\S+)] or [(\d+)]. *)
Inductive item : Type :=
| Lit (s : string)
| Group (k : char_class).

(** The length of the longest run of class characters at the start. *)
Fixpoint run_length (k : char_class) (s : string) : nat :=
  match s with
  | EmptyString => O
  | String c s' => if in_class k c then S (run_length k s') else O
  end.

(** [re.match(pattern, s)]: the groups of the match at the start of [s].
    A group is greedy: the longest run is tried first and the matcher
    backs off one character at a time until the rest matches. *)
Fixpoint re_match (pattern : list item) (s : string) : option (list string) :=
  match pattern with
  | [] => Some []
  | Lit l :: rest =>
      match strip_prefix l s with
      | Some s' => re_match rest s'
      | None => None
      end
  | Group k :: rest =>
      (fix back_off (n : nat) : option (list string) :=
         match n with
         | O => None
         | S n' =>
             match re_match rest (drop n s) with
             | Some groups => Some (take n s :: groups)
             | None => back_off n'
             end
         end) (run_length k s)
  end.

(** [re.search(pattern, s)]: the first position where the pattern matches. *)
Fixpoint re_search (pattern : list item) (s : string) : option (list string) :=
  match re_match pattern s with
  | Some groups => Some groups
  | None =>
      match s with
      | EmptyString => None
      | String _ s' => re_search pattern s'
      end
  end.

End Re.

(** ** behavior.py: file names and session matching *)

Module Sessions.

Import Pd Re.
Local Open Scope string_scope.
Local Open Scope Z_scope.

(** Known mice *)
Definition mice : list string :=
  ["AM03"; "AM05"; "KF13"; "KM14"; "KF16"; "KF17"; "KF18"; "KF19"; "KM24"; "KM25"].
Definition rigs : list string := ["L1"; "L2"; "L3"].
Definition aliases : list (string * string) :=
  [("KF13A", "KF13"); ("AM03A", "AM03")].

Definition isin (s : string) (l : list string) : bool :=
  existsb (String.eqb s) l.

(** [Series.replace(aliases)]: a value that is a key of the dict is
    replaced by the dict's value for it. *)
Fixpoint replace (d : list (string * string)) (s : string) : string :=
  match d with
  | [] => s
  | (k, v) :: d' => if String.eqb s k then v else replace d' s
  end.

Record behavior_record : Type := {
  b_dir : string;
  b_rig : string;
  b_mouse : string;
  b_dt_start : Z;
  b_dt_end : Z;
  b_duration : Z;
  b_filename : string
}.

(** A video record; [duration] and [dt_start] are missing when ffprobe
    found invalid data. *)
Record video_record : Type := {
  v_filename : string;
  v_rig : string;
  v_dt_end : Z;
  v_duration : option Z;
  v_dt_start : option Z
}.

(** [pandas.DataFrame.from_records(rec_l)]: rows labelled 0, 1, ... *)
Definition from_records {A : Type} (rec_l : list A) : series A :=
  combine (range (Z.of_nat (List.length rec_l))) rec_l.

(** (\S+)/(\S+)/ardulines\.(\d+)\.(\S+) *)
Definition behavior_pattern : list item :=
  [Group NonSpace; Lit "/"; Group NonSpace; Lit "/ardulines."; Group Digit;
   Lit "."; Group NonSpace].

(** (\S+)/(\S+)\.(\d+)\.(\S+) *)
Definition video_pattern : list item :=
  [Group NonSpace; Lit "/"; Group NonSpace; Lit "."; Group Digit; Lit ".";
   Group NonSpace].

(** Duration: (\S+), *)
Definition duration_pattern : list item :=
  [Lit "Duration: "; Group NonSpace; Lit ","].

Definition set_mouse (m : string) (r : behavior_record) : behavior_record :=
  {| b_dir := b_dir r; b_rig := b_rig r; b_mouse := m;
     b_dt_start := b_dt_start r; b_dt_end := b_dt_end r;
     b_duration := b_duration r; b_filename := b_filename r |}.

(** The frame [parse_video_filenames] returns.  [Records] is
    [from_records(rec_l)]; [Cached] is the caller's cache returned as
    it is; [SideBySide] is [pandas.concat(..., axis=1,
    ignore_index=True)], which puts the columns of the two frames next
    to each other under the names 0, 1, ... *)
Inductive video_frame : Type :=
| Records (rec_l : list video_record)
| Cached (cache : series video_record)
| SideBySide (rec_l : list video_record) (cache : series video_record).

Definition has_start (v : video_record) : bool :=
  match v_dt_start v with Some _ => true | None => false end.

(** The rows of a frame as the matcher reads them through its columns
    [rig], [dt_start] and [dt_end].  A frame built from no record has
    no column; one built only from records without a start time has no
    [dt_start] column; a side-by-side frame has no named column.  A
    cache is taken to have all of them. *)
Definition frame_rows (f : video_frame) : result (series video_record) :=
  match f with
  | Records [] => Raise AttributeError
  | Records rec_l =>
      if existsb has_start rec_l then Ok (from_records rec_l) else Raise KeyError
  | Cached cache => Ok cache
  | SideBySide _ _ => Raise AttributeError
  end.

(** One nanosecond-resolution day, and the time of day of a datetime
    (datetimes count nanoseconds from a midnight). *)
Definition day_ns : Z := 86400000000000.
Definition time_of_day (dt : Z) : Z := dt mod day_ns.

Section Parsers.

(** [os.path.abspath] *)
Variable abspath : string -> string.

(** [datetime.fromtimestamp(misc.get_file_time(filename))] *)
Variable get_file_time : string -> Z.

(** [datetime.datetime.strptime(s, format)]; [None] is its ValueError. *)
Variable strptime : string -> string -> option Z.

(** The text [ffprobe] writes for a file. *)
Variable ffprobe : string -> string.

(** The loop of [parse_behavior_filenames] that fills [rec_l]. *)
Fixpoint behavior_rec_l (all_behavior_files : list string)
  : result (list behavior_record) :=
  match all_behavior_files with
  | [] => Ok []
  | filename :: rest =>
      match re_match behavior_pattern (abspath filename) with
      | Some [dir; rig; date_s; mouse] =>
          match strptime date_s "%Y%m%d%H%M%S" with
          | None => Raise ValueError
          | Some date =>
              let behavior_end_time := get_file_time filename in
              bind (behavior_rec_l rest) (fun rec_l =>
                Ok ({| b_dir := dir; b_rig := rig; b_mouse := mouse;
                       b_dt_start := date; b_dt_end := behavior_end_time;
                       b_duration := behavior_end_time - date;
                       b_filename := filename |} :: rec_l))
          end
      | _ => behavior_rec_l rest
      end
  end.

Local Open Scope io_scope.

(** [parse_behavior_filenames(all_behavior_files, clean)].  The
    frame keeps the row labels of [from_records] when rows are
    dropped.  The in-place [replace] on the [mouse] column acts on
    the frame. *)
Definition parse_behavior_filenames (all_behavior_files : list string)
    (clean : bool) : io (series behavior_record) :=
  rec_l <- lift (behavior_rec_l all_behavior_files) ;;
  let behavior_files_df := from_records rec_l in
  if (List.length behavior_files_df =? 0)%nat then
    emit (PrintText "warning: no behavior files found") ;;
    io_ret behavior_files_df
  else if clean then
    let upcased :=
      map (fun row => (fst row, set_mouse (upper (b_mouse (snd row))) (snd row)))
          behavior_files_df in
    let replaced :=
      map (fun row =>
             (fst row, set_mouse (replace aliases (b_mouse (snd row))) (snd row)))
          upcased in
    io_ret (filter (fun row => isin (b_mouse (snd row)) mice) replaced)
  else
    io_ret behavior_files_df.

Definition cache_filenames (cache : series video_record) : list string :=
  map (fun row => v_filename (snd row)) cache.

(** The loop of [parse_video_filenames] that fills [rec_l]. *)
Fixpoint video_rec_l (video_filenames : list string) (verbose : bool)
    (cached_video_files_df : option (series video_record))
  : io (list video_record) :=
  match video_filenames with
  | [] => io_ret []
  | video_filename :: rest =>
      match cached_video_files_df with
      | None => throw AttributeError
      | Some cache =>
          if isin video_filename (cache_filenames cache) then
            video_rec_l rest verbose cached_video_files_df
          else
            (if verbose then emit (PrintText video_filename) else io_ret tt) ;;
            match re_match video_pattern (abspath video_filename) with
            | Some [dir; rig; date_s; video_ext] =>
                match strptime date_s "%Y%m%d%H%M%S" with
                | None => throw ValueError
                | Some video_end_time =>
                    emit (Ffprobe video_filename) ;;
                    let res := ffprobe video_filename in
                    if contains "Invalid data found when processing input" res then
                      (if verbose then
                         emit (PrintText ("Invalid data found by ffprobe in "
                                          ++ video_filename))
                       else io_ret tt) ;;
                      rec_l <- video_rec_l rest verbose cached_video_files_df ;;
                      io_ret ({| v_filename := video_filename; v_rig := rig;
                                 v_dt_end := video_end_time;
                                 v_duration := None; v_dt_start := None |}
                              :: rec_l)
                    else
                      match re_search duration_pattern res with
                      | Some [duration_s] =>
                          match strptime duration_s "%H:%M:%S.%f" with
                          | None => throw ValueError
                          | Some video_duration_temp =>
                              let video_duration := time_of_day video_duration_temp in
                              let video_start_time := video_end_time - video_duration in
                              rec_l <- video_rec_l rest verbose cached_video_files_df ;;
                              io_ret ({| v_filename := video_filename; v_rig := rig;
                                         v_dt_end := video_end_time;
                                         v_duration := Some video_duration;
                                         v_dt_start := Some video_start_time |}
                                      :: rec_l)
                          end
                      | _ => throw AssertionError
                      end
                end
            | _ => video_rec_l rest verbose cached_video_files_df
            end
      end
  end.

(** What one pass of the loop of [parse_video_filenames] does for a
    file that is not in the cache: it is skipped, or gives a record,
    or raises, after some printing and probing. *)
Inductive file_outcome : Type :=
| Skipped (out : list event)
| Recorded (out : list event) (v : video_record)
| Failed (out : list event) (e : exn).

Definition probe_one (video_filename : string) (verbose : bool) : file_outcome :=
  let shown := if verbose then [PrintText video_filename] else [] in
  match re_match video_pattern (abspath video_filename) with
  | Some [dir; rig; date_s; video_ext] =>
      match strptime date_s "%Y%m%d%H%M%S" with
      | None => Failed shown ValueError
      | Some video_end_time =>
          let res := ffprobe video_filename in
          if contains "Invalid data found when processing input" res then
            Recorded
              (shown ++ [Ffprobe video_filename] ++
               (if verbose
                then [PrintText ("Invalid data found by ffprobe in "
                                 ++ video_filename)]
                else []))
              {| v_filename := video_filename; v_rig := rig;
                 v_dt_end := video_end_time;
                 v_duration := None; v_dt_start := None |}
          else
            match re_search duration_pattern res with
            | Some [duration_s] =>
                match strptime duration_s "%H:%M:%S.%f" with
                | None => Failed (shown ++ [Ffprobe video_filename]) ValueError
                | Some video_duration_temp =>
                    Recorded (shown ++ [Ffprobe video_filename])
                      {| v_filename := video_filename; v_rig := rig;
                         v_dt_end := video_end_time;
                         v_duration := Some (time_of_day video_duration_temp);
                         v_dt_start :=
                           Some (video_end_time
                                 - time_of_day video_duration_temp) |}
                end
            | _ => Failed (shown ++ [Ffprobe video_filename]) AssertionError
            end
      end
  | _ => Skipped shown
  end.

(** A video record as the loop builds it: the start is the end less
    the duration, which is the time of day of a parsed stamp; or both
    are missing. *)
Definition well_formed_video (v : video_record) : Prop :=
  (v_duration v = None /\ v_dt_start v = None)
  \/ exists d, v_duration v = Some d
               /\ v_dt_start v = Some (v_dt_end v - d)
               /\ 0 <= d < day_ns.

(** [parse_video_filenames(video_filenames, verbose,
    cached_video_files_df)]; [None] is the default, no cache. *)
Definition parse_video_filenames (video_filenames : list string)
    (verbose : bool) (cached_video_files_df : option (series video_record))
  : io video_frame :=
  let unneeded :=
    match cached_video_files_df with
    | Some cache =>
        negb (forallb (fun f => isin f video_filenames) (cache_filenames cache))
    | None => false
    end in
  if unneeded then throw ValueError
  else
    rec_l <- video_rec_l video_filenames verbose cached_video_files_df ;;
    match cached_video_files_df with
    | Some cache =>
        match rec_l with
        | [] => io_ret (Cached cache)
        | _ => io_ret (SideBySide rec_l cache)
        end
    | None => io_ret (Records rec_l)
    end.

(** The name of the file matches the behavior pattern. *)
Definition matches_behavior (filename : string) : bool :=
  match re_match behavior_pattern (abspath filename) with
  | Some [_; _; _; _] => true
  | _ => false
  end.

(** The name of the file matches and its time stamp does not parse. *)
Definition bad_stamp (filename : string) : Prop :=
  exists dir rig date_s mouse,
    re_match behavior_pattern (abspath filename) = Some [dir; rig; date_s; mouse]
    /\ strptime date_s "%Y%m%d%H%M%S" = None.

(** Every file whose name matches carries a time stamp that parses. *)
Definition stamps_parse (all_behavior_files : list string) : Prop :=
  forall f dir rig date_s mouse,
    In f all_behavior_files ->
    re_match behavior_pattern (abspath f) = Some [dir; rig; date_s; mouse] ->
    strptime date_s "%Y%m%d%H%M%S" <> None.

(** The record of a matching file. *)
Definition parsed (f : string) (r : behavior_record) : Prop :=
  exists dir rig date_s mouse date,
    re_match behavior_pattern (abspath f) = Some [dir; rig; date_s; mouse]
    /\ strptime date_s "%Y%m%d%H%M%S" = Some date
    /\ r = {| b_dir := dir; b_rig := rig; b_mouse := mouse;
              b_dt_start := date; b_dt_end := get_file_time f;
              b_duration := get_file_time f - date; b_filename := f |}.

End Parsers.

(** *** The session matcher *)

Definition osub (a b : option Z) : option Z :=
  match a, b with
  | Some x, Some y => Some (x - y)
  | _, _ => None
  end.

(** [ser[ser < bound] = bound] on the start times: NaT compares false
    and stays. *)
Definition raise_to (bound : Z) (v : option Z) : option Z :=
  match v with
  | Some x => if x <? bound then Some bound else Some x
  | None => None
  end.

(** [ser[ser > bound] = bound] on the end times. *)
Definition lower_to (bound : Z) (x : Z) : Z :=
  if x >? bound then bound else x.

(** [overlap.ix[vidx_max_overlap]] *)
Fixpoint overlap_at (l : Z) (s : series (option Z)) : result (option Z) :=
  match s with
  | [] => Raise KeyError
  | row :: s' => if fst row =? l then Ok (snd row) else overlap_at l s'
  end.

(** A behavior row with the two columns the matcher adds. *)
Record match_row : Type := {
  m_behavior : behavior_record;
  best_video_index : Z;
  best_video_overlap : Q
}.

(** The body of the matching loop for one behavior row [brow]; the two
    columns hold -1 and 0.0 before the loop.  When every overlap of
    the rig is NaT there is no largest one to look up, and the body
    stops with ValueError as it does for a rig without videos. *)
Definition best_overlap (video_files_df : series video_record)
    (brow : behavior_record) : result match_row :=
  let same_rig :=
    filter (fun row => String.eqb (v_rig (snd row)) (b_rig brow)) video_files_df in
  let latest_start :=
    map (fun row => (fst row, raise_to (b_dt_start brow) (v_dt_start (snd row))))
        same_rig in
  let earliest_end :=
    map (fun row => (fst row, lower_to (b_dt_end brow) (v_dt_end (snd row))))
        same_rig in
  let overlap :=
    map (fun se => (fst (fst se), osub (Some (snd (snd se))) (snd (fst se))))
        (combine latest_start earliest_end) in
  bind (argmax Z.ltb overlap) (fun vidx_max_overlap =>
    match vidx_max_overlap with
    | None => Raise ValueError
    | Some vidx =>
        bind (overlap_at vidx overlap) (fun max_overlap =>
          match max_overlap with
          | None => Raise KeyError
          | Some ns =>
              let max_overlap_sec := Behavior.seconds ns in
              if Qlt_bool 0 max_overlap_sec then
                Ok {| m_behavior := brow; best_video_index := vidx;
                      best_video_overlap := max_overlap_sec |}
              else
                Ok {| m_behavior := brow; best_video_index := -1;
                      best_video_overlap := 0 |}
          end)
    end).

(** The matching loop over the behavior frame.  The loop reads the
    columns of the video frame only when there is a behavior row. *)
Definition find_overlaps (behavior_files_df : series behavior_record)
    (video_files_df : video_frame) : result (series match_row) :=
  match behavior_files_df with
  | [] => Ok []
  | _ =>
      bind (frame_rows video_files_df) (fun video_rows =>
        mapM (fun row =>
                bind (best_overlap video_rows (snd row)) (fun m =>
                  Ok (fst row, m)))
             behavior_files_df)
  end.

Fixpoint video_at (l : Z) (s : series video_record) : option video_record :=
  match s with
  | [] => None
  | row :: s' => if fst row =? l then Some (snd row) else video_at l s'
  end.

(** [behavior_files_df.join(video_files_df, on='best_video_index')]:
    each row with the video row of that label, when there is one. *)
Definition join (matched : series match_row) (video_files_df : video_frame)
  : series (match_row * option video_record) :=
  let video_rows :=
    match video_files_df with
    | Records rec_l => from_records rec_l
    | Cached cache => cache
    | SideBySide _ _ => []
    end in
  map (fun row =>
         (fst row, (snd row, video_at (best_video_index (snd row)) video_rows)))
      matched.

Section Search.

Variable abspath : string -> string.
Variable get_file_time : string -> Z.
Variable strptime : string -> string -> option Z.
Variable ffprobe : string -> string.

Local Open Scope io_scope.

(** [all_behavior_files] and [video_files] are what the two [glob]
    calls found. *)
Definition search_for_behavior_and_video_files
    (all_behavior_files video_files : list string)
    (cached_video_files_df : option (series video_record))
  : io (series (match_row * option video_record) * video_frame) :=
  behavior_files_df <-
    parse_behavior_filenames abspath get_file_time strptime
      all_behavior_files true ;;
  (if (List.length video_files =? 0)%nat
   then emit (PrintText "warning: no video files found")
   else io_ret tt) ;;
  video_files_df <-
    parse_video_filenames abspath strptime ffprobe video_files true
      cached_video_files_df ;;
  matched <- lift (find_overlaps behavior_files_df video_files_df) ;;
  io_ret (join matched video_files_df, video_files_df).

End Search.

(** *** What the matcher is to compute *)

(** The overlap series of the loop body, row by row: the overlap of
    one video row with a behavior row, the rows of the rig, and the
    series over them. *)
Definition row_overlap (brow : behavior_record) (v : video_record) : option Z :=
  osub (Some (lower_to (b_dt_end brow) (v_dt_end v)))
       (raise_to (b_dt_start brow) (v_dt_start v)).

Definition same_rig (video_files_df : series video_record) (brow : behavior_record)
  : series video_record :=
  filter (fun row => String.eqb (v_rig (snd row)) (b_rig brow)) video_files_df.

Definition overlaps (video_files_df : series video_record) (brow : behavior_record)
  : series (option Z) :=
  map (fun row => (fst row, row_overlap brow (snd row))) (same_rig video_files_df brow).


(** min(end_b, end_v) - max(start_b, start_v), in nanoseconds. *)
Definition overlap_ns (brow : behavior_record) (end_v start_v : Z) : Z :=
  Z.min (b_dt_end brow) end_v - Z.max (b_dt_start brow) start_v.

(** The video row labelled [l] is on the rig of [brow], has a start
    time, and overlaps [brow] by [ov] nanoseconds. *)
Definition candidate (video_files_df : series video_record)
    (brow : behavior_record) (l : Z) (v : video_record) (ov : Z) : Prop :=
  In (l, v) video_files_df
  /\ v_rig v = b_rig brow
  /\ exists start_v, v_dt_start v = Some start_v
                     /\ ov = overlap_ns brow (v_dt_end v) start_v.

(** [m] records for [brow] a video of largest overlap, or the no-match
    values when that overlap is not positive. *)
Definition best_match (video_files_df : series video_record)
    (brow : behavior_record) (m : match_row) : Prop :=
  m_behavior m = brow
  /\ exists l v ov,
      candidate video_files_df brow l v ov
      /\ (forall l' v' ov', candidate video_files_df brow l' v' ov' -> ov' <= ov)
      /\ ((ov <= 0 /\ best_video_index m = -1
           /\ (best_video_overlap m == 0)%Q)
          \/ (0 < ov /\ best_video_index m = l
              /\ (best_video_overlap m == ov # 1000000000)%Q)).

(** The name a mouse has after cleaning. *)
Definition clean_name (mouse : string) : string := replace aliases (upper mouse).

End Sessions.

(** ** video.py: dumping a frame *)

Module Video.

Local Open Scope Q_scope.
Local Open Scope string_scope.

(** [np.max([0, x])] *)
Definition np_max0 (x : Q) : Q := if Qle_bool x 0 then 0 else x.

Section FrameDump.

(** [subprocess.check_output] of the command. *)
Variable check_output : syscall -> result string.

Local Open Scope io_scope.

(** The command [frame_dump] builds for [meth]; [Ok None] when no
    branch assigns [syscall]. *)
Definition frame_dump_syscall (filename : string) (frametime : Q)
    (output_filename meth : string) (subseek_cushion : Q)
  : result (option syscall) :=
  if String.eqb meth "mplayer" then Raise ValueError
  else if String.eqb meth "ffmpeg best" then
    let coarse := np_max0 (frametime - subseek_cushion) in
    let fine := frametime - coarse in
    Ok (Some (FfmpegBest coarse filename fine output_filename))
  else if String.eqb meth "ffmpeg accurate" then
    Ok (Some (FfmpegAccurate filename frametime output_filename))
  else if String.eqb meth "ffmpeg fast" then
    Ok (Some (FfmpegFast frametime filename output_filename))
  else Ok None.

Definition frame_dump (filename : string) (frametime : Q)
    (output_filename meth : string) (subseek_cushion : Q)
    (verbose dry_run very_verbose : bool) : io unit :=
  syscall <- lift (frame_dump_syscall filename frametime output_filename
                     meth subseek_cushion) ;;
  (if verbose then
     match syscall with
     | Some c => emit (PrintSyscall c)
     | None => throw UnboundLocalError
     end
   else io_ret tt) ;;
  if negb dry_run then
    match syscall with
    | Some c =>
        emit (CheckOutput c) ;;
        syscall_result <- lift (check_output c) ;;
        if very_verbose then emit (PrintText syscall_result) else io_ret tt
    | None => throw UnboundLocalError
    end
  else io_ret tt.

End FrameDump.

End Video.

(** ** video.py: probing a video and reading a frame *)

Module Probe.

Import Pd Re.
Local Open Scope string_scope.
Local Open Scope Z_scope.

(** [s.split(sep)] for a separator of one character. *)
Fixpoint split_on (sep : ascii) (s : string) : list string :=
  match s with
  | EmptyString => [EmptyString]
  | String a s' =>
      if Ascii.eqb a sep then EmptyString :: split_on sep s'
      else match split_on sep s' with
           | field :: fields => String a field :: fields
           | [] => [String a EmptyString]
           end
  end.

(** The same with every whitespace character a separator. *)
Fixpoint split_at_spaces (s : string) : list string :=
  match s with
  | EmptyString => [EmptyString]
  | String a s' =>
      if is_space a then EmptyString :: split_at_spaces s'
      else match split_at_spaces s' with
           | field :: fields => String a field :: fields
           | [] => [String a EmptyString]
           end
  end.

Definition nonempty (s : string) : bool :=
  match s with
  | EmptyString => false
  | String _ _ => true
  end.

(** [s.split()]: the words between runs of whitespace. *)
Definition split_words (s : string) : list string :=
  filter nonempty (split_at_spaces s).

Fixpoint lstrip (s : string) : string :=
  match s with
  | EmptyString => EmptyString
  | String a s' => if is_space a then lstrip s' else s
  end.

Fixpoint rstrip (s : string) : string :=
  match s with
  | EmptyString => EmptyString
  | String a s' =>
      match rstrip s' with
      | EmptyString => if is_space a then EmptyString else String a EmptyString
      | r => String a r
      end
  end.

(** [s.strip()] *)
Definition strip (s : string) : string := rstrip (lstrip s).

(** [s.startswith(p)] *)
Definition startswith (p s : string) : bool :=
  match strip_prefix p s with
  | Some _ => true
  | None => false
  end.

(** The character occurs in the string. *)
Fixpoint occurs (c : ascii) (s : string) : bool :=
  match s with
  | EmptyString => false
  | String a s' => Ascii.eqb a c || occurs c s'
  end.

(** The string holds whitespace only; it holds none. *)
Fixpoint all_spaces (s : string) : bool :=
  match s with
  | EmptyString => true
  | String a s' => is_space a && all_spaces s'
  end.

Fixpoint no_space (s : string) : bool :=
  match s with
  | EmptyString => true
  | String a s' => negb (is_space a) && no_space s'
  end.

(** The string is empty or starts with whitespace. *)
Definition ends_word (s : string) : bool :=
  match s with
  | EmptyString => true
  | String a _ => is_space a
  end.

(** The string is empty or starts with a comma. *)
Definition ends_field (s : string) : bool :=
  match s with
  | EmptyString => true
  | String a _ => Ascii.eqb a ","%char
  end.

(** A line of ffprobe for a video stream: the stream and its codec,
    the pixel format, then the size as WIDTHxHEIGHT with what follows
    it in its field, and the fields after. *)
Definition stream_line (indent head codec pix width height after rest : string)
  : string :=
  indent ++ "Stream #" ++ head ++ " Video: " ++ codec ++ "," ++ pix ++ ", "
  ++ width ++ "x" ++ height ++ after ++ rest.

(** The value [get_video_duration] returns: a timedelta or its total
    seconds. *)
Inductive duration_value : Type :=
| Timedelta (ns : Z)
| TotalSeconds (s : Q).

(** The size a reshape to [(h, w)] gives an array of [n] elements, as
    numpy decides it: one dimension may be -1 and is then inferred; any
    other negative dimension, or a size that does not fit, is refused. *)
Definition reshape2 (n h w : Z) : option (Z * Z) :=
  if (h =? -1) && (w =? -1) then None
  else if h =? -1 then
    if (w <=? 0) then None
    else if n mod w =? 0 then Some (n / w, w) else None
  else if w =? -1 then
    if (h <=? 0) then None
    else if n mod h =? 0 then Some (h, n / h) else None
  else if (h <? 0) || (w <? 0) then None
  else if h * w =? n then Some (h, w) else None.

(** A frame: its shape (height, width) and its pixels row after row. *)
Record frame : Type := {
  shape : Z * Z;
  pixels : list ascii
}.

(** The command line of [get_frame]. *)
Record frame_command : Type := {
  c_frametime : Q;
  c_filename : string;
  c_pix_fmt : string
}.

(** The events of the code that holds a pipe: what it prints and
    probes, and the calls on the subprocess. *)
Inductive pipe_event : Type :=
| Plain (e : event)
| Popen (c : frame_command)
| StdoutRead (size : Z)
| Terminate
| Communicate.

Definition pipe_io (A : Type) : Type := (list pipe_event * result A)%type.

Definition pipe_ret {A : Type} (a : A) : pipe_io A := ([], Ok a).

Definition pipe_bind {A B : Type} (m : pipe_io A) (k : A -> pipe_io B) : pipe_io B :=
  match m with
  | (out, Ok a) => let (out', r) := k a in ((out ++ out')%list, r)
  | (out, Raise e) => (out, Raise e)
  end.

Definition pipe_emit (e : pipe_event) : pipe_io unit := ([e], Ok tt).

(** A computation of [io] run where a pipe may be held. *)
Definition plain {A : Type} (m : io A) : pipe_io A :=
  (map Plain (fst m), snd m).

(** [try: body finally: cleanup]: the cleanup runs on every way out
    of the body, and the result or exception of the body is kept. *)
Definition finally {A : Type} (body : pipe_io A) (cleanup : pipe_io unit) : pipe_io A :=
  match cleanup with
  | (out', Ok _) => ((fst body ++ out')%list, snd body)
  | (out', Raise e) => ((fst body ++ out')%list, Raise e)
  end.

(** [f.read(size)]: [size] bytes or what is left; everything for a
    negative size. *)
Definition read (available : list ascii) (size : Z) : list ascii :=
  if size <? 0 then available else firstn (Z.to_nat size) available.

Section Video.

(** The text [ffprobe] writes for a file. *)
Variable ffprobe : string -> string.

(** [datetime.datetime.strptime(s, format)]; [None] is its ValueError. *)
Variable strptime : string -> string -> option Z.

(** [int(s)] on a string; [None] is its ValueError. *)
Variable int : string -> option Z.

(** What the ffmpeg process of a command writes to its stdout, and
    what [communicate] returns after it was terminated. *)
Variable ffmpeg_stdout : frame_command -> list ascii.
Variable communicate : frame_command -> string * string.

Local Open Scope io_scope.

Definition get_video_duration (video_filename : string)
    (return_as_timedelta : bool) : io duration_value :=
  emit (Ffprobe video_filename) ;;
  let res := ffprobe video_filename in
  if contains "Invalid data found when processing input" res then
    throw ValueError
  else
    match re_search Sessions.duration_pattern res with
    | Some [duration_s] =>
        match strptime duration_s "%H:%M:%S.%f" with
        | None => throw ValueError
        | Some video_duration_temp =>
            let video_duration := Sessions.time_of_day video_duration_temp in
            if return_as_timedelta then io_ret (Timedelta video_duration)
            else io_ret (TotalSeconds (Behavior.seconds video_duration))
        end
    | _ => throw AssertionError
    end.

(** One pass of the loop of [get_video_aspect] over a line:
    [Ok None] when the line is passed over, the size when it is a
    video stream. *)
Definition stream_size (line : string) : result (option (list Z)) :=
  if negb (startswith "Stream #" (strip line)) then Ok None
  else
    let comma_split := split_on ","%char line in
    if negb (contains " Video: " (nth 0 comma_split "")) then Ok None
    else if (List.length comma_split <? 3)%nat then Raise ValueError
    else
      let size_and_aspect := split_words (nth 2 comma_split "") in
      match size_and_aspect with
      | [] => Raise ValueError
      | size_string :: _ =>
          let width_height := split_on "x"%char size_string in
          if negb (List.length width_height =? 2)%nat then Raise ValueError
          else
            bind (mapM (fun s => match int s with
                                 | Some z => Ok z
                                 | None => Raise ValueError
                                 end) width_height)
                 (fun wh => Ok (Some wh))
      end.

(** The loop: the sizes of the video streams, in order. *)
Fixpoint stream_sizes (lines : list string) : result (list (list Z)) :=
  match lines with
  | [] => Ok []
  | line :: rest =>
      bind (stream_size line) (fun found =>
        bind (stream_sizes rest) (fun width_height_l =>
          match found with
          | Some wh => Ok (wh :: width_height_l)
          | None => Ok width_height_l
          end))
  end.

Definition get_video_aspect (video_filename : string) : io (list Z) :=
  emit (Ffprobe video_filename) ;;
  let res := ffprobe video_filename in
  if contains "Invalid data found when processing input" res then
    throw ValueError
  else
    width_height_l <- lift (stream_sizes (split_on "010"%char res)) ;;
    (if (1 <? List.length width_height_l)%nat
     then emit (PrintText "warning: multiple video streams found, returning first")
     else io_ret tt) ;;
    match width_height_l with
    | wh :: _ => io_ret wh
    | [] => throw IndexError
    end.

(** [get_frame(filename, frametime, pix_fmt)]: the frame, or
    [None] when the pipe gave too few bytes, with what
    [communicate] returned. *)
Definition get_frame (filename : string) (frametime : Q) (pix_fmt : string)
  : pipe_io (option frame * string * string) :=
  pipe_bind (plain (get_video_aspect filename)) (fun aspect =>
    let v_width := nth 0 aspect 0 in
    let v_height := nth 1 aspect 0 in
    let command := {| c_frametime := frametime; c_filename := filename;
                      c_pix_fmt := pix_fmt |} in
    pipe_bind (pipe_emit (Popen command)) (fun _ =>
      pipe_bind
        (finally
           (let read_size := v_width * v_height in
            pipe_bind (pipe_emit (StdoutRead read_size)) (fun _ =>
              let raw_image := read (ffmpeg_stdout command) read_size in
              if Z.of_nat (List.length raw_image) <? read_size then
                pipe_bind
                  (pipe_emit (Plain (PrintText "warning: cannot get frame")))
                  (fun _ => pipe_ret None)
              else
                match reshape2 (Z.of_nat (List.length raw_image))
                        v_height v_width with
                | Some hw => pipe_ret (Some {| shape := hw; pixels := raw_image |})
                | None => ([], Raise ValueError)
                end))
           (pipe_bind (pipe_emit Terminate) (fun _ => pipe_emit Communicate)))
        (fun frame =>
           pipe_ret (frame, fst (communicate command), snd (communicate command))))).

End Video.

End Probe.

(** ** A small session used in the examples *)

Module Demo.

Import Np Pd Behavior.
Local Open Scope string_scope.

(** Twelve trials whose gaps grow: the retraction of trial k is at
    40 + 10 k + 3 k^2 seconds. *)
Definition retract_times : fseries :=
  map (fun k => (Z.of_nat k, Some (inject_Z (Z.of_nat (40 + 10 * k + 3 * k * k)))))
      (seq 0 12).

Definition servo (_ : string) : fseries := retract_times.

Definition md : metadata :=
  {| filename := "/home/mouse/runmice/L1/ardulines.20190101120500.KF13";
     filename_video := "/home/mouse/compressed_eye/L1.20190101130500.mp4";
     guess_vvsb_start := 0;
     duration_video := 3600000000000 |}.

Definition guess : list Q := [1; 0]%Q.

(** The times the user reads off the video for the four test points. *)
Definition user_results : list Q := [70; 170; 310; 445]%Q.

(** The four test times chosen for this session and the times of the
    trials that follow them. *)
Definition test_times : list Q :=
  Eval vm_compute in
    match chosen_test_times servo md guess 4 with
    | Ok (tts, _) => known tts
    | Raise _ => []
    end.

Definition test_next_times : list (option Q) :=
  Eval vm_compute in
    match chosen_test_times servo md guess 4 with
    | Ok (_, tns) => tns
    | Raise _ => []
    end.

(** A session with only four trials, as many as the test times asked
    for. *)
Definition short_servo (_ : string) : fseries := firstn 4 retract_times.

Definition short_test_times : list Q :=
  Eval vm_compute in
    match chosen_test_times short_servo md guess 4 with
    | Ok (tts, _) => known tts
    | Raise _ => []
    end.

Definition short_test_next_times : list (option Q) :=
  Eval vm_compute in
    match chosen_test_times short_servo md guess 4 with
    | Ok (_, tns) => tns
    | Raise _ => []
    end.

End Demo.

(** ** The files of the example scenarios *)

Module DemoFiles.

Import Pd Sessions.
Local Open Scope string_scope.
Local Open Scope Z_scope.

(** Nanoseconds since the midnight that starts 2019-01-01. *)
Definition at_time (h m s : Z) : Z := ((h * 60 + m) * 60 + s) * 1000000000.

(** The paths are absolute already. *)
Definition abspath (p : string) : string := p.

(** The stamps and the duration that occur in the scenarios. *)
Definition strptime (s format : string) : option Z :=
  if String.eqb format "%Y%m%d%H%M%S" then
    if String.eqb s "20190101120000" then Some (at_time 12 0 0)
    else if String.eqb s "20190101120500" then Some (at_time 12 5 0)
    else if String.eqb s "20190101130000" then Some (at_time 13 0 0)
    else None
  else if String.eqb format "%H:%M:%S.%f" then
    if String.eqb s "01:00:00.00" then Some (at_time 1 0 0) else None
  else None.

(** Every behavior file was last written at 13:05:00. *)
Definition get_file_time (_ : string) : Z := at_time 13 5 0.

(** Every video lasts one hour. *)
Definition ffprobe (_ : string) : string :=
  "  Duration: 01:00:00.00, start: 0.000000, bitrate: 512 kb/s".

Definition behavior_L1 : string := "/data/runmice/L1/ardulines.20190101120500.KF13".
Definition behavior_L3 : string := "/data/runmice/L3/ardulines.20190101120500.KF13".
Definition behavior_alias : string := "/data/runmice/L1/ardulines.20190101120500.kf13a".
Definition behavior_typo : string := "/data/runmice/L1/ardulines.20190101120500.kf31".
Definition video_L1 : string := "/data/compressed_eye/L1.20190101120000.mp4".
Definition video_L2 : string := "/data/compressed_eye/L2.20190101120000.mp4".
Definition video_L1_late : string := "/data/compressed_eye/L1.20190101130000.mp4".

(** The record of a one-hour video of [rig] that ends at [dt_end]. *)
Definition hour_video (name rig : string) (dt_end : Z) : video_record :=
  {| v_filename := name; v_rig := rig; v_dt_end := dt_end;
     v_duration := Some (at_time 1 0 0);
     v_dt_start := Some (dt_end - at_time 1 0 0) |}.

(** A behavior session of [rig] from 12:05:00 to 13:05:00. *)
Definition session (name rig : string) : behavior_record :=
  {| b_dir := "/data/runmice"; b_rig := rig; b_mouse := "KF13";
     b_dt_start := at_time 12 5 0; b_dt_end := at_time 13 5 0;
     b_duration := at_time 1 0 0; b_filename := name |}.

(** The two one-hour videos stamped 12:00:00 (the stamp is the end of
    a video) and a third one of rig L1 stamped 13:00:00. *)
Definition videos_noon : list video_record :=
  [hour_video video_L1 "L1" (at_time 12 0 0);
   hour_video video_L2 "L2" (at_time 12 0 0)].

Definition videos_three : list video_record :=
  videos_noon ++ [hour_video video_L1_late "L1" (at_time 13 0 0)].

(** A behavior file whose stamp is only a year. *)
Definition behavior_bad_stamp : string := "/data/runmice/L1/ardulines.2019.KF13".

(** Two videos of rig L1 over the same hour, and one of L2. *)
Definition video_L1_copy : string := "/data/compressed_eye/L1.20190101130000.avi".

Definition videos_tie : list video_record :=
  [hour_video video_L2 "L2" (at_time 13 0 0);
   hour_video video_L1_late "L1" (at_time 13 0 0);
   hour_video video_L1_copy "L1" (at_time 13 0 0)].

(** The record of a video of [rig] on which ffprobe found invalid
    data: the end is known from the name, the start is not. *)
Definition broken_video (name rig : string) (dt_end : Z) : video_record :=
  {| v_filename := name; v_rig := rig; v_dt_end := dt_end;
     v_duration := None; v_dt_start := None |}.

(** The video of rig L1 is broken, the one of rig L2 is not. *)
Definition videos_broken_L1 : list video_record :=
  [broken_video video_L1_late "L1" (at_time 13 0 0);
   hour_video video_L2 "L2" (at_time 13 0 0)].

(** A subprocess that succeeds with no output. *)
Definition check_output_ok (_ : syscall) : result string := Ok "".

End DemoFiles.

(** ** A small video used in the examples *)

Module DemoProbe.

Import Probe.
Local Open Scope string_scope.
Local Open Scope Z_scope.

(** What ffprobe writes for a video of 4 by 2 pixels. *)
Definition ffprobe (_ : string) : string :=
  "  Duration: 00:00:01.00, start: 0.000000, bitrate: 2 kb/s"
  ++ String "010"
       (stream_line "    " "0:0(und):" "h264 (High)" " yuv420p" "4" "2"
          " [SAR 1:1 DAR 2:1]" ", 25 fps, 25 tbr").

(** The numbers that occur in it. *)
Definition int (s : string) : option Z :=
  if String.eqb s "4" then Some 4
  else if String.eqb s "2" then Some 2
  else None.

(** The pipe holds ten bytes; two are left after the frame. *)
Definition ffmpeg_stdout (_ : frame_command) : list ascii :=
  list_ascii_of_string "abcdefghij".

Definition communicate (_ : frame_command) : string * string :=
  ("ij", "frame=    1 fps=0.0").

End DemoProbe.

(** * Facts *)

(** ** Polynomials *)

Module NpFacts.

Import Np.
Local Open Scope Q_scope.

Lemma horner_compat (p : list Q) :
  forall y y' x x', y == y' -> x == x' -> horner p y x == horner p y' x'.
Proof.
  induction p as [|a p IH]; intros y y' x x' Hy Hx; simpl.
  - exact Hy.
  - apply IH; [rewrite Hy, Hx; reflexivity | exact Hx].
Qed.

#[export] Instance horner_proper (p : list Q) :
  Proper (Qeq ==> Qeq ==> Qeq) (horner p).
Proof. intros y y' Hy x x' Hx. now apply horner_compat. Qed.

#[export] Instance polyval_proper (p : list Q) : Proper (Qeq ==> Qeq) (polyval p).
Proof. intros x x' Hx. unfold polyval. now apply horner_compat. Qed.

#[export] Instance qpow_proper : Proper (Qeq ==> eq ==> Qeq) qpow.
Proof.
  intros x x' Hx n n' <-. induction n as [|n IH]; simpl.
  - reflexivity.
  - rewrite IH, Hx. reflexivity.
Qed.

Lemma horner_app (p q : list Q) (y x : Q) :
  horner (p ++ q) y x = horner q (horner p y x) x.
Proof. revert y. induction p as [|a p IH]; intros y; simpl; [reflexivity | apply IH]. Qed.

(** The accumulator contributes its value times the power of the
    remaining length. *)
Lemma horner_acc (p : list Q) (y x : Q) :
  horner p y x == y * qpow x (List.length p) + horner p 0 x.
Proof.
  revert y. induction p as [|a p IH]; intros y; simpl.
  - ring.
  - rewrite IH. rewrite (IH (0 * x + a)). ring.
Qed.

Lemma polyval_cons (a : Q) (p : list Q) (x : Q) :
  polyval (a :: p) x == a * qpow x (List.length p) + polyval p x.
Proof.
  unfold polyval. simpl. rewrite horner_acc.
  assert (H : 0 * x + a == a) by ring. rewrite H. reflexivity.
Qed.

Lemma polyval_nil (x : Q) : polyval [] x = 0.
Proof. reflexivity. Qed.

Lemma is_zero_eq (q : Q) : is_zero q = true -> q == 0.
Proof.
  unfold is_zero. intros H. apply Z.eqb_eq in H.
  unfold Qeq. simpl. rewrite H. reflexivity.
Qed.

Lemma polyval_zero_cons (q : Q) (p : list Q) (x : Q) :
  q == 0 -> polyval (q :: p) x == polyval p x.
Proof. intros H. rewrite polyval_cons, H. ring. Qed.

Lemma polyval_trim_zeros (c : list Q) (x : Q) :
  polyval (trim_zeros c) x == polyval c x.
Proof.
  induction c as [|q c IH]; simpl; [reflexivity|].
  destruct (is_zero q) eqn:Hz; [|reflexivity].
  rewrite IH. symmetry. apply polyval_zero_cons. now apply is_zero_eq.
Qed.

Lemma polyval_poly1d (c : list Q) (x : Q) : polyval (poly1d c) x == polyval c x.
Proof.
  unfold poly1d. pose proof (polyval_trim_zeros c x) as H.
  destruct (trim_zeros c) as [|q c'].
  - rewrite <- H. unfold polyval. simpl. ring.
  - exact H.
Qed.

Lemma poly1d_nonempty (c : list Q) : poly1d c <> [].
Proof. unfold poly1d. destruct (trim_zeros c); discriminate. Qed.

Lemma polyval_zeros_app (n : nat) (p : list Q) (x : Q) :
  polyval (zeros n ++ p) x == polyval p x.
Proof.
  induction n as [|n IH]; simpl; [reflexivity|].
  rewrite polyval_zero_cons; [exact IH | reflexivity].
Qed.

Lemma polyval_app_zeros (p : list Q) (n : nat) (x : Q) :
  polyval (p ++ zeros n) x == polyval p x * qpow x n.
Proof.
  unfold polyval. rewrite horner_app. generalize (horner p 0 x) as y.
  induction n as [|n IH]; intros y; simpl.
  - ring.
  - rewrite IH. ring.
Qed.

Lemma polyval_zip_add (a : list Q) :
  forall b x, List.length a = List.length b ->
              polyval (zip_add a b) x == polyval a x + polyval b x.
Proof.
  induction a as [|u a IH]; intros [|v b] x Hlen; simpl in Hlen; try discriminate.
  - simpl. unfold polyval. simpl. ring.
  - injection Hlen as Hlen. simpl zip_add.
    rewrite !polyval_cons, (IH b x Hlen).
    assert (Hl : List.length (zip_add a b) = List.length b).
    { clear IH. revert b Hlen. induction a as [|u' a IHa]; intros [|v' b] H;
        simpl in *; try discriminate; [reflexivity|].
      f_equal. apply IHa. now injection H. }
    rewrite Hl, Hlen. ring.
Qed.

Lemma length_zip_add (a : list Q) :
  forall b, List.length a = List.length b -> List.length (zip_add a b) = List.length a.
Proof.
  induction a as [|u a IH]; intros [|v b] H; simpl in *; try discriminate.
  - reflexivity.
  - f_equal. apply IH. now injection H.
Qed.

Lemma length_zeros (n : nat) : List.length (zeros n) = n.
Proof. apply repeat_length. Qed.

Lemma polyval_polyadd (a b : list Q) (x : Q) :
  polyval (polyadd a b) x == polyval a x + polyval b x.
Proof.
  unfold polyadd. rewrite polyval_poly1d, polyval_zip_add.
  - rewrite !polyval_zeros_app. reflexivity.
  - rewrite !length_app, !length_zeros. lia.
Qed.

Lemma polyval_scale (k : Q) (p : list Q) (x : Q) :
  polyval (map (Qmult k) p) x == k * polyval p x.
Proof.
  induction p as [|a p IH].
  - unfold polyval. simpl. ring.
  - simpl map. rewrite !polyval_cons, IH, length_map. ring.
Qed.

Lemma convolve_one (u : Q) (b : list Q) :
  convolve [u] b = map (Qmult u) b ++ zeros 0.
Proof. reflexivity. Qed.

Lemma convolve_more (u u' : Q) (a b : list Q) :
  convolve (u :: u' :: a) b =
  zip_add (map (Qmult u) b ++ zeros (S (List.length a)))
          (zeros 1 ++ convolve (u' :: a) b).
Proof. reflexivity. Qed.

Lemma length_convolve (a b : list Q) :
  a <> [] -> b <> [] ->
  List.length (convolve a b) = (List.length a + List.length b - 1)%nat.
Proof.
  intros Ha Hb.
  assert (0 < List.length b)%nat by (destruct b; [contradiction | simpl; lia]).
  induction a as [|u a IH]; [contradiction|].
  destruct a as [|u' a'].
  - rewrite convolve_one, length_app, length_map, length_zeros. simpl. lia.
  - rewrite convolve_more, length_zip_add.
    + rewrite length_app, length_map, length_zeros. simpl. lia.
    + rewrite !length_app, length_map, !length_zeros, IH by discriminate.
      simpl. lia.
Qed.

Lemma polyval_convolve (a b : list Q) (x : Q) :
  b <> [] -> polyval (convolve a b) x == polyval a x * polyval b x.
Proof.
  intros Hb.
  assert (0 < List.length b)%nat by (destruct b; [contradiction | simpl; lia]).
  induction a as [|u a IH].
  - simpl. unfold polyval. simpl. ring.
  - destruct a as [|u' a'].
    + rewrite convolve_one, polyval_app_zeros, polyval_scale, polyval_cons.
      rewrite polyval_nil. simpl qpow. simpl List.length. simpl qpow. ring.
    + rewrite convolve_more, polyval_zip_add.
      * rewrite polyval_app_zeros, polyval_scale, polyval_zeros_app, IH.
        rewrite (polyval_cons u). simpl List.length. ring.
      * rewrite !length_app, length_map, !length_zeros,
          length_convolve by (discriminate || assumption).
        simpl. lia.
Qed.

Lemma polyval_polymul (a b : list Q) (x : Q) :
  b <> [] -> polyval (polymul a b) x == polyval a x * polyval b x.
Proof. intros Hb. unfold polymul. rewrite polyval_poly1d. now apply polyval_convolve. Qed.

Lemma polyval_pval_mul (y : pval) (x : list Q) (t : Q) :
  x <> [] -> polyval (pval_mul y x) t == pval_at y t * polyval x t.
Proof.
  intros Hx. destruct y as [q|c]; simpl.
  - rewrite polyval_poly1d. apply polyval_scale.
  - now apply polyval_polymul.
Qed.

Lemma polyval_poly_add_scalar (c : list Q) (pv t : Q) :
  polyval (poly_add_scalar c pv) t == polyval c t + pv.
Proof.
  unfold poly_add_scalar. rewrite polyval_polyadd, polyval_poly1d.
  unfold polyval at 2. simpl. ring.
Qed.

Lemma polyval_loop_at (p : list Q) :
  forall y x t, x <> [] ->
    pval_at (polyval_loop p y x) t == horner p (pval_at y t) (polyval x t).
Proof.
  induction p as [|pv p IH]; intros y x t Hx; simpl.
  - reflexivity.
  - rewrite IH by assumption. simpl pval_at.
    apply horner_compat; [|reflexivity].
    rewrite polyval_poly_add_scalar, polyval_pval_mul by assumption. reflexivity.
Qed.

(** Evaluating a polynomial at a polynomial composes them. *)
Lemma polyval_poly_at (p x : list Q) (t : Q) :
  x <> [] -> pval_at (polyval_poly p x) t == polyval p (polyval x t).
Proof. intros Hx. unfold polyval_poly. now rewrite polyval_loop_at. Qed.

Lemma polyval_asarray (y : pval) (t : Q) : polyval (asarray y) t == pval_at y t.
Proof.
  destruct y as [q|c]; simpl; [|reflexivity].
  unfold polyval. simpl. ring.
Qed.

(** [np.polyval(np.poly1d(f), np.poly1d(g))] is [f] after [g]. *)
Lemma polyval_poly1d_compose (f g : list Q) (t : Q) :
  polyval (asarray (polyval_poly (poly1d f) (poly1d g))) t
  == polyval f (polyval g t).
Proof.
  rewrite polyval_asarray, polyval_poly_at by apply poly1d_nonempty.
  rewrite polyval_poly1d. apply polyval_proper. apply polyval_poly1d.
Qed.

End NpFacts.

(** ** Fallible loops *)

Lemma mapM_length {A B : Type} (f : A -> result B) (l : list A) :
  forall bs, mapM f l = Ok bs -> List.length bs = List.length l.
Proof.
  induction l as [|a l IH]; simpl; intros bs H.
  - injection H as <-. reflexivity.
  - destruct (f a) as [b|e]; [|discriminate].
    destruct (mapM f l) as [bs'|e]; [|discriminate].
    injection H as <-. simpl. f_equal. now apply IH.
Qed.

Lemma mapM_ok {A B : Type} (f : A -> result B) (g : A -> B) (l : list A) :
  (forall a, In a l -> f a = Ok (g a)) -> mapM f l = Ok (map g l).
Proof.
  induction l as [|a l IH]; simpl; intros H; [reflexivity|].
  rewrite (H a) by now left. rewrite IH by (intros; apply H; now right).
  reflexivity.
Qed.

Lemma mapM_Forall2 {A B : Type} (f : A -> result B) (l : list A) :
  forall bs, mapM f l = Ok bs -> Forall2 (fun a b => f a = Ok b) l bs.
Proof.
  induction l as [|a l IH]; simpl; intros bs H.
  - injection H as <-. constructor.
  - destruct (f a) as [b|e] eqn:Hf; [|discriminate].
    destruct (mapM f l) as [bs'|e]; [|discriminate].
    injection H as <-. constructor; [exact Hf | now apply IH].
Qed.

(** ** The clock aligner *)

Module AlignerFacts.

Import Np Pd Behavior NpFacts.
Local Open Scope Q_scope.

Lemma length_range (n : Z) : List.length (range n) = Z.to_nat n.
Proof. unfold range. now rewrite length_map, length_seq. Qed.

(** One index is chosen per segment. *)
Lemma index_of_biggest_diffs_length (ser : fseries) (N : Z) (idxs : list (option Z)) :
  index_of_biggest_diffs_across_arr ser N = Ok idxs ->
  List.length idxs = Z.to_nat N.
Proof.
  unfold index_of_biggest_diffs_across_arr, bind.
  destruct (mapM _ (range N)) as [cuts|e] eqn:Hcuts; [|discriminate].
  destruct (index_last (dropna ser)) as [last|e]; [|discriminate].
  intros H. apply mapM_length in H. apply mapM_length in Hcuts.
  rewrite H, length_seq, length_app, Hcuts, length_range. simpl. lia.
Qed.

Lemma take_labels_length (labels : list (option Z)) (s : fseries) :
  List.length (take_labels labels s) = List.length labels.
Proof. unfold take_labels. apply length_map. Qed.

Lemma generate_test_times_length times max_time guess N buffer tts tns :
  generate_test_times_for_user times max_time guess N buffer = Ok (tts, tns) ->
  List.length tts = Z.to_nat N /\ List.length tns = Z.to_nat N.
Proof.
  unfold generate_test_times_for_user, bind.
  destruct (index_of_biggest_diffs_across_arr _ N) as [idxs|e] eqn:Hi; [|discriminate].
  intros H. injection H as <- <-. rewrite !take_labels_length.
  apply index_of_biggest_diffs_length in Hi. now split.
Qed.

Lemma known_map_Some (xs : list Q) : known (map Some xs) = xs.
Proof. induction xs as [|x xs IH]; simpl; [reflexivity | now rewrite IH]. Qed.

Section Aligner.

Variable servo_retract_times : string -> fseries.
Variable lstsq_line : list Q -> list Q -> Q * Q.


(** The print loop over test times that are all numbers. *)
Lemma print_loop_numbers (md : metadata) (pre_time : Z) (xs : list Q) :
  forall nexts,
    io_iter (fun tn : option Q * option Q =>
               match fst tn with
               | None => throw ValueError
               | Some test_time =>
                   emit (PrintMplayer (int test_time - pre_time)%Z
                           (filename_video md) test_time (snd tn))
               end)
            (combine (map Some xs) nexts)
    = (mplayer_lines md pre_time xs nexts, Ok tt).
Proof.
  unfold mplayer_lines.
  induction xs as [|x xs IH]; intros [|n nexts]; simpl; try reflexivity.
  rewrite IH. reflexivity.
Qed.

Lemma sync_unfold md user_results guess N pre_time :
  generate_mplayer_guesses_and_sync servo_retract_times lstsq_line md
    user_results guess N pre_time =
  io_bind (lift (chosen_test_times servo_retract_times md guess N)) (fun tts =>
    io_bind
      (io_iter (fun tn : option Q * option Q =>
                  match fst tn with
                  | None => throw ValueError
                  | Some test_time =>
                      emit (PrintMplayer (int test_time - pre_time)%Z
                              (filename_video md) test_time (snd tn))
                  end)
               (combine (fst tts) (snd tts)))
      (fun _ =>
         match user_results with
         | None => io_ret tt
         | Some user_results =>
             if negb (Z.of_nat (List.length user_results) =? N)%Z then
               emit (PrintLenWarning N (List.length user_results))
             else
               io_bind (lift (polyfit lstsq_line (known (fst tts)) user_results))
                 (fun new_fit =>
                    io_bind (emit (PrintText (path_tail (filename md)))) (fun _ =>
                    io_bind (emit (PrintText (path_tail (filename_video md)))) (fun _ =>
                    io_bind (emit (PrintCombinedFit
                               (asarray (polyval_poly (poly1d new_fit) (poly1d guess)))))
                      (fun _ =>
                         emit (PrintResids
                                 (zip_sub (polyval_arr new_fit (known (fst tts)))
                                    user_results))))))
         end)).
Proof.
  unfold generate_mplayer_guesses_and_sync, chosen_test_times.
  destruct (generate_test_times_for_user _ _ _ _ _) as [[tts tns]|e]; reflexivity.
Qed.

(** With no user results only the commands are printed. *)
Lemma sync_without_results md guess N pre_time xs nexts :
  chosen_test_times servo_retract_times md guess N = Ok (map Some xs, nexts) ->
  generate_mplayer_guesses_and_sync servo_retract_times lstsq_line md
    None guess N pre_time = (mplayer_lines md pre_time xs nexts, Ok tt).
Proof.
  intros H. rewrite sync_unfold, H. unfold lift, io_bind. simpl fst; simpl snd.
  rewrite print_loop_numbers. simpl. now rewrite app_nil_r.
Qed.

Lemma sync_wrong_count md ur guess N pre_time xs nexts :
  chosen_test_times servo_retract_times md guess N = Ok (map Some xs, nexts) ->
  Z.of_nat (List.length ur) <> N ->
  generate_mplayer_guesses_and_sync servo_retract_times lstsq_line md
    (Some ur) guess N pre_time
  = (mplayer_lines md pre_time xs nexts ++ [PrintLenWarning N (List.length ur)], Ok tt).
Proof.
  intros H Hlen. rewrite sync_unfold, H. unfold lift, io_bind. simpl fst; simpl snd.
  rewrite print_loop_numbers.
  apply Z.eqb_neq in Hlen. rewrite Hlen. reflexivity.
Qed.

(** What a completed refit prints. *)
Lemma sync_refit md ur guess N pre_time xs nexts :
  chosen_test_times servo_retract_times md guess N = Ok (map Some xs, nexts) ->
  Z.of_nat (List.length ur) = N ->
  (0 < N)%Z ->
  generate_mplayer_guesses_and_sync servo_retract_times lstsq_line md
    (Some ur) guess N pre_time
  = (mplayer_lines md pre_time xs nexts ++
     [PrintText (path_tail (filename md));
      PrintText (path_tail (filename_video md));
      PrintCombinedFit
        (asarray (polyval_poly
                    (poly1d [fst (lstsq_line xs ur); snd (lstsq_line xs ur)])
                    (poly1d guess)));
      PrintResids
        (zip_sub (polyval_arr [fst (lstsq_line xs ur); snd (lstsq_line xs ur)] xs)
                 ur)],
     Ok tt).
Proof.
  intros H Hlen Hpos. rewrite sync_unfold, H.
  unfold lift, io_bind. simpl fst; simpl snd.
  rewrite print_loop_numbers.
  apply Z.eqb_eq in Hlen as Hb. rewrite Hb. simpl negb. cbv iota.
  rewrite known_map_Some.
  apply generate_test_times_length in H as [Hx _]. rewrite length_map in Hx.
  assert (Hxu : List.length xs = List.length ur) by lia.
  unfold polyfit. destruct xs as [|x xs'].
  { simpl in Hx. lia. }
  apply Nat.eqb_eq in Hxu. rewrite Hxu.
  destruct (lstsq_line (x :: xs') ur) as [m c]. reflexivity.
Qed.

Lemma polyval_line (m c x : Q) : polyval [m; c] x == m * x + c.
Proof. unfold polyval. simpl. ring. Qed.

Lemma zip_sub_nth (a : list Q) :
  forall b i x y,
    nth_error a i = Some x -> nth_error b i = Some y ->
    nth_error (zip_sub a b) i = Some (x - y).
Proof.
  induction a as [|u a IH]; intros [|v b] [|i] x y Ha Hb; simpl in *;
    try discriminate.
  - now injection Ha as <-; injection Hb as <-.
  - now apply IH.
Qed.

(** C1: once the user has given the N video times, the combined
    correction that is printed is the new fit evaluated at the output
    of the initial guess: at every time [t] it takes the value
    [f(g(t))], where [g] is the guess and [f] the newly fit line.  The
    other order, [g(f(t))], is a different map in general. *)
Theorem combined_fit_is_new_fit_after_guess md ur guess N pre_time xs nexts :
  chosen_test_times servo_retract_times md guess N = Ok (map Some xs, nexts) ->
  Z.of_nat (List.length ur) = N ->
  (0 < N)%Z ->
  let new_fit := [fst (lstsq_line xs ur); snd (lstsq_line xs ur)] in
  (exists combined_fit resids,
      generate_mplayer_guesses_and_sync servo_retract_times lstsq_line md
        (Some ur) guess N pre_time
      = (mplayer_lines md pre_time xs nexts ++
         [PrintText (path_tail (filename md));
          PrintText (path_tail (filename_video md));
          PrintCombinedFit combined_fit;
          PrintResids resids],
         Ok tt)
      /\ forall t, polyval combined_fit t == polyval new_fit (polyval guess t))
  /\ ~ (forall f g t,
           polyval (asarray (polyval_poly (poly1d f) (poly1d g))) t
           == polyval g (polyval f t)).
Proof.
  intros H Hlen Hpos new_fit. split.
  - eexists. eexists. split.
    + eapply sync_refit; eassumption.
    + intros t. apply polyval_poly1d_compose.
  - intros Hrev.
    specialize (Hrev [102 # 100; - (3 # 10)] [9991 # 10000; 75 # 10] 0).
    vm_compute in Hrev. discriminate.
Qed.

(** C4 (as the code has it): the residuals printed after a completed
    refit are predicted minus observed: for each reference point, the
    value of the newly fit line at the guessed time minus the video
    time the user gave. *)
Theorem resids_are_predicted_minus_observed md ur guess N pre_time xs nexts :
  chosen_test_times servo_retract_times md guess N = Ok (map Some xs, nexts) ->
  Z.of_nat (List.length ur) = N ->
  (0 < N)%Z ->
  exists combined_fit resids,
    generate_mplayer_guesses_and_sync servo_retract_times lstsq_line md
      (Some ur) guess N pre_time
    = (mplayer_lines md pre_time xs nexts ++
       [PrintText (path_tail (filename md));
        PrintText (path_tail (filename_video md));
        PrintCombinedFit combined_fit;
        PrintResids resids],
       Ok tt)
    /\ List.length resids = List.length ur
    /\ forall i x u,
        nth_error xs i = Some x -> nth_error ur i = Some u ->
        exists r, nth_error resids i = Some r
                  /\ r == (fst (lstsq_line xs ur) * x + snd (lstsq_line xs ur)) - u.
Proof.
  intros H Hlen Hpos. eexists. eexists. split; [|split].
  - eapply sync_refit; eassumption.
  - apply generate_test_times_length in H as [Hx _]. rewrite length_map in Hx.
    assert (Hxu : List.length xs = List.length ur) by lia.
    clear - Hxu. unfold polyval_arr.
    generalize (polyval [fst (lstsq_line xs ur); snd (lstsq_line xs ur)]) as f.
    intros f. revert ur Hxu.
    induction xs as [|x xs' IH]; intros [|u ur'] Hl; simpl in *; try discriminate.
    + reflexivity.
    + f_equal. apply IH. now injection Hl.
  - intros i x u Hx Hu. eexists. split.
    + apply zip_sub_nth; [|exact Hu]. unfold polyval_arr.
      rewrite nth_error_map, Hx. reflexivity.
    + rewrite polyval_line. reflexivity.
Qed.

End Aligner.

(** C5 (amended): when the N test times were chosen and none of them
    is NaN, and user results are given but their number is not N, the
    function prints the commands and the warning and returns: nothing
    is fit (the output is the same whatever the fitting routine), and
    no combined correction or residual is printed.  Without the
    condition on the test times the claim fails: a NaN test time
    makes the print loop raise before the number of user results is
    looked at. *)
Theorem wrong_count_warns_without_fitting
    (servo_retract_times : string -> fseries)
    (lstsq_line : list Q -> list Q -> Q * Q)
    md ur guess N pre_time xs nexts :
  chosen_test_times servo_retract_times md guess N = Ok (map Some xs, nexts) ->
  Z.of_nat (List.length ur) <> N ->
  let out :=
    generate_mplayer_guesses_and_sync servo_retract_times lstsq_line md
      (Some ur) guess N pre_time in
  out = (mplayer_lines md pre_time xs nexts
         ++ [PrintLenWarning N (List.length ur)],
         Ok tt)
  /\ (forall other_fit,
         generate_mplayer_guesses_and_sync servo_retract_times other_fit md
           (Some ur) guess N pre_time = out)
  /\ (forall c, ~ In (PrintCombinedFit c) (fst out))
  /\ (forall r, ~ In (PrintResids r) (fst out)).
Proof.
  intros H Hlen out.
  pose proof (@sync_wrong_count servo_retract_times lstsq_line
                md ur guess N pre_time xs nexts H Hlen) as E.
  fold out in E. split; [exact E|]. split.
  - intros other_fit. rewrite E.
    apply (@sync_wrong_count servo_retract_times other_fit
             md ur guess N pre_time xs nexts H Hlen).
  - rewrite E. simpl fst.
    assert (Hm : forall e, In e (mplayer_lines md pre_time xs nexts) ->
                           exists a b c d, e = PrintMplayer a b c d).
    { intros e He. unfold mplayer_lines in He. apply in_map_iff in He.
      destruct He as [tn [<- _]]. eauto. }
    split; intros c Hin; apply in_app_or in Hin as [Hin|Hin].
    + apply Hm in Hin as (a & b & c' & d & Hin). discriminate.
    + simpl in Hin. destruct Hin as [Hin|[]]. discriminate.
    + apply Hm in Hin as (a & b & c' & d & Hin). discriminate.
    + simpl in Hin. destruct Hin as [Hin|[]]. discriminate.
Qed.

End AlignerFacts.

(** ** The clock aligner on the example session *)

Module AlignerExamples.

Import Np Pd Behavior AlignerFacts.
Local Open Scope Q_scope.

Lemma demo_chosen :
  chosen_test_times Demo.servo Demo.md Demo.guess 4
  = Ok (map Some Demo.test_times, Demo.test_next_times).
Proof. vm_compute. reflexivity. Qed.

Lemma demo_test_times : Forall2 Qeq Demo.test_times [72; 165; 312; 440].
Proof. repeat constructor. Qed.

Lemma combined_fit_is_new_fit_after_guess_witness :
  let new_fit :=
    [fst (exact_lstsq_line Demo.test_times Demo.user_results);
     snd (exact_lstsq_line Demo.test_times Demo.user_results)] in
  (exists combined_fit resids,
      generate_mplayer_guesses_and_sync Demo.servo exact_lstsq_line Demo.md
        (Some Demo.user_results) Demo.guess 4 10
      = (mplayer_lines Demo.md 10 Demo.test_times Demo.test_next_times ++
         [PrintText (path_tail (filename Demo.md));
          PrintText (path_tail (filename_video Demo.md));
          PrintCombinedFit combined_fit;
          PrintResids resids],
         Ok tt)
      /\ forall t, polyval combined_fit t == polyval new_fit (polyval Demo.guess t))
  /\ ~ (forall f g t,
           polyval (asarray (polyval_poly (poly1d f) (poly1d g))) t
           == polyval g (polyval f t)).
Proof.
  apply (@combined_fit_is_new_fit_after_guess Demo.servo exact_lstsq_line
           Demo.md Demo.user_results Demo.guess 4 10
           Demo.test_times Demo.test_next_times).
  - vm_compute. reflexivity.
  - reflexivity.
  - reflexivity.
Defined.

Lemma resids_are_predicted_minus_observed_witness :
  exists combined_fit resids,
    generate_mplayer_guesses_and_sync Demo.servo exact_lstsq_line Demo.md
      (Some Demo.user_results) Demo.guess 4 10
    = (mplayer_lines Demo.md 10 Demo.test_times Demo.test_next_times ++
       [PrintText (path_tail (filename Demo.md));
        PrintText (path_tail (filename_video Demo.md));
        PrintCombinedFit combined_fit;
        PrintResids resids],
       Ok tt)
    /\ List.length resids = List.length Demo.user_results
    /\ forall i x u,
        nth_error Demo.test_times i = Some x ->
        nth_error Demo.user_results i = Some u ->
        exists r, nth_error resids i = Some r
                  /\ r == (fst (exact_lstsq_line Demo.test_times Demo.user_results) * x
                           + snd (exact_lstsq_line Demo.test_times Demo.user_results)) - u.
Proof.
  apply (@resids_are_predicted_minus_observed Demo.servo exact_lstsq_line
           Demo.md Demo.user_results Demo.guess 4 10
           Demo.test_times Demo.test_next_times).
  - vm_compute. reflexivity.
  - reflexivity.
  - reflexivity.
Defined.

(** On the example session the first residual printed is not the time
    the user gave minus the value of the new fit: it is its opposite,
    and it is not zero. *)
Lemma resids_not_observed_minus_predicted :
  let new_fit :=
    [fst (exact_lstsq_line Demo.test_times Demo.user_results);
     snd (exact_lstsq_line Demo.test_times Demo.user_results)] in
  exists printed resids r x u,
    generate_mplayer_guesses_and_sync Demo.servo exact_lstsq_line Demo.md
      (Some Demo.user_results) Demo.guess 4 10
    = (printed ++ [PrintResids resids], Ok tt)
    /\ nth_error resids 0 = Some r
    /\ nth_error Demo.test_times 0 = Some x
    /\ nth_error Demo.user_results 0 = Some u
    /\ ~ r == u - polyval new_fit x.
Proof.
  intros new_fit.
  exists (mplayer_lines Demo.md 10 Demo.test_times Demo.test_next_times ++
          [PrintText (path_tail (filename Demo.md));
           PrintText (path_tail (filename_video Demo.md));
           PrintCombinedFit
             (asarray (polyval_poly (poly1d new_fit) (poly1d Demo.guess)))]).
  exists (zip_sub (polyval_arr new_fit Demo.test_times) Demo.user_results).
  eexists. eexists. eexists.
  split; [|split; [|split; [|split]]].
  - etransitivity.
    + apply (@sync_refit Demo.servo exact_lstsq_line Demo.md Demo.user_results
               Demo.guess 4 10 Demo.test_times Demo.test_next_times).
      * exact demo_chosen.
      * reflexivity.
      * reflexivity.
    + rewrite <- app_assoc. reflexivity.
  - vm_compute. reflexivity.
  - vm_compute. reflexivity.
  - reflexivity.
  - apply Qeq_bool_neq. vm_compute. reflexivity.
Qed.

Lemma wrong_count_warns_without_fitting_witness :
  let out :=
    generate_mplayer_guesses_and_sync Demo.servo exact_lstsq_line Demo.md
      (Some [70; 170; 310]) Demo.guess 4 10 in
  out = (mplayer_lines Demo.md 10 Demo.test_times Demo.test_next_times
         ++ [PrintLenWarning 4 3],
         Ok tt)
  /\ (forall other_fit,
         generate_mplayer_guesses_and_sync Demo.servo other_fit Demo.md
           (Some [70; 170; 310]) Demo.guess 4 10 = out)
  /\ (forall c, ~ In (PrintCombinedFit c) (fst out))
  /\ (forall r, ~ In (PrintResids r) (fst out)).
Proof.
  apply (@wrong_count_warns_without_fitting Demo.servo exact_lstsq_line
           Demo.md [70; 170; 310] Demo.guess 4 10
           Demo.test_times Demo.test_next_times).
  - vm_compute. reflexivity.
  - simpl. discriminate.
Defined.

(** On a session of four trials the last of the four test times is
    NaN.  With three user results, one fewer than N = 4, the function
    prints three commands and raises ValueError: it prints no warning
    and does not return. *)
Lemma wrong_count_raises_without_warning :
  Z.of_nat (List.length [70; 170; 310]) <> 4%Z
  /\ generate_mplayer_guesses_and_sync Demo.short_servo exact_lstsq_line Demo.md
       (Some [70; 170; 310]) Demo.guess 4 10
     = (mplayer_lines Demo.md 10 Demo.short_test_times Demo.short_test_next_times,
        Raise ValueError)
  /\ List.length
       (mplayer_lines Demo.md 10 Demo.short_test_times Demo.short_test_next_times)
     = 3%nat
  /\ forall n k,
       ~ In (PrintLenWarning n k)
            (mplayer_lines Demo.md 10 Demo.short_test_times
               Demo.short_test_next_times).
Proof.
  split; [simpl; discriminate|].
  split; [vm_compute; reflexivity|].
  split; [vm_compute; reflexivity|].
  intros n k Hin. unfold mplayer_lines in Hin.
  apply in_map_iff in Hin as [tn [Heq _]]. discriminate.
Qed.

End AlignerExamples.

(** ** Masking near the ends *)

Module MaskFacts.

Import Pd Behavior.
Local Open Scope Q_scope.

Lemma Qlt_bool_false (x y : Q) : Qlt_bool x y = false -> y <= x.
Proof.
  unfold Qlt_bool. intros H. apply negb_false_iff in H.
  now apply Qle_bool_iff.
Qed.

Lemma Qlt_bool_true (x y : Q) : Qlt_bool x y = true -> x < y.
Proof.
  unfold Qlt_bool. intros H. apply negb_true_iff in H.
  apply Qnot_le_lt. intros Hle. apply Qle_bool_iff in Hle. congruence.
Qed.

Lemma mask_by_buffer_from_end_rows (ser : fseries) (end_time buffer : Q) :
  mask_by_buffer_from_end ser end_time buffer = map (mask_row end_time buffer) ser.
Proof.
  unfold mask_by_buffer_from_end, set_nan_where. rewrite map_map.
  apply map_ext. intros [l [q|]]; unfold mask_row; simpl; [|reflexivity].
  destruct (Qlt_bool q buffer); simpl; [reflexivity|].
  destruct (Qlt_bool (end_time - buffer) q); reflexivity.
Qed.

(** C6: after masking, the series has the same index (so the same
    length) as before, and every entry is either NaN or its old value,
    which then lies between [buffer] and [end_time - buffer]. *)
Theorem mask_by_buffer_from_end_bounds (ser : fseries) (end_time buffer : Q) :
  let out := mask_by_buffer_from_end ser end_time buffer in
  index out = index ser
  /\ List.length out = List.length ser
  /\ Forall2 (fun row row' =>
                fst row' = fst row
                /\ (snd row' = None
                    \/ exists v, snd row' = Some v /\ snd row = Some v
                                 /\ buffer <= v /\ v <= end_time - buffer))
             ser out.
Proof.
  intros out. subst out. rewrite mask_by_buffer_from_end_rows.
  assert (Hrow : forall row,
             fst (mask_row end_time buffer row) = fst row
             /\ (snd (mask_row end_time buffer row) = None
                 \/ exists v, snd (mask_row end_time buffer row) = Some v
                              /\ snd row = Some v
                              /\ buffer <= v /\ v <= end_time - buffer)).
  { intros [l [q|]]; unfold mask_row; simpl.
    - destruct (Qlt_bool q buffer) eqn:H1; simpl; [auto|].
      destruct (Qlt_bool (end_time - buffer) q) eqn:H2; simpl; [auto|].
      split; [reflexivity|]. right. exists q.
      repeat split; [now apply Qlt_bool_false | now apply Qlt_bool_false].
    - auto. }
  split; [|split].
  - unfold index. rewrite map_map. apply map_ext. intros row. apply Hrow.
  - apply length_map.
  - induction ser as [|row ser IH]; simpl; constructor; [apply Hrow | exact IH].
Qed.

End MaskFacts.

(** ** The seek split of [frame_dump] *)

Module VideoFacts.

Import Video.
Local Open Scope Q_scope.
Local Open Scope string_scope.

Lemma np_max0_nonneg (x : Q) : 0 <= np_max0 x.
Proof.
  unfold np_max0. destruct (Qle_bool x 0) eqn:H.
  - apply Qle_refl.
  - apply Qlt_le_weak, Qnot_le_lt. intros Hle.
    apply Qle_bool_iff in Hle. congruence.
Qed.

Lemma np_max0_is_max (x : Q) : np_max0 x == Qmax 0 x.
Proof.
  unfold np_max0. destruct (Qle_bool x 0) eqn:H.
  - apply Qle_bool_iff in H. symmetry. now apply Q.max_l.
  - symmetry. apply Q.max_r. apply Qlt_le_weak, Qnot_le_lt. intros Hle.
    apply Qle_bool_iff in Hle. congruence.
Qed.

(** With a negative cushion the fine seek is negative: for a frame at
    5 s and a cushion of -10 s the coarse seek is 15 s and the fine
    seek -10 s. *)
Lemma negative_cushion_gives_negative_fine :
  exists coarse fine,
    frame_dump_syscall "video.mp4" 5 "out.png" "ffmpeg best" (-10)
    = Ok (Some (FfmpegBest coarse "video.mp4" fine "out.png"))
    /\ 0 <= 5
    /\ coarse == 15
    /\ fine == -10
    /\ ~ 0 <= fine.
Proof.
  eexists. eexists. split; [vm_compute; reflexivity|].
  repeat split; try (intros H; vm_compute in H; apply H; reflexivity).
  intros H; vm_compute in H; discriminate.
Qed.

(** C10 (as the code has it): for a frame time and a cushion that are
    both non-negative, [ffmpeg best] seeks first to
    [coarse = max(0, frametime - subseek_cushion)] and then by
    [fine = frametime - coarse]; both are non-negative and add up to
    the frame time. *)
Theorem seek_split (filename output_filename : string) (frametime subseek_cushion : Q) :
  0 <= frametime ->
  0 <= subseek_cushion ->
  exists coarse fine,
    frame_dump_syscall filename frametime output_filename "ffmpeg best"
      subseek_cushion
    = Ok (Some (FfmpegBest coarse filename fine output_filename))
    /\ coarse == Qmax 0 (frametime - subseek_cushion)
    /\ fine == frametime - coarse
    /\ 0 <= coarse
    /\ 0 <= fine
    /\ coarse + fine == frametime.
Proof.
  intros Hf Hc.
  exists (np_max0 (frametime - subseek_cushion)).
  exists (frametime - np_max0 (frametime - subseek_cushion)).
  split; [reflexivity|].
  split; [apply np_max0_is_max|].
  split; [reflexivity|].
  split; [apply np_max0_nonneg|].
  split; [|ring].
  unfold np_max0. destruct (Qle_bool (frametime - subseek_cushion) 0) eqn:H.
  - assert (E : frametime - 0 == frametime) by ring. rewrite E. exact Hf.
  - assert (E : frametime - (frametime - subseek_cushion) == subseek_cushion) by ring.
    rewrite E. exact Hc.
Qed.

Lemma seek_split_witness :
  exists coarse fine,
    frame_dump_syscall "video.mp4" 25 "out.png" "ffmpeg best" 20
    = Ok (Some (FfmpegBest coarse "video.mp4" fine "out.png"))
    /\ coarse == Qmax 0 (25 - 20)
    /\ fine == 25 - coarse
    /\ 0 <= coarse
    /\ 0 <= fine
    /\ coarse + fine == 25.
Proof.
  apply (seek_split "video.mp4" "out.png" (frametime := 25) (subseek_cushion := 20)).
  - discriminate.
  - discriminate.
Defined.

End VideoFacts.

(** ** File names and session matching *)

Module SessionsFacts.

Import Pd Re Sessions.
Local Open Scope string_scope.
Local Open Scope Z_scope.

Lemma isin_In (s : string) (l : list string) : isin s l = true <-> In s l.
Proof.
  unfold isin. rewrite existsb_exists. split.
  - intros [x [Hin Heq]]. apply String.eqb_eq in Heq. now subst.
  - intros Hin. exists s. split; [exact Hin | apply String.eqb_refl].
Qed.

(** *** The cache of video records *)

Section Cache.

Variable abspath : string -> string.
Variable strptime : string -> string -> option Z.
Variable ffprobe : string -> string.

(** C9: when the cache names a file that is not among the video
    files given, [parse_video_filenames] raises ValueError before
    anything is printed and before ffprobe is run on any file. *)
Theorem unneeded_cache_entry_raises
    (video_filenames : list string) (verbose : bool)
    (cache : series video_record) (f : string) :
  In f (cache_filenames cache) ->
  ~ In f video_filenames ->
  parse_video_filenames abspath strptime ffprobe
    video_filenames verbose (Some cache) = ([], Raise ValueError).
Proof.
  intros Hin Hnot. unfold parse_video_filenames.
  assert (E : forallb (fun f => isin f video_filenames) (cache_filenames cache)
              = false).
  { apply not_true_is_false. intros Hall. rewrite forallb_forall in Hall.
    apply Hnot, isin_In, Hall, Hin. }
  rewrite E. reflexivity.
Qed.

(** C8 (what the code does): without a cache, the loop over the video
    files stops at the first file with AttributeError, because it
    looks the file up in the absent cache; nothing is probed.  Only an
    empty list of files goes through. *)
Theorem no_cache_raises_on_first_file
    (video_filename : string) (rest : list string) (verbose : bool) :
  parse_video_filenames abspath strptime ffprobe
    (video_filename :: rest) verbose None = ([], Raise AttributeError)
  /\ parse_video_filenames abspath strptime ffprobe
       [] verbose None = ([], Ok (Records [])).
Proof. split; reflexivity. Qed.

End Cache.

Lemma unneeded_cache_entry_raises_witness :
  parse_video_filenames DemoFiles.abspath DemoFiles.strptime DemoFiles.ffprobe
    [DemoFiles.video_L1] true
    (Some [(0, DemoFiles.hour_video DemoFiles.video_L1 "L1" (DemoFiles.at_time 12 0 0));
           (1, DemoFiles.hour_video DemoFiles.video_L2 "L2" (DemoFiles.at_time 12 0 0))])
  = ([], Raise ValueError).
Proof.
  apply (@unneeded_cache_entry_raises DemoFiles.abspath DemoFiles.strptime
           DemoFiles.ffprobe [DemoFiles.video_L1] true _ DemoFiles.video_L2).
  - simpl. right. left. reflexivity.
  - simpl. intros [H|[]]. discriminate.
Defined.

End SessionsFacts.

(** ** The session matcher *)

Module MatcherFacts.

Import Pd Sessions.
Local Open Scope Z_scope.

Lemma combine_map_same {A B C : Type} (f : A -> B) (g : A -> C) (l : list A) :
  combine (map f l) (map g l) = map (fun a => (f a, g a)) l.
Proof. induction l as [|a l IH]; simpl; [reflexivity | now rewrite IH]. Qed.

Lemma best_overlap_unfold (video_files_df : series video_record)
    (brow : behavior_record) :
  best_overlap video_files_df brow =
  bind (argmax Z.ltb (overlaps video_files_df brow)) (fun vidx_max_overlap =>
    match vidx_max_overlap with
    | None => Raise ValueError
    | Some vidx =>
        bind (overlap_at vidx (overlaps video_files_df brow)) (fun max_overlap =>
          match max_overlap with
          | None => Raise KeyError
          | Some ns =>
              if Qlt_bool 0 (Behavior.seconds ns) then
                Ok {| m_behavior := brow; best_video_index := vidx;
                      best_video_overlap := Behavior.seconds ns |}
              else
                Ok {| m_behavior := brow; best_video_index := -1;
                      best_video_overlap := 0 |}
          end)
    end).
Proof.
  unfold best_overlap, overlaps, same_rig.
  rewrite combine_map_same, map_map. reflexivity.
Qed.

Lemma lower_to_min (bound x : Z) : lower_to bound x = Z.min bound x.
Proof. unfold lower_to. destruct (x >? bound) eqn:H; lia. Qed.

Lemma raise_to_max (bound x : Z) : raise_to bound (Some x) = Some (Z.max bound x).
Proof. unfold raise_to. destruct (x <? bound) eqn:H; f_equal; lia. Qed.

Lemma row_overlap_known (brow : behavior_record) (v : video_record) (start_v : Z) :
  v_dt_start v = Some start_v ->
  row_overlap brow v = Some (overlap_ns brow (v_dt_end v) start_v).
Proof.
  intros H. unfold row_overlap, overlap_ns.
  rewrite H, raise_to_max, lower_to_min. reflexivity.
Qed.

Lemma row_overlap_missing (brow : behavior_record) (v : video_record) :
  v_dt_start v = None -> row_overlap brow v = None.
Proof. intros H. unfold row_overlap. rewrite H. reflexivity. Qed.

(** The rows of the overlap series are the candidates. *)
Lemma in_overlaps (video_files_df : series video_record) (brow : behavior_record)
    (l ov : Z) :
  In (l, Some ov) (overlaps video_files_df brow)
  <-> exists v, candidate video_files_df brow l v ov.
Proof.
  unfold overlaps, same_rig, candidate. rewrite in_map_iff. split.
  - intros [[l' v] [Heq Hin]]. simpl in Heq. injection Heq as -> Hov.
    apply filter_In in Hin as [Hin Hrig]. simpl in Hrig.
    apply String.eqb_eq in Hrig. exists v. split; [exact Hin|]. split; [exact Hrig|].
    destruct (v_dt_start v) as [s|] eqn:Hs.
    + exists s. split; [reflexivity|].
      rewrite (@row_overlap_known brow v _ Hs) in Hov. now injection Hov.
    + rewrite (@row_overlap_missing brow v Hs) in Hov. discriminate.
  - intros [v [Hin [Hrig [s [Hs ->]]]]]. exists (l, v). split.
    + simpl. now rewrite (@row_overlap_known brow v _ Hs).
    + apply filter_In. split; [exact Hin|]. simpl. now apply String.eqb_eq.
Qed.

Lemma index_overlaps (video_files_df : series video_record) (brow : behavior_record) :
  index (overlaps video_files_df brow) = index (same_rig video_files_df brow).
Proof. unfold overlaps, index. rewrite map_map. reflexivity. Qed.

Lemma NoDup_index_filter {A : Type} (p : Z * A -> bool) (s : series A) :
  NoDup (index s) -> NoDup (index (filter p s)).
Proof.
  unfold index. induction s as [|row s IH]; simpl; intros H; [constructor|].
  inversion H as [|x xs Hnot Hnd]; subst.
  destruct (p row); simpl; [|now apply IH].
  constructor; [|now apply IH].
  intros Hin. apply Hnot. apply in_map_iff in Hin as [row' [Heq Hin]].
  apply filter_In in Hin as [Hin _]. apply in_map_iff. now exists row'.
Qed.

(** With unique labels, looking a label up gives the value of its row. *)
Lemma overlap_at_In (s : series (option Z)) (l : Z) (v : option Z) :
  NoDup (index s) -> In (l, v) s -> overlap_at l s = Ok v.
Proof.
  unfold index. induction s as [|row s IH]; simpl; intros Hnd Hin; [contradiction|].
  inversion Hnd as [|x xs Hnot Hnd']; subst.
  destruct Hin as [-> | Hin].
  - simpl. now rewrite Z.eqb_refl.
  - destruct (fst row =? l) eqn:E.
    + apply Z.eqb_eq in E. exfalso. apply Hnot. rewrite E.
      apply in_map_iff. now exists (l, v).
    + now apply IH.
Qed.

(** [first_max] returns the running best or a row of the series, and
    nothing in the series or the running best is larger. *)
Lemma first_max_spec (s : series (option Z)) :
  forall best,
    match first_max Z.ltb best s with
    | None => best = None /\ forall l q, ~ In (l, Some q) s
    | Some (l, m) =>
        (best = Some (l, m) \/ In (l, Some m) s)
        /\ (forall l0 m0, best = Some (l0, m0) -> m0 <= m)
        /\ (forall l' q, In (l', Some q) s -> q <= m)
    end.
Proof.
  induction s as [|[l [q|]] s IH]; intros best; simpl.
  - destruct best as [[l m]|].
    + split; [now left|]. split.
      * intros l0 m0 H. injection H as _ <-. lia.
      * intros l' q [].
    + split; [reflexivity|]. intros l q [].
  - destruct best as [[l0 m0]|].
    + destruct (m0 <? q) eqn:E.
      * specialize (IH (Some (l, q))).
        destruct (first_max Z.ltb (Some (l, q)) s) as [[l1 m1]|].
        -- destruct IH as [Hsrc [Hbest Hall]].
           assert (q <= m1) by (apply (Hbest l q); reflexivity).
           apply Z.ltb_lt in E. split; [|split].
           ++ right. destruct Hsrc as [Hsrc|Hsrc].
              ** injection Hsrc as -> ->. now left.
              ** now right.
           ++ intros l2 m2 H2. injection H2 as _ <-. lia.
           ++ intros l' q' [Heq|Hin].
              ** injection Heq as _ <-. lia.
              ** now apply (Hall l').
        -- destruct IH as [IH _]. discriminate.
      * specialize (IH (Some (l0, m0))).
        destruct (first_max Z.ltb (Some (l0, m0)) s) as [[l1 m1]|].
        -- destruct IH as [Hsrc [Hbest Hall]].
           assert (m0 <= m1) by (apply (Hbest l0 m0); reflexivity).
           apply Z.ltb_ge in E. split; [|split].
           ++ destruct Hsrc as [Hsrc|Hsrc]; [now left | right; now right].
           ++ exact Hbest.
           ++ intros l' q' [Heq|Hin].
              ** injection Heq as _ <-. lia.
              ** now apply (Hall l').
        -- destruct IH as [IH _]. discriminate.
    + specialize (IH (Some (l, q))).
      destruct (first_max Z.ltb (Some (l, q)) s) as [[l1 m1]|].
      * destruct IH as [Hsrc [Hbest Hall]].
        assert (q <= m1) by (apply (Hbest l q); reflexivity).
        split; [|split].
        -- right. destruct Hsrc as [Hsrc|Hsrc].
           ++ injection Hsrc as -> ->. now left.
           ++ now right.
        -- intros l2 m2 H2. discriminate.
        -- intros l' q' [Heq|Hin].
           ++ injection Heq as _ <-. lia.
           ++ now apply (Hall l').
      * destruct IH as [IH _]. discriminate.
  - specialize (IH best).
    destruct (first_max Z.ltb best s) as [[l1 m1]|].
    + destruct IH as [Hsrc [Hbest Hall]]. split; [|split].
      * destruct Hsrc as [Hsrc|Hsrc]; [now left | right; now right].
      * exact Hbest.
      * intros l' q' [Heq|Hin]; [discriminate | now apply (Hall l')].
    + destruct IH as [Hb Hall]. split; [exact Hb|].
      intros l' q' [Heq|Hin]; [discriminate | now apply (Hall l' q')].
Qed.

(** The argmax of a series with a known value is the label of a row
    whose value is the largest. *)
Lemma argmax_spec (s : series (option Z)) (l0 q0 : Z) :
  In (l0, Some q0) s ->
  exists l m, argmax Z.ltb s = Ok (Some l)
              /\ In (l, Some m) s
              /\ forall l' q, In (l', Some q) s -> q <= m.
Proof.
  intros Hin. pose proof (first_max_spec s None) as H.
  unfold argmax. destruct s as [|row s]; [contradiction|].
  destruct (first_max Z.ltb None (row :: s)) as [[l m]|].
  - destruct H as [[Hsrc|Hsrc] [_ Hall]]; [discriminate|].
    exists l, m. repeat split; assumption.
  - destruct H as [_ Hnone]. exfalso. apply (Hnone l0 q0 Hin).
Qed.

Lemma seconds_positive (ns : Z) :
  Qlt_bool 0 (Behavior.seconds ns) = (0 <? ns).
Proof.
  unfold Qlt_bool, Behavior.seconds, Qle_bool. simpl.
  rewrite Z.mul_1_r. destruct (ns <=? 0) eqn:E; simpl; symmetry.
  - apply Z.ltb_ge. now apply Z.leb_le.
  - apply Z.ltb_lt. now apply Z.leb_gt.
Qed.

(** The loop body, for a behavior row with a candidate video. *)
Lemma best_overlap_spec (video_files_df : series video_record)
    (brow : behavior_record) :
  NoDup (index video_files_df) ->
  (exists l v ov, candidate video_files_df brow l v ov) ->
  exists m, best_overlap video_files_df brow = Ok m
            /\ best_match video_files_df brow m.
Proof.
  intros Hnd [l0 [v0 [ov0 Hc0]]].
  assert (Hin0 : In (l0, Some ov0) (overlaps video_files_df brow))
    by (apply in_overlaps; now exists v0).
  destruct (@argmax_spec _ _ _ Hin0) as [l [ov [Harg [Hin Hmax]]]].
  assert (Hnd' : NoDup (index (overlaps video_files_df brow))).
  { rewrite index_overlaps. now apply NoDup_index_filter. }
  rewrite best_overlap_unfold, Harg. simpl bind.
  rewrite (@overlap_at_In _ _ _ Hnd' Hin). simpl bind.
  rewrite seconds_positive.
  apply in_overlaps in Hin as [v Hc].
  assert (Hbest : forall l' v' ov', candidate video_files_df brow l' v' ov' -> ov' <= ov).
  { intros l' v' ov' Hc'. apply (Hmax l'). apply in_overlaps. now exists v'. }
  destruct (0 <? ov) eqn:E.
  - apply Z.ltb_lt in E. eexists. split; [reflexivity|].
    split; [reflexivity|]. exists l, v, ov. split; [exact Hc|]. split; [exact Hbest|].
    right. split; [exact E|]. split; reflexivity.
  - apply Z.ltb_ge in E. eexists. split; [reflexivity|].
    split; [reflexivity|]. exists l, v, ov. split; [exact Hc|]. split; [exact Hbest|].
    left. split; [exact E|]. split; reflexivity.
Qed.

(** The loop body, for a behavior row whose rig has no video. *)
Lemma best_overlap_no_video (video_files_df : series video_record)
    (brow : behavior_record) :
  (forall row, In row video_files_df -> v_rig (snd row) <> b_rig brow) ->
  best_overlap video_files_df brow = Raise ValueError.
Proof.
  intros H. rewrite best_overlap_unfold. unfold overlaps, same_rig.
  assert (E : filter (fun row => String.eqb (v_rig (snd row)) (b_rig brow))
                     video_files_df = []).
  { induction video_files_df as [|row s IH]; simpl; [reflexivity|].
    destruct (String.eqb (v_rig (snd row)) (b_rig brow)) eqn:Heq.
    - apply String.eqb_eq in Heq. exfalso. apply (H row); [now left | exact Heq].
    - apply IH. intros row' Hin. apply H. now right. }
  rewrite E. reflexivity.
Qed.

(** C2 (amended): when the video frame holds the video records as
    its rows, under unique labels, and every behavior row has a video
    of its rig with a known start, the matcher returns, for each
    behavior row in order and under the same label, that row with the
    index of a same-rig video of largest
    min(end_b, end_v) - max(start_b, start_v) and that overlap in
    seconds, or with index -1 and overlap 0 when the largest overlap is
    not positive.  Without the condition on the rows the claim fails:
    one row whose rig has no video with a start stops the loop for
    every row. *)
Theorem find_overlaps_best_match (behavior_files_df : series behavior_record)
    (video_files_df : video_frame) (video_rows : series video_record) :
  frame_rows video_files_df = Ok video_rows ->
  NoDup (index video_rows) ->
  (forall brow, In brow behavior_files_df ->
                exists l v ov, candidate video_rows (snd brow) l v ov) ->
  exists matched,
    find_overlaps behavior_files_df video_files_df = Ok matched
    /\ Forall2 (fun brow mrow =>
                  fst mrow = fst brow
                  /\ best_match video_rows (snd brow) (snd mrow))
               behavior_files_df matched.
Proof.
  intros Hrows Hnd Hcand.
  assert (Hloop : exists matched,
             mapM (fun row =>
                     bind (best_overlap video_rows (snd row)) (fun m => Ok (fst row, m)))
                  behavior_files_df = Ok matched
             /\ Forall2 (fun brow mrow =>
                           fst mrow = fst brow
                           /\ best_match video_rows (snd brow) (snd mrow))
                        behavior_files_df matched).
  { induction behavior_files_df as [|brow rest IH].
    - exists []. split; [reflexivity | constructor].
    - destruct (@best_overlap_spec video_rows (snd brow) Hnd (Hcand brow (or_introl eq_refl)))
        as [m [Hm Hbest]].
      destruct IH as [matched [Hrest Hall]].
      { intros b Hb. apply Hcand. now right. }
      exists ((fst brow, m) :: matched). split.
      + simpl. rewrite Hm. simpl. rewrite Hrest. reflexivity.
      + constructor; [split; [reflexivity | exact Hbest] | exact Hall]. }
  destruct Hloop as [matched [Hloop Hall]]. exists matched. split; [|exact Hall].
  unfold find_overlaps. destruct behavior_files_df as [|brow rest].
  - simpl in Hloop. now injection Hloop as <-.
  - rewrite Hrows. simpl bind. exact Hloop.
Qed.

End MatcherFacts.

(** ** The behavior file names *)

Module ParserFacts.

Import Pd Re Sessions SessionsFacts.
Local Open Scope string_scope.
Local Open Scope Z_scope.

Lemma in_combine_same_length {A B : Type} (rs : list B) :
  forall (ls : list A) (r : B),
    List.length ls = List.length rs -> In r rs -> exists l, In (l, r) (combine ls rs).
Proof.
  induction rs as [|r' rs IH]; intros [|l' ls] r Hlen Hin; simpl in *;
    try contradiction; try discriminate.
  destruct Hin as [->|Hin].
  - exists l'. now left.
  - destruct (IH ls r) as [l Hl]; [now injection Hlen | exact Hin|].
    exists l. now right.
Qed.

Lemma in_from_records {A : Type} (rec_l : list A) (r : A) :
  In r rec_l <-> exists l, In (l, r) (from_records rec_l).
Proof.
  unfold from_records. split.
  - apply in_combine_same_length. unfold range.
    now rewrite length_map, length_seq, Nat2Z.id.
  - intros [l Hin]. now apply in_combine_r in Hin.
Qed.

Section Clean.

Variable abspath : string -> string.
Variable get_file_time : string -> Z.
Variable strptime : string -> string -> option Z.

Lemma behavior_rec_l_cons (filename : string) (rest : list string) :
  behavior_rec_l abspath get_file_time strptime (filename :: rest) =
  match re_match behavior_pattern (abspath filename) with
  | Some [dir; rig; date_s; mouse] =>
      match strptime date_s "%Y%m%d%H%M%S" with
      | None => Raise ValueError
      | Some date =>
          bind (behavior_rec_l abspath get_file_time strptime rest) (fun rec_l =>
            Ok ({| b_dir := dir; b_rig := rig; b_mouse := mouse;
                   b_dt_start := date; b_dt_end := get_file_time filename;
                   b_duration := get_file_time filename - date;
                   b_filename := filename |} :: rec_l))
      end
  | _ => behavior_rec_l abspath get_file_time strptime rest
  end.
Proof. reflexivity. Qed.

Lemma behavior_rec_l_spec (all_behavior_files : list string) :
  stamps_parse abspath strptime all_behavior_files ->
  exists rec_l,
    behavior_rec_l abspath get_file_time strptime all_behavior_files = Ok rec_l
    /\ forall r, In r rec_l <->
                 exists f, In f all_behavior_files
                   /\ parsed abspath get_file_time strptime f r.
Proof.
  induction all_behavior_files as [|f files IH]; intros Hparse.
  - exists []. split; [reflexivity|]. intros r. split; [intros [] | intros [f [[] _]]].
  - destruct IH as [rec_l [Hrec Hin]].
    { intros f' d r ds m Hf'. apply Hparse. now right. }
    rewrite behavior_rec_l_cons.
    destruct (re_match behavior_pattern (abspath f))
      as [[|d [|rg [|ds [|m [|x tl]]]]]|] eqn:Hm;
      try (exists rec_l; split; [exact Hrec|]; intros r; rewrite Hin; split;
           [ intros [f' [Hf' Hp]]; exists f'; split; [now right | exact Hp]
           | intros [f' [[<-|Hf'] Hp]];
             [ destruct Hp as (d' & r' & ds' & m' & date & Hm' & _);
               rewrite Hm in Hm'; discriminate
             | exists f'; split; assumption ] ]).
    destruct (strptime ds "%Y%m%d%H%M%S") as [date|] eqn:Hd.
    + rewrite Hrec. simpl bind. eexists. split; [reflexivity|].
      intros r. simpl In. rewrite Hin. split.
      * intros [<-|[f' [Hf' Hp]]].
        -- exists f. split; [now left|]. exists d, rg, ds, m, date. auto.
        -- exists f'. split; [now right | exact Hp].
      * intros [f' [[<-|Hf'] Hp]].
        -- left. destruct Hp as (d' & r' & ds' & m' & date' & Hm' & Hd' & ->).
           rewrite Hm in Hm'. injection Hm' as <- <- <- <-.
           rewrite Hd in Hd'. injection Hd' as <-. reflexivity.
        -- right. exists f'. split; assumption.
    + exfalso. apply (Hparse f d rg ds m); [now left | exact Hm | exact Hd].
Qed.

(** The rows of the cleaned frame. *)
Lemma in_cleaned (rec_l : list behavior_record) (row : Z * behavior_record) :
  In row
     (filter (fun row => isin (b_mouse (snd row)) mice)
        (map (fun row => (fst row, set_mouse (replace aliases (b_mouse (snd row)))
                                     (snd row)))
           (map (fun row => (fst row, set_mouse (upper (b_mouse (snd row)))
                                        (snd row)))
              (from_records rec_l))))
  <-> exists l r, In (l, r) (from_records rec_l)
                  /\ row = (l, set_mouse (clean_name (b_mouse r)) r)
                  /\ isin (clean_name (b_mouse r)) mice = true.
Proof.
  rewrite filter_In, map_map, in_map_iff. split.
  - intros [[[l r] [<- Hin]] Hk]. exists l, r. simpl in *. auto.
  - intros [l [r [Hin [-> Hk]]]]. split; [|exact Hk]. exists (l, r). auto.
Qed.

(** C7 (amended): with [clean=True], when the time stamp of every
    matching file parses, the record of a matching file is in the
    frame returned exactly when its mouse name, upcased and then
    passed through the alias table, is one of the names in the list
    of mice; a record that is kept carries that cleaned name.  In
    particular kf13a is upcased to KF13A, which the alias table maps
    to KF13, a name in the list.  Without the condition on the
    stamps the claim fails: one matching file with a stamp that does
    not parse makes the parser raise, and no record is kept. *)
Theorem clean_keeps_exactly_known_mice
    (all_behavior_files : list string) (f dir rig date_s mouse : string) :
  stamps_parse abspath strptime all_behavior_files ->
  In f all_behavior_files ->
  re_match behavior_pattern (abspath f) = Some [dir; rig; date_s; mouse] ->
  exists printed behavior_files_df,
    parse_behavior_filenames abspath get_file_time strptime
      all_behavior_files true = (printed, Ok behavior_files_df)
    /\ ((exists row, In row behavior_files_df /\ b_filename (snd row) = f)
        <-> In (clean_name mouse) mice)
    /\ (forall row, In row behavior_files_df -> b_filename (snd row) = f ->
                    b_mouse (snd row) = replace aliases (upper mouse)
                    /\ b_rig (snd row) = rig /\ b_dir (snd row) = dir)
    /\ (upper "kf13a" = "KF13A" /\ replace aliases "KF13A" = "KF13"
        /\ In "KF13" mice).
Proof.
  intros Hparse Hf Hm.
  destruct (behavior_rec_l_spec Hparse) as [rec_l [Hrec Hin]].
  destruct (strptime date_s "%Y%m%d%H%M%S") as [date|] eqn:Hd;
    [|exfalso; apply (Hparse f dir rig date_s mouse); assumption].
  set (r0 := {| b_dir := dir; b_rig := rig; b_mouse := mouse;
                b_dt_start := date; b_dt_end := get_file_time f;
                b_duration := get_file_time f - date; b_filename := f |}).
  assert (Hr0 : In r0 rec_l).
  { apply Hin. exists f. split; [exact Hf|]. exists dir, rig, date_s, mouse, date. auto. }
  assert (Hsame : forall r, In r rec_l -> b_filename r = f -> r = r0).
  { intros r Hr Hname. apply Hin in Hr as [f' [_ Hp]].
    destruct Hp as (d' & r' & ds' & m' & date' & Hm' & Hd' & ->).
    simpl in Hname. subst f'. rewrite Hm in Hm'. injection Hm' as <- <- <- <-.
    rewrite Hd in Hd'. injection Hd' as <-. reflexivity. }
  unfold parse_behavior_filenames. rewrite Hrec. unfold lift, io_bind.
  destruct (List.length (from_records rec_l) =? 0)%nat eqn:Hlen.
  { exfalso. apply Nat.eqb_eq in Hlen. apply length_zero_iff_nil in Hlen.
    apply in_from_records in Hr0 as [l Hl]. rewrite Hlen in Hl. exact Hl. }
  eexists. eexists. split; [reflexivity|]. split; [|split].
  - rewrite <- isin_In. split.
    + intros [row [Hrow Hname]]. apply in_cleaned in Hrow as [l [r [Hl [-> Hk]]]].
      simpl in Hname. apply in_combine_r in Hl.
      rewrite (Hsame r Hl Hname) in Hk. exact Hk.
    + intros Hk. apply in_from_records in Hr0 as [l Hl].
      exists (l, set_mouse (clean_name (b_mouse r0)) r0). split; [|reflexivity].
      apply in_cleaned. exists l, r0. auto.
  - intros row Hrow Hname. apply in_cleaned in Hrow as [l [r [Hl [-> Hk]]]].
    simpl in Hname. apply in_combine_r in Hl. rewrite (Hsame r Hl Hname).
    simpl. auto.
  - split; [reflexivity|]. split; [reflexivity|].
    apply isin_In. reflexivity.
Qed.

End Clean.

End ParserFacts.

(** ** The scenarios *)

Module Scenarios.

Import Pd Re Sessions DemoFiles.
Local Open Scope string_scope.
Local Open Scope Z_scope.

Lemma demo_stamps_parse (files : list string) :
  (forall f, In f files -> f = behavior_L1 \/ f = behavior_alias \/ f = behavior_typo) ->
  stamps_parse abspath strptime files.
Proof.
  intros Hfiles f dir rig date_s mouse Hf Hm.
  destruct (Hfiles f Hf) as [ -> | [ -> | -> ] ];
    vm_compute in Hm; injection Hm as <- <- <- <-; discriminate.
Qed.

Lemma clean_keeps_exactly_known_mice_witness :
  exists printed behavior_files_df,
    parse_behavior_filenames abspath get_file_time strptime
      [behavior_L1; behavior_typo; behavior_alias] true
    = (printed, Ok behavior_files_df)
    /\ ((exists row, In row behavior_files_df /\ b_filename (snd row) = behavior_alias)
        <-> In (clean_name "kf13a") mice)
    /\ (forall row, In row behavior_files_df -> b_filename (snd row) = behavior_alias ->
                    b_mouse (snd row) = replace aliases (upper "kf13a")
                    /\ b_rig (snd row) = "L1" /\ b_dir (snd row) = "/data/runmice")
    /\ (upper "kf13a" = "KF13A" /\ replace aliases "KF13A" = "KF13"
        /\ In "KF13" mice).
Proof.
  apply (@ParserFacts.clean_keeps_exactly_known_mice abspath get_file_time strptime
           [behavior_L1; behavior_typo; behavior_alias] behavior_alias
           "/data/runmice" "L1" "20190101120500" "kf13a").
  - apply demo_stamps_parse. simpl. intuition.
  - simpl. intuition.
  - vm_compute. reflexivity.
Defined.

(** The file of kf13a matches the pattern and its cleaned name, KF13,
    is in the list of mice; listed with a matching file whose stamp
    does not parse, its record is not kept: the parser raises
    ValueError and returns no frame. *)
Lemma known_mouse_lost_to_bad_stamp :
  re_match behavior_pattern (abspath behavior_alias)
  = Some ["/data/runmice"; "L1"; "20190101120500"; "kf13a"]
  /\ In (clean_name "kf13a") mice
  /\ parse_behavior_filenames abspath get_file_time strptime
       [behavior_alias; behavior_bad_stamp] true
     = ([], Raise ValueError)
  /\ ~ exists printed behavior_files_df,
        parse_behavior_filenames abspath get_file_time strptime
          [behavior_alias; behavior_bad_stamp] true
        = (printed, Ok behavior_files_df)
        /\ exists row, In row behavior_files_df
                       /\ b_filename (snd row) = behavior_alias.
Proof.
  assert (E : parse_behavior_filenames abspath get_file_time strptime
                [behavior_alias; behavior_bad_stamp] true
              = ([], Raise ValueError)) by (vm_compute; reflexivity).
  split; [vm_compute; reflexivity|].
  split; [vm_compute; auto 10|].
  split; [exact E|].
  intros [printed [df [H _]]]. rewrite E in H. discriminate.
Qed.

(** Scenario 2 run through the parser: the file of kf13a is kept under
    the name KF13 and the misspelt kf31 is dropped. *)
Example scenario_alias :
  parse_behavior_filenames abspath get_file_time strptime
    [behavior_typo; behavior_alias] true
  = ([], Ok [(1, {| b_dir := "/data/runmice"; b_rig := "L1"; b_mouse := "KF13";
                    b_dt_start := at_time 12 5 0; b_dt_end := at_time 13 5 0;
                    b_duration := at_time 1 0 0; b_filename := behavior_alias |})]).
Proof. vm_compute. reflexivity. Qed.

Lemma find_overlaps_best_match_witness :
  exists matched,
    find_overlaps [(0, session behavior_L1 "L1")] (Records videos_three) = Ok matched
    /\ Forall2 (fun brow mrow =>
                  fst mrow = fst brow
                  /\ best_match (from_records videos_three) (snd brow) (snd mrow))
               [(0, session behavior_L1 "L1")] matched.
Proof.
  apply (@MatcherFacts.find_overlaps_best_match
           [(0, session behavior_L1 "L1")] (Records videos_three)
           (from_records videos_three)).
  - reflexivity.
  - vm_compute. repeat constructor; simpl; intuition discriminate.
  - intros brow [ <- | [] ].
    exists 0, (hour_video video_L1 "L1" (at_time 12 0 0)), (-300000000000).
    split; [now left|]. split; [reflexivity|].
    exists (at_time 11 0 0). split; reflexivity.
Defined.

(** With the video of the rig that ends at 13:00:00 the session of
    12:05:00 to 13:05:00 is matched to it with 3300 s of overlap. *)
Example scenario_match :
  find_overlaps [(0, session behavior_L1 "L1")] (Records videos_three)
  = Ok [(0, {| m_behavior := session behavior_L1 "L1"; best_video_index := 2;
               best_video_overlap := Behavior.seconds (at_time 0 55 0) |})].
Proof. vm_compute. reflexivity. Qed.

(** Scenario 1 as the spec words it: the videos are stamped 12:00:00,
    so they end when the session is about to start; the overlap is
    -300 s and the session is left unmatched. *)
Example scenario_noon_videos :
  find_overlaps [(0, session behavior_L1 "L1")] (Records videos_noon)
  = Ok [(0, {| m_behavior := session behavior_L1 "L1"; best_video_index := -1;
               best_video_overlap := 0 |})].
Proof. vm_compute. reflexivity. Qed.

(** The session of rig L1 has a video of its rig that overlaps it by
    3300 s, and alone it is matched to that video; listed with a
    session of rig L3, which has no video, it is not annotated: the
    loop raises ValueError and returns no row.  The same happens when
    the only video of its rig has no start. *)
Lemma session_with_video_not_annotated :
  (exists l v ov,
      candidate (from_records videos_three) (session behavior_L1 "L1") l v ov
      /\ 0 < ov)
  /\ find_overlaps [(0, session behavior_L1 "L1"); (1, session behavior_L3 "L3")]
       (Records videos_three)
     = Raise ValueError
  /\ find_overlaps [(0, session behavior_L1 "L1")] (Records videos_broken_L1)
     = Raise ValueError
  /\ ~ exists matched,
        find_overlaps [(0, session behavior_L1 "L1"); (1, session behavior_L3 "L3")]
          (Records videos_three)
        = Ok matched.
Proof.
  assert (E : find_overlaps
                [(0, session behavior_L1 "L1"); (1, session behavior_L3 "L3")]
                (Records videos_three)
              = Raise ValueError) by (vm_compute; reflexivity).
  split.
  - exists 2, (hour_video video_L1_late "L1" (at_time 13 0 0)), (at_time 0 55 0).
    split; [|reflexivity].
    split; [right; right; now left|]. split; [reflexivity|].
    exists (at_time 12 0 0). split; reflexivity.
  - split; [exact E|]. split; [vm_compute; reflexivity|].
    intros [matched H]. rewrite E in H. discriminate.
Qed.

(** C3 (what the code does): a session of rig L3, when the only
    videos are of L1 and L2, makes the matcher raise ValueError: the
    overlap series of the rig is empty and its argmax is refused. *)
Theorem rig_without_video_raises :
  find_overlaps [(0, session behavior_L3 "L3")] (Records videos_noon)
  = Raise ValueError.
Proof. vm_compute. reflexivity. Qed.

(** The scenario videos without a cache: nothing is probed. *)
Example scenario_no_cache :
  parse_video_filenames abspath strptime ffprobe [video_L1; video_L2] true None
  = ([], Raise AttributeError).
Proof. reflexivity. Qed.

End Scenarios.

(** ** Choosing the test times *)

Module TestTimesFacts.

Import Np Pd Behavior MaskFacts AlignerFacts.
Local Open Scope Q_scope.

Lemma mapM_raise_head {A B : Type} (f : A -> result B) (a : A) (l : list A) (e : exn) :
  f a = Raise e -> mapM f (a :: l) = Raise e.
Proof. intros H. simpl. now rewrite H. Qed.

Lemma index_combine {A : Type} (ls : list Z) :
  forall vs : list A, List.length ls = List.length vs -> index (combine ls vs) = ls.
Proof.
  unfold index. induction ls as [|l ls IH]; intros [|v vs] H; simpl in *;
    try discriminate; [reflexivity|].
  f_equal. apply IH. now injection H.
Qed.

Lemma index_shift_up (s : fseries) : index (shift_up s) = index s.
Proof.
  unfold shift_up. destruct s as [|row s]; [reflexivity|].
  apply index_combine. unfold index, values.
  simpl. rewrite length_app, !length_map. simpl. lia.
Qed.

Lemma index_diff_from (s : fseries) : forall prev, index (diff_from prev s) = index s.
Proof.
  unfold index. induction s as [|[l v] s IH]; intros prev; simpl; [reflexivity|].
  now rewrite IH.
Qed.

Lemma index_gaps (s : fseries) : index (shift_up (diff s)) = index s.
Proof. rewrite index_shift_up. apply index_diff_from. Qed.

Lemma drop_until_incl {A : Type} (a : Z) (s : series A) :
  incl (drop_until a s) s.
Proof.
  induction s as [|row s IH]; simpl; [apply incl_refl|].
  destruct (fst row =? a)%Z; [apply incl_refl | now apply incl_tl].
Qed.

Lemma take_through_incl {A : Type} (b : Z) (s : series A) :
  incl (take_through b s) s.
Proof.
  induction s as [|row s IH]; simpl; [apply incl_refl|].
  destruct (fst row =? b)%Z.
  - intros x [<-|[]]. now left.
  - intros x [<-|Hx]; [now left | right; now apply IH].
Qed.

Lemma drop_until_found {A : Type} (a : Z) (s : series A) :
  In a (index s) -> drop_until a s <> [].
Proof.
  unfold index. induction s as [|row s IH]; simpl; intros H; [contradiction|].
  destruct (fst row =? a)%Z eqn:E; [discriminate|].
  destruct H as [H|H]; [apply Z.eqb_neq in E; contradiction | now apply IH].
Qed.

Lemma take_through_nonempty {A : Type} (b : Z) (s : series A) :
  s <> [] -> take_through b s <> [].
Proof.
  destruct s as [|row s]; [contradiction|]. intros _. simpl.
  destruct (fst row =? b)%Z; discriminate.
Qed.

Lemma label_slice_rows (a b : Z) (s : fseries) :
  In a (index s) ->
  label_slice a b s <> [] /\ incl (label_slice a b s) s.
Proof.
  intros Ha. unfold label_slice. split.
  - apply take_through_nonempty. now apply drop_until_found.
  - eapply incl_tran; [apply take_through_incl | apply drop_until_incl].
Qed.

(** The label [first_max] returns is the running best or a label of
    the series. *)
Lemma first_max_label {A : Type} (ltb : A -> A -> bool) (s : series (option A)) :
  forall best l m,
    first_max ltb best s = Some (l, m) ->
    best = Some (l, m) \/ In l (index s).
Proof.
  unfold index. induction s as [|[l0 [q|]] s IH]; intros best l m H; simpl in *.
  - now left.
  - destruct best as [[lb mb]|].
    + destruct (ltb mb q).
      * apply IH in H as [H|H]; [injection H as <- _; right; now left | right; now right].
      * apply IH in H as [H|H]; [now left | right; now right].
    + apply IH in H as [H|H]; [injection H as <- _; right; now left | right; now right].
  - apply IH in H as [H|H]; [now left | right; now right].
Qed.

Lemma argmax_gaps (subser : fseries) :
  subser <> [] ->
  exists ol, argmax Qlt_bool (shift_up (diff subser)) = Ok ol
             /\ match ol with
                | Some l => In l (index subser)
                | None => True
                end.
Proof.
  intros Hne. pose proof (index_gaps subser) as Hidx.
  unfold argmax. destruct (shift_up (diff subser)) as [|row s] eqn:E.
  - destruct subser; [contradiction | discriminate].
  - eexists. split; [reflexivity|].
    destruct (first_max Qlt_bool None (row :: s)) as [[l m]|] eqn:Hm; simpl; [|exact I].
    apply first_max_label in Hm as [Hm|Hm]; [discriminate|]. now rewrite <- Hidx.
Qed.

Lemma index_at_In {A : Type} (s : series A) (k : nat) :
  (k < List.length s)%nat ->
  index_at s k = Ok (nth k (index s) 0%Z) /\ In (nth k (index s) 0%Z) (index s).
Proof.
  intros Hk. unfold index_at.
  assert (Hlen : (k < List.length (index s))%nat)
    by (unfold index; now rewrite length_map).
  rewrite (nth_error_nth' _ 0%Z Hlen). split; [reflexivity | now apply nth_In].
Qed.

Lemma index_last_In {A : Type} (s : series A) :
  s <> [] -> exists l, index_last s = Ok l /\ In l (index s).
Proof.
  intros Hne. unfold index_last.
  destruct (rev (index s)) as [|l r] eqn:E.
  - apply (f_equal (@List.length Z)) in E. rewrite length_rev in E.
    unfold index in E. rewrite length_map in E.
    destruct s; [contradiction | discriminate].
  - exists l. split; [reflexivity|]. apply in_rev. rewrite E. now left.
Qed.

Lemma cut_position (n ncut N : Z) :
  (0 < n)%Z -> (0 <= ncut < N)%Z -> (0 <= n * ncut / N < n)%Z.
Proof.
  intros Hn Hc. split.
  - apply Z.div_pos; nia.
  - apply Z.div_lt_upper_bound; nia.
Qed.

Lemma in_range (k n : Z) : In k (range n) -> (0 <= k < n)%Z.
Proof.
  unfold range. intros H. apply in_map_iff in H as [i [<- Hi]].
  apply in_seq in Hi. lia.
Qed.

(* The two outcomes of the cuts: shared by the theorems below. *)
Lemma index_of_biggest_diffs_outcome (ser : fseries) (ncuts_total : Z) :
  match index_of_biggest_diffs_across_arr ser ncuts_total with
  | Raise e => e = IndexError /\ dropna ser = []
  | Ok idxs =>
      dropna ser <> []
      /\ List.length idxs = Z.to_nat ncuts_total
      /\ Forall (fun ol => match ol with
                           | Some l => In l (index (dropna ser))
                           | None => True
                           end) idxs
  end.
Proof.
  unfold index_of_biggest_diffs_across_arr.
  set (s := dropna ser). destruct s as [|row0 s0] eqn:Es.
  - (* nothing valid *)
    unfold bind. destruct (range ncuts_total) as [|k ks]; simpl; auto.
  - assert (Hne : s <> []) by (rewrite Es; discriminate).
    rewrite <- Es.
    set (cut := fun ncut : Z =>
                  nth (Z.to_nat (Z.of_nat (List.length s) * ncut / ncuts_total))
                      (index s) 0%Z).
    assert (Hcuts : mapM (fun ncut =>
                            index_at s (Z.to_nat (Z.of_nat (List.length s) * ncut
                                                  / ncuts_total)))
                         (range ncuts_total)
                    = Ok (map cut (range ncuts_total))
                    /\ forall ncut, In ncut (range ncuts_total) -> In (cut ncut) (index s)).
    { assert (Hpos : (0 < Z.of_nat (List.length s))%Z)
        by (rewrite Es; simpl; lia).
      assert (Hk : forall ncut, In ncut (range ncuts_total) ->
                     (Z.to_nat (Z.of_nat (List.length s) * ncut / ncuts_total)
                      < List.length s)%nat).
      { intros ncut Hin. apply in_range in Hin.
        pose proof (cut_position Hpos Hin). lia. }
      split.
      - apply mapM_ok. intros ncut Hin. now apply index_at_In, Hk.
      - intros ncut Hin. now apply index_at_In, Hk. }
    destruct Hcuts as [Hcuts Hcin]. rewrite Hcuts. simpl bind.
    destruct (index_last_In Hne) as [lastl [Hlast Hlin]]. rewrite Hlast. simpl bind.
    set (cuts := map cut (range ncuts_total) ++ [lastl]).
    assert (Hall : forall l, In l cuts -> In l (index s)).
    { intros l Hl. apply in_app_or in Hl as [Hl|[<-|[]]]; [|exact Hlin].
      apply in_map_iff in Hl as [ncut [<- Hn]]. now apply Hcin. }
    assert (Hlen : (List.length cuts - 1 = Z.to_nat ncuts_total)%nat).
    { unfold cuts. rewrite length_app, length_map, length_range. simpl. lia. }
    rewrite Hlen.
    assert (Hloop : forall ks, (forall k, In k ks -> (k < List.length cuts)%nat) ->
               exists idxs,
                 mapM (fun ncut =>
                         argmax Qlt_bool
                           (shift_up (diff (label_slice (nth ncut cuts 0%Z)
                                              (nth (ncut + 1) cuts 0%Z) s))))
                      ks = Ok idxs
                 /\ List.length idxs = List.length ks
                 /\ Forall (fun ol => match ol with
                                      | Some l => In l (index s)
                                      | None => True
                                      end) idxs).
    { induction ks as [|k ks IH]; intros Hks.
      - exists []. repeat split. constructor.
      - destruct IH as [idxs [Hm [Hl Hf]]]; [intros; apply Hks; now right|].
        assert (Ha : In (nth k cuts 0%Z) (index s))
          by (apply Hall, nth_In, Hks; now left).
        destruct (@label_slice_rows _ (nth (k + 1) cuts 0%Z) _ Ha) as [Hsne Hsub].
        destruct (argmax_gaps Hsne) as [ol [Harg Hol]].
        exists (ol :: idxs). simpl. rewrite Harg, Hm. repeat split.
        + simpl. now rewrite Hl.
        + constructor; [|exact Hf]. destruct ol as [l|]; [|exact I].
          unfold index in *. apply in_map_iff in Hol as [row [<- Hrow]].
          apply in_map. now apply Hsub. }
    destruct (Hloop (seq 0 (Z.to_nat ncuts_total))) as [idxs [Hm [Hl Hf]]].
    { intros k Hk. apply in_seq in Hk. lia. }
    fold cuts. rewrite Hm. split; [exact Hne|]. split; [|exact Hf].
    now rewrite Hl, length_seq.
Qed.

(** X1: [index_of_biggest_diffs_across_arr] raises only IndexError,
    and exactly when the series has no entry that is a number.
    Otherwise it returns one entry per cut, and each label it returns
    is the label of an entry that is a number. *)
Theorem index_of_biggest_diffs_total (ser : fseries) (ncuts_total : Z) :
  match index_of_biggest_diffs_across_arr ser ncuts_total with
  | Raise e => e = IndexError /\ dropna ser = []
  | Ok idxs =>
      dropna ser <> []
      /\ List.length idxs = Z.to_nat ncuts_total
      /\ Forall (fun ol => match ol with
                           | Some l => In l (index (dropna ser))
                           | None => True
                           end) idxs
  end.
Proof. exact (index_of_biggest_diffs_outcome ser ncuts_total). Qed.

Lemma mask_row_idempotent (end_time buffer : Q) (row : Z * option Q) :
  mask_row end_time buffer (mask_row end_time buffer row)
  = mask_row end_time buffer row.
Proof.
  destruct row as [l [q|]]; unfold mask_row; simpl; [|reflexivity].
  destruct (Qlt_bool q buffer) eqn:H1; simpl; [reflexivity|].
  destruct (Qlt_bool (end_time - buffer) q) eqn:H2; simpl; [reflexivity|].
  now rewrite H1, H2.
Qed.

(** X2: masking a series that is already masked, with the same end
    time and buffer, changes nothing. *)
Theorem mask_by_buffer_from_end_idempotent (ser : fseries) (end_time buffer : Q) :
  mask_by_buffer_from_end (mask_by_buffer_from_end ser end_time buffer)
    end_time buffer
  = mask_by_buffer_from_end ser end_time buffer.
Proof.
  rewrite !mask_by_buffer_from_end_rows, map_map.
  apply map_ext. intros row. apply mask_row_idempotent.
Qed.

Lemma mask_row_within (end_time buffer : Q) (row : Z * option Q) :
  nan_or_within buffer (end_time - buffer) (snd (mask_row end_time buffer row)).
Proof.
  destruct row as [l [q|]]; unfold mask_row; simpl; [|exact I].
  destruct (Qlt_bool q buffer) eqn:H1; simpl; [exact I|].
  destruct (Qlt_bool (end_time - buffer) q) eqn:H2; simpl; [exact I|].
  split; now apply Qlt_bool_false.
Qed.

Lemma value_at_row (l : Z) (s : fseries) :
  value_at l s = None \/ exists row, In row s /\ snd row = value_at l s.
Proof.
  induction s as [|row s IH]; simpl; [now left|].
  destruct (fst row =? l)%Z.
  - right. exists row. split; [now left | reflexivity].
  - destruct IH as [IH|[row' [Hin Heq]]]; [now left|].
    right. exists row'. split; [now right | exact Heq].
Qed.

Lemma take_labels_within (lo hi : Q) (labels : list (option Z)) (s : fseries) :
  Forall (fun row => nan_or_within lo hi (snd row)) s ->
  Forall (nan_or_within lo hi) (take_labels labels s).
Proof.
  intros Hs. unfold take_labels. apply Forall_map, Forall_forall.
  intros [l|] _; [|exact I].
  destruct (value_at_row l s) as [E|[row [Hin E]]].
  - rewrite E. exact I.
  - rewrite <- E. rewrite Forall_forall in Hs. now apply Hs.
Qed.

Lemma shift_up_within (lo hi : Q) (s : fseries) :
  Forall (fun row => nan_or_within lo hi (snd row)) s ->
  Forall (fun row => nan_or_within lo hi (snd row)) (shift_up s).
Proof.
  intros Hs. apply Forall_forall. intros [l v] Hin. simpl.
  unfold shift_up in Hin. apply in_combine_r in Hin.
  apply in_app_or in Hin as [Hin|[<-|[]]]; [|exact I].
  assert (Hv : In v (values s)).
  { unfold values in *. destruct (map snd s); [contradiction | now right]. }
  unfold values in Hv. apply in_map_iff in Hv as [row [<- Hrow]].
  rewrite Forall_forall in Hs. now apply Hs.
Qed.

(** X3: [generate_test_times_for_user] raises only IndexError, and
    exactly when masking leaves no time that is a number.  Otherwise it
    returns N test times and N next times, and each of them is NaN or
    lies between [buffer] and [max_time - buffer]. *)
Theorem generate_test_times_total (times : fseries) (max_time : Q)
    (initial_guess : list Q) (N : Z) (buffer : Q) :
  let masked :=
    mask_by_buffer_from_end (map_values (polyval_f initial_guess) times)
      max_time buffer in
  match generate_test_times_for_user times max_time initial_guess N buffer with
  | Raise e => e = IndexError /\ dropna masked = []
  | Ok (test_times, test_next_times) =>
      dropna masked <> []
      /\ List.length test_times = Z.to_nat N
      /\ List.length test_next_times = Z.to_nat N
      /\ Forall (nan_or_within buffer (max_time - buffer)) test_times
      /\ Forall (nan_or_within buffer (max_time - buffer)) test_next_times
  end.
Proof.
  intros masked. unfold generate_test_times_for_user. fold masked.
  pose proof (index_of_biggest_diffs_outcome masked N) as H.
  unfold bind.
  destruct (index_of_biggest_diffs_across_arr masked N) as [idxs|e]; [|exact H].
  destruct H as [Hne [Hlen _]].
  assert (Hm : Forall (fun row => nan_or_within buffer (max_time - buffer) (snd row))
                      masked).
  { unfold masked. rewrite mask_by_buffer_from_end_rows.
    apply Forall_map, Forall_forall. intros row _. apply mask_row_within. }
  split; [exact Hne|]. rewrite !take_labels_length.
  split; [exact Hlen|]. split; [exact Hlen|]. split.
  - now apply take_labels_within.
  - now apply take_labels_within, shift_up_within.
Qed.

Section Sync.

Variable servo_retract_times : string -> fseries.
Variable lstsq_line : list Q -> list Q -> Q * Q.

Lemma print_loop_nan (md : metadata) (pre_time : Z) (xs : list Q)
    (rest : list (option Q)) :
  forall nexts,
    (List.length xs < List.length nexts)%nat ->
    io_iter (fun tn : option Q * option Q =>
               match fst tn with
               | None => throw ValueError
               | Some test_time =>
                   emit (PrintMplayer (int test_time - pre_time)%Z
                           (filename_video md) test_time (snd tn))
               end)
            (combine (map Some xs ++ None :: rest) nexts)
    = (mplayer_lines md pre_time xs nexts, Raise ValueError).
Proof.
  unfold mplayer_lines.
  induction xs as [|x xs IH]; intros [|n nexts] Hlen; simpl in *; try lia.
  - reflexivity.
  - rewrite IH by lia. reflexivity.
Qed.

(** X4: when one of the chosen test times is NaN, the function
    raises ValueError (from [int]), whatever the user results are,
    after printing the commands of the test times before it. *)
Theorem nan_test_time_raises md user_results guess N pre_time xs rest nexts :
  chosen_test_times servo_retract_times md guess N
  = Ok (map Some xs ++ None :: rest, nexts) ->
  generate_mplayer_guesses_and_sync servo_retract_times lstsq_line md
    user_results guess N pre_time
  = (mplayer_lines md pre_time xs nexts, Raise ValueError).
Proof.
  intros H. rewrite sync_unfold, H. unfold lift, io_bind. simpl fst; simpl snd.
  apply generate_test_times_length in H as [H1 H2].
  rewrite length_app, length_map in H1. simpl in H1.
  rewrite print_loop_nan by lia. reflexivity.
Qed.

(** X5: without user results the function prints one mplayer command
    per test time, N in all, each seeking to the whole seconds of the
    test time less [pre_time], and returns. *)
Theorem no_user_results_prints_commands md guess N pre_time xs nexts :
  chosen_test_times servo_retract_times md guess N = Ok (map Some xs, nexts) ->
  generate_mplayer_guesses_and_sync servo_retract_times lstsq_line md
    None guess N pre_time
  = (mplayer_lines md pre_time xs nexts, Ok tt)
  /\ List.length (mplayer_lines md pre_time xs nexts) = Z.to_nat N
  /\ forall i x,
      nth_error xs i = Some x ->
      exists next,
        nth_error (mplayer_lines md pre_time xs nexts) i
        = Some (PrintMplayer (int x - pre_time)%Z (filename_video md) x next).
Proof.
  intros H. split; [now apply sync_without_results|].
  apply generate_test_times_length in H as [H1 H2]. rewrite length_map in H1.
  unfold mplayer_lines. split.
  - rewrite length_map, length_combine. lia.
  - intros i x Hx.
    destruct (nth_error nexts i) as [next|] eqn:Hn.
    + exists next. rewrite nth_error_map.
      assert (E : nth_error (combine xs nexts) i = Some (x, next)).
      { clear - Hx Hn. revert xs nexts Hx Hn.
        induction i as [|i IH]; intros [|x' xs] [|n' nexts] Hx Hn;
          simpl in *; try discriminate.
        - now injection Hx as ->; injection Hn as ->.
        - now apply IH. }
      rewrite E. reflexivity.
    + apply nth_error_None in Hn.
      assert (i < List.length xs)%nat by (apply nth_error_Some; congruence).
      lia.
Qed.

(** X6: with N = 0 and an empty list of user results the count
    check passes and the fit is attempted on no point: [np.polyfit]
    refuses the empty array with TypeError. *)
Theorem zero_points_fit_raises md guess pre_time tts tns :
  chosen_test_times servo_retract_times md guess 0 = Ok (tts, tns) ->
  generate_mplayer_guesses_and_sync servo_retract_times lstsq_line md
    (Some []) guess 0 pre_time
  = ([], Raise TypeError).
Proof.
  intros H. rewrite sync_unfold, H. unfold lift, io_bind. simpl fst; simpl snd.
  apply generate_test_times_length in H as [H1 H2].
  destruct tts; [|discriminate]. reflexivity.
Qed.

End Sync.

End TestTimesFacts.

(** ** More on the behavior file names *)

Module ParserMore.

Import Pd Re Sessions SessionsFacts ParserFacts.
Local Open Scope string_scope.
Local Open Scope Z_scope.

Lemma upper_char_idempotent (c : ascii) : upper_char (upper_char c) = upper_char c.
Proof.
  destruct c as [[] [] [] [] [] [] [] []]; reflexivity.
Qed.

Lemma upper_idempotent (s : string) : upper (upper s) = upper s.
Proof.
  induction s as [|c s IH]; simpl; [reflexivity|].
  now rewrite upper_char_idempotent, IH.
Qed.

(** X7: cleaning a mouse name twice gives the same name as cleaning
    it once (upcasing, then the alias table). *)
Theorem clean_name_idempotent (mouse : string) :
  clean_name (clean_name mouse) = clean_name mouse.
Proof.
  unfold clean_name. simpl replace.
  destruct (String.eqb (upper mouse) "KF13A") eqn:E1; [reflexivity|].
  destruct (String.eqb (upper mouse) "AM03A") eqn:E2; [reflexivity|].
  rewrite upper_idempotent, E1, E2. reflexivity.
Qed.

Section Files.

Variable abspath : string -> string.
Variable get_file_time : string -> Z.
Variable strptime : string -> string -> option Z.

Lemma behavior_rec_l_skip (f : string) (rest : list string) :
  matches_behavior abspath f = false ->
  behavior_rec_l abspath get_file_time strptime (f :: rest)
  = behavior_rec_l abspath get_file_time strptime rest.
Proof.
  intros H. rewrite behavior_rec_l_cons. unfold matches_behavior in H.
  destruct (re_match behavior_pattern (abspath f))
    as [[|d [|rg [|ds [|m [|x tl]]]]]|]; try reflexivity. discriminate.
Qed.

Lemma behavior_rec_l_filter (files : list string) :
  behavior_rec_l abspath get_file_time strptime
    (filter (matches_behavior abspath) files)
  = behavior_rec_l abspath get_file_time strptime files.
Proof.
  induction files as [|f files IH]; [reflexivity|]. simpl filter.
  destruct (matches_behavior abspath f) eqn:E.
  - rewrite !behavior_rec_l_cons, IH. reflexivity.
  - now rewrite behavior_rec_l_skip.
Qed.

(** X8: the files whose names do not match the pattern are
    discarded: the parser gives the same result, printing and
    exception included, on the matching files alone. *)
Theorem non_matching_files_are_discarded (files : list string) (clean : bool) :
  parse_behavior_filenames abspath get_file_time strptime
    (filter (matches_behavior abspath) files) clean
  = parse_behavior_filenames abspath get_file_time strptime files clean.
Proof.
  unfold parse_behavior_filenames. now rewrite behavior_rec_l_filter.
Qed.

(** The loop raises nothing but ValueError. *)
Lemma behavior_rec_l_raises (files : list string) (e : exn) :
  behavior_rec_l abspath get_file_time strptime files = Raise e -> e = ValueError.
Proof.
  induction files as [|f files IH]; [discriminate|].
  rewrite behavior_rec_l_cons.
  destruct (re_match behavior_pattern (abspath f))
    as [[|d [|rg [|ds [|m [|x tl]]]]]|]; try exact IH.
  destruct (strptime ds "%Y%m%d%H%M%S"); [|now intros [= <-]].
  destruct (behavior_rec_l abspath get_file_time strptime files); [discriminate|].
  simpl. intros [= <-]. now apply IH.
Qed.

(** X9: a matching file whose time stamp does not parse makes the
    parser raise ValueError, with nothing printed, whatever the other
    files are. *)
Theorem bad_stamp_raises (files : list string) (f : string) (clean : bool) :
  In f files ->
  bad_stamp abspath strptime f ->
  parse_behavior_filenames abspath get_file_time strptime files clean
  = ([], Raise ValueError).
Proof.
  intros Hin (d & rg & ds & m & Hm & Hd).
  assert (E : behavior_rec_l abspath get_file_time strptime files = Raise ValueError).
  { induction files as [|f' files IH]; [contradiction|].
    rewrite behavior_rec_l_cons. destruct Hin as [->|Hin].
    - now rewrite Hm, Hd.
    - specialize (IH Hin).
      destruct (re_match behavior_pattern (abspath f'))
        as [[|d' [|rg' [|ds' [|m' [|x tl]]]]]|]; try exact IH.
      destruct (strptime ds' "%Y%m%d%H%M%S"); [|reflexivity].
      now rewrite IH. }
  unfold parse_behavior_filenames. now rewrite E.
Qed.

(** X10: when no file name matches, the parser prints the warning
    and returns the empty frame, with or without cleaning. *)
Theorem no_matching_file_warns (files : list string) (clean : bool) :
  (forall f, In f files -> matches_behavior abspath f = false) ->
  parse_behavior_filenames abspath get_file_time strptime files clean
  = ([PrintText "warning: no behavior files found"], Ok []).
Proof.
  intros H.
  assert (E : behavior_rec_l abspath get_file_time strptime files = Ok []).
  { induction files as [|f files IH]; [reflexivity|].
    rewrite behavior_rec_l_skip by (apply H; now left).
    apply IH. intros f' Hf'. apply H. now right. }
  unfold parse_behavior_filenames. now rewrite E.
Qed.

Lemma NoDup_range (n : Z) : NoDup (range n).
Proof.
  unfold range. generalize (seq_NoDup (Z.to_nat n) 0).
  generalize (seq 0 (Z.to_nat n)) as l.
  induction l as [|a l IH]; intros H; simpl; [constructor|].
  inversion H as [|x xs Hnot Hnd]; subst. constructor; [|now apply IH].
  intros Hin. apply in_map_iff in Hin as [b [Hb Hin]].
  apply Nat2Z.inj in Hb. now subst.
Qed.

Lemma index_from_records {A : Type} (rec_l : list A) :
  index (from_records rec_l) = range (Z.of_nat (List.length rec_l)).
Proof.
  unfold from_records, index. revert rec_l.
  assert (H : forall (ls : list Z) (rs : list A),
             List.length ls = List.length rs -> map fst (combine ls rs) = ls).
  { induction ls as [|l ls IH]; intros [|r rs] Hl; simpl in *;
      try discriminate; [reflexivity|].
    f_equal. apply IH. now injection Hl. }
  intros rec_l. apply H. unfold range.
  now rewrite length_map, length_seq, Nat2Z.id.
Qed.

(** X11: the parser raises nothing but ValueError.  The frame it
    returns has distinct row labels, and with cleaning every mouse
    name in it is one of the known mice. *)
Theorem parsed_frame_invariant (files : list string) (clean : bool) :
  match snd (parse_behavior_filenames abspath get_file_time strptime files clean) with
  | Raise e => e = ValueError
  | Ok behavior_files_df =>
      NoDup (index behavior_files_df)
      /\ (clean = true ->
          forall row, In row behavior_files_df -> In (b_mouse (snd row)) mice)
  end.
Proof.
  unfold parse_behavior_filenames, lift, io_bind.
  destruct (behavior_rec_l abspath get_file_time strptime files) as [rec_l|e] eqn:E.
  - assert (Hnd : NoDup (index (from_records rec_l)))
      by (rewrite index_from_records; apply NoDup_range).
    destruct (List.length (from_records rec_l) =? 0)%nat eqn:Hlen.
    + simpl. split; [exact Hnd|].
      apply Nat.eqb_eq, length_zero_iff_nil in Hlen. rewrite Hlen.
      intros _ row [].
    + destruct clean; unfold io_ret; cbn [snd].
      * split.
        -- apply MatcherFacts.NoDup_index_filter.
           unfold index in *. rewrite !map_map. simpl. exact Hnd.
        -- intros _ row Hrow. apply filter_In in Hrow as [_ Hk].
           now apply isin_In.
      * split; [exact Hnd | discriminate].
  - simpl. now apply behavior_rec_l_raises in E.
Qed.

End Files.

End ParserMore.

(** ** More on the video file names *)

Module VideoParserFacts.

Import Pd Re Sessions SessionsFacts.
Local Open Scope string_scope.
Local Open Scope Z_scope.

Section Probe.

Variable abspath : string -> string.
Variable strptime : string -> string -> option Z.
Variable ffprobe : string -> string.

(** One pass of the loop. *)
Lemma video_rec_l_step (f : string) (rest : list string) (verbose : bool)
    (cache : series video_record) :
  video_rec_l abspath strptime ffprobe (f :: rest) verbose (Some cache) =
  if isin f (cache_filenames cache) then
    video_rec_l abspath strptime ffprobe rest verbose (Some cache)
  else
    match probe_one abspath strptime ffprobe f verbose with
    | Skipped out =>
        ((out ++ fst (video_rec_l abspath strptime ffprobe rest verbose (Some cache)))%list,
         snd (video_rec_l abspath strptime ffprobe rest verbose (Some cache)))
    | Recorded out v =>
        ((out ++ fst (video_rec_l abspath strptime ffprobe rest verbose (Some cache)))%list,
         match snd (video_rec_l abspath strptime ffprobe rest verbose (Some cache)) with
         | Ok rec_l => Ok (v :: rec_l)
         | Raise e => Raise e
         end)
    | Failed out e => (out, Raise e)
    end.
Proof.
  cbn [video_rec_l]. unfold probe_one.
  destruct (isin f (cache_filenames cache)); [reflexivity|].
  destruct (video_rec_l abspath strptime ffprobe rest verbose (Some cache))
    as [out [rec_l|e]];
    destruct (re_match video_pattern (abspath f))
      as [[|d [|rg [|ds [|x [|y tl]]]]]|];
    destruct verbose; try (cbn; rewrite ?app_nil_r; reflexivity);
    destruct (strptime ds "%Y%m%d%H%M%S");
    try (cbn; rewrite ?app_nil_r; reflexivity);
    destruct (contains "Invalid data found when processing input" (ffprobe f));
    try (cbn; rewrite ?app_nil_r; reflexivity);
    destruct (re_search duration_pattern (ffprobe f)) as [[|du [|dv tl']]|];
    try (cbn; rewrite ?app_nil_r; reflexivity);
    destruct (strptime du "%H:%M:%S.%f"); cbn; rewrite ?app_nil_r; reflexivity.
Qed.

Lemma probe_one_events (f : string) (verbose : bool) (g : string) :
  In (Ffprobe g)
     (match probe_one abspath strptime ffprobe f verbose with
      | Skipped out | Recorded out _ | Failed out _ => out
      end) ->
  g = f.
Proof.
  unfold probe_one.
  destruct (re_match video_pattern (abspath f))
    as [[|d [|rg [|ds [|x [|y tl]]]]]|];
    destruct verbose; simpl; try (intuition congruence);
    destruct (strptime ds "%Y%m%d%H%M%S"); simpl; try (intuition congruence);
    destruct (contains "Invalid data found when processing input" (ffprobe f));
    simpl; try (intuition congruence);
    destruct (re_search duration_pattern (ffprobe f)) as [[|du [|dv tl']]|];
    simpl; try (intuition congruence);
    destruct (strptime du "%H:%M:%S.%f"); simpl; intuition congruence.
Qed.

Lemma time_of_day_bounds (dt : Z) : 0 <= time_of_day dt < day_ns.
Proof. unfold time_of_day, day_ns. apply Z.mod_pos_bound. lia. Qed.

Lemma probe_one_record (f : string) (verbose : bool) (out : list event)
    (v : video_record) :
  probe_one abspath strptime ffprobe f verbose = Recorded out v ->
  v_filename v = f /\ well_formed_video v.
Proof.
  unfold probe_one, well_formed_video.
  destruct (re_match video_pattern (abspath f))
    as [[|d [|rg [|ds [|x [|y tl]]]]]|]; try discriminate.
  destruct (strptime ds "%Y%m%d%H%M%S"); try discriminate.
  destruct (contains "Invalid data found when processing input" (ffprobe f)).
  - intros [= _ <-]. simpl. auto.
  - destruct (re_search duration_pattern (ffprobe f)) as [[|du [|dv tl']]|];
      try discriminate.
    destruct (strptime du "%H:%M:%S.%f"); try discriminate.
    intros [= _ <-]. simpl. split; [reflexivity|]. right.
    eexists. split; [reflexivity|]. split; [reflexivity|].
    apply time_of_day_bounds.
Qed.

(** What the loop prints, probes and records, with a cache. *)
Lemma video_rec_l_spec (cache : series video_record) (verbose : bool)
    (fs : list string) :
  (forall g, In (Ffprobe g) (fst (video_rec_l abspath strptime ffprobe fs verbose
                                    (Some cache))) ->
             In g fs /\ ~ In g (cache_filenames cache))
  /\ match snd (video_rec_l abspath strptime ffprobe fs verbose (Some cache)) with
     | Ok rec_l =>
         Forall (fun v => In (v_filename v) fs
                          /\ ~ In (v_filename v) (cache_filenames cache)
                          /\ well_formed_video v) rec_l
     | Raise e => e = ValueError \/ e = AssertionError
     end.
Proof.
  induction fs as [|f fs [IHev IHrec]].
  - split; [intros g [] | constructor].
  - rewrite video_rec_l_step.
    destruct (isin f (cache_filenames cache)) eqn:Hc.
    + split.
      * intros g Hg. apply IHev in Hg as [H1 H2]. split; [now right | exact H2].
      * destruct (snd (video_rec_l abspath strptime ffprobe fs verbose (Some cache)));
          [|exact IHrec].
        eapply Forall_impl; [|exact IHrec]. intros v [H1 H2]. split; [now right|exact H2].
    + assert (Hnc : ~ In f (cache_filenames cache)).
      { intros Hin. apply isin_In in Hin. congruence. }
      pose proof (@probe_one_events f verbose) as Hev.
      pose proof (@probe_one_record f verbose) as Hrec.
      destruct (probe_one abspath strptime ffprobe f verbose) as [out|out v|out e] eqn:Hp.
      * split.
        -- intros g Hg. simpl in Hg. apply in_app_or in Hg as [Hg|Hg].
           ++ apply Hev in Hg as ->. split; [now left | exact Hnc].
           ++ apply IHev in Hg as [H1 H2]. split; [now right | exact H2].
        -- simpl.
           destruct (snd (video_rec_l abspath strptime ffprobe fs verbose (Some cache)));
             [|exact IHrec].
           eapply Forall_impl; [|exact IHrec].
           intros v [H1 H2]. split; [now right|exact H2].
      * split.
        -- intros g Hg. simpl in Hg. apply in_app_or in Hg as [Hg|Hg].
           ++ apply Hev in Hg as ->. split; [now left | exact Hnc].
           ++ apply IHev in Hg as [H1 H2]. split; [now right | exact H2].
        -- simpl.
           destruct (snd (video_rec_l abspath strptime ffprobe fs verbose (Some cache)));
             [|exact IHrec].
           destruct (Hrec out v eq_refl) as [Hname Hwf].
           constructor.
           ++ rewrite Hname. split; [now left|]. split; [exact Hnc | exact Hwf].
           ++ eapply Forall_impl; [|exact IHrec].
              intros v' [H1 H2]. split; [now right|exact H2].
      * split.
        -- intros g Hg. simpl in Hg. apply Hev in Hg as ->.
           split; [now left | exact Hnc].
        -- simpl. clear - Hp. unfold probe_one in Hp.
           destruct (re_match video_pattern (abspath f))
             as [[|d [|rg [|ds [|x [|y tl]]]]]|]; try discriminate.
           destruct (strptime ds "%Y%m%d%H%M%S"); [|injection Hp as _ <-; now left].
           destruct (contains "Invalid data found when processing input" (ffprobe f));
             [discriminate|].
           destruct (re_search duration_pattern (ffprobe f)) as [[|du [|dv tl']]|];
             try (injection Hp as _ <-; now right).
           destruct (strptime du "%H:%M:%S.%f"); [discriminate|].
           injection Hp as _ <-. now left.
Qed.

Lemma video_rec_l_all_cached (cache : series video_record) (verbose : bool)
    (fs : list string) :
  (forall f, In f fs -> In f (cache_filenames cache)) ->
  video_rec_l abspath strptime ffprobe fs verbose (Some cache) = ([], Ok []).
Proof.
  induction fs as [|f fs IH]; intros H; [reflexivity|].
  rewrite video_rec_l_step.
  assert (E : isin f (cache_filenames cache) = true)
    by (apply isin_In, H; now left).
  rewrite E. apply IH. intros g Hg. apply H. now right.
Qed.

Lemma cache_check_passes (cache : series video_record) (fs : list string) :
  (forall f, In f (cache_filenames cache) -> In f fs) ->
  forallb (fun f => isin f fs) (cache_filenames cache) = true.
Proof.
  intros H. apply forallb_forall. intros f Hf. now apply isin_In, H.
Qed.

(** X12: when the cache lists exactly the video files given, no file
    is probed, nothing is printed, and the cache is returned as it
    is. *)
Theorem full_cache_is_returned (video_filenames : list string) (verbose : bool)
    (cache : series video_record) :
  (forall f, In f video_filenames -> In f (cache_filenames cache)) ->
  (forall f, In f (cache_filenames cache) -> In f video_filenames) ->
  parse_video_filenames abspath strptime ffprobe video_filenames verbose
    (Some cache)
  = ([], Ok (Cached cache)).
Proof.
  intros Hall Hsub. unfold parse_video_filenames.
  rewrite (@cache_check_passes _ _ Hsub). simpl negb. cbv iota.
  rewrite (@video_rec_l_all_cached _ verbose _ Hall). reflexivity.
Qed.

(** X13: a file on which ffprobe is run is one of the video files
    given and is not listed in the cache. *)
Theorem only_new_files_are_probed (video_filenames : list string)
    (verbose : bool) (cache : series video_record) (g : string) :
  In (Ffprobe g)
     (fst (parse_video_filenames abspath strptime ffprobe video_filenames
             verbose (Some cache))) ->
  In g video_filenames /\ ~ In g (cache_filenames cache).
Proof.
  unfold parse_video_filenames.
  destruct (negb (forallb (fun f => isin f video_filenames) (cache_filenames cache)));
    [intros []|].
  pose proof (video_rec_l_spec cache verbose video_filenames) as [Hev _].
  unfold io_bind.
  destruct (video_rec_l abspath strptime ffprobe video_filenames verbose (Some cache))
    as [out [rec_l|e]]; simpl in *.
  - intros Hg. apply Hev. destruct rec_l; simpl in Hg;
      rewrite app_nil_r in Hg; exact Hg.
  - apply Hev.
Qed.

(** X14: with a cache, [parse_video_filenames] raises nothing but
    ValueError and AssertionError.  It returns the cache itself when
    no new record was made; otherwise the new records side by side
    with the cache, and each new record is for a listed file that is
    not in the cache, with a start equal to its end less its
    duration and a duration of at least zero and less than a day, or
    with neither start nor duration. *)
Theorem parse_video_outcome (video_filenames : list string) (verbose : bool)
    (cache : series video_record) :
  match snd (parse_video_filenames abspath strptime ffprobe video_filenames
               verbose (Some cache)) with
  | Raise e => e = ValueError \/ e = AssertionError
  | Ok (Records _) => False
  | Ok (Cached c) => c = cache
  | Ok (SideBySide rec_l c) =>
      c = cache /\ rec_l <> []
      /\ Forall (fun v => In (v_filename v) video_filenames
                          /\ ~ In (v_filename v) (cache_filenames cache)
                          /\ well_formed_video v) rec_l
  end.
Proof.
  unfold parse_video_filenames.
  destruct (negb (forallb (fun f => isin f video_filenames) (cache_filenames cache)));
    [now left|].
  pose proof (video_rec_l_spec cache verbose video_filenames) as [_ Hrec].
  unfold io_bind.
  destruct (video_rec_l abspath strptime ffprobe video_filenames verbose (Some cache))
    as [out [rec_l|e]]; simpl in *; [|exact Hrec].
  destruct rec_l as [|v rec_l]; simpl; [reflexivity|].
  split; [reflexivity|]. split; [discriminate | exact Hrec].
Qed.

End Probe.

Section SearchNoCache.

Variable abspath : string -> string.
Variable get_file_time : string -> Z.
Variable strptime : string -> string -> option Z.
Variable ffprobe : string -> string.

(** X15: with no cache (the default), once the behavior files are
    parsed, [search_for_behavior_and_video_files] raises
    AttributeError as soon as there is a video file or a behavior
    record: a video file is looked up in the absent cache, and
    without video files the frame built from no record has no [rig]
    column for the matcher to read. *)
Theorem search_without_cache_raises (all_behavior_files video_files : list string)
    (out : list event) (behavior_files_df : series behavior_record) :
  parse_behavior_filenames abspath get_file_time strptime all_behavior_files true
  = (out, Ok behavior_files_df) ->
  video_files <> [] \/ behavior_files_df <> [] ->
  search_for_behavior_and_video_files abspath get_file_time strptime ffprobe
    all_behavior_files video_files None
  = ((out ++ match video_files with
             | [] => [PrintText "warning: no video files found"]
             | _ => []
             end)%list,
     Raise AttributeError).
Proof.
  intros Hb Hne. unfold search_for_behavior_and_video_files.
  rewrite Hb. unfold io_bind at 1.
  destruct video_files as [|f fs].
  - destruct Hne as [Hne|Hne]; [contradiction|].
    destruct behavior_files_df as [|brow rest]; [contradiction|].
    reflexivity.
  - cbn. rewrite app_nil_r. reflexivity.
Qed.

End SearchNoCache.

End VideoParserFacts.

(** ** More on the session matcher *)

Module MatcherMore.

Import Pd Sessions MatcherFacts.
Local Open Scope Z_scope.

Lemma overlap_ns_bounds (brow : behavior_record) (end_v start_v : Z) :
  overlap_ns brow end_v start_v <= b_dt_end brow - b_dt_start brow
  /\ overlap_ns brow end_v start_v <= end_v - start_v.
Proof. unfold overlap_ns. lia. Qed.

Lemma argmax_nonempty (s : series (option Z)) :
  s <> [] -> argmax Z.ltb s = Ok (option_map fst (first_max Z.ltb None s)).
Proof. destruct s; [contradiction | reflexivity]. Qed.

(** X16: what the loop body can do for one behavior row, when the
    labels of the video frame are unique.  It raises nothing but
    ValueError, and exactly when no video of the rig of the row has a
    start (in particular when the rig has no video).  When it
    returns, the row holds either index -1 with overlap 0, or the
    label of a video of its rig with a positive overlap in seconds
    that exceeds neither the length of the session nor the length of
    that video. *)
Theorem best_overlap_total (video_files_df : series video_record)
    (brow : behavior_record) :
  NoDup (index video_files_df) ->
  match best_overlap video_files_df brow with
  | Raise e =>
      e = ValueError
      /\ forall l v, In (l, v) video_files_df -> v_rig v = b_rig brow ->
                     v_dt_start v = None
  | Ok m =>
      m_behavior m = brow
      /\ (exists l v start_v,
             In (l, v) video_files_df /\ v_rig v = b_rig brow
             /\ v_dt_start v = Some start_v)
      /\ ((best_video_index m = -1 /\ best_video_overlap m = 0%Q)
          \/ exists v start_v ov,
              In (best_video_index m, v) video_files_df
              /\ v_rig v = b_rig brow
              /\ v_dt_start v = Some start_v
              /\ 0 < ov
              /\ best_video_overlap m = Behavior.seconds ov
              /\ ov <= b_dt_end brow - b_dt_start brow
              /\ ov <= v_dt_end v - start_v)
  end.
Proof.
  intros Hnd.
  assert (Hnd' : NoDup (index (overlaps video_files_df brow))).
  { rewrite index_overlaps. now apply NoDup_index_filter. }
  pose proof (first_max_spec (overlaps video_files_df brow) None) as Hspec.
  rewrite best_overlap_unfold.
  destruct (first_max Z.ltb None (overlaps video_files_df brow)) as [[l ov]|] eqn:Hf.
  - (* some video of the rig has a start *)
    destruct Hspec as [[Hsrc|Hsrc] _]; [discriminate|].
    assert (Hne : overlaps video_files_df brow <> []).
    { intros E. rewrite E in Hsrc. exact Hsrc. }
    rewrite (argmax_nonempty Hne), Hf. simpl bind.
    rewrite (@overlap_at_In _ _ _ Hnd' Hsrc). simpl bind.
    rewrite seconds_positive.
    apply in_overlaps in Hsrc as [v [Hin [Hrig [start_v [Hs ->]]]]].
    destruct (0 <? overlap_ns brow (v_dt_end v) start_v) eqn:E.
    + apply Z.ltb_lt in E. split; [reflexivity|].
      split; [exists l, v, start_v; auto|]. right.
      exists v, start_v, (overlap_ns brow (v_dt_end v) start_v).
      pose proof (overlap_ns_bounds brow (v_dt_end v) start_v) as [B1 B2].
      simpl. repeat split; assumption.
    + split; [reflexivity|].
      split; [exists l, v, start_v; auto|]. left. split; reflexivity.
  - (* none has *)
    destruct Hspec as [_ Hnone].
    assert (Hall : forall l v, In (l, v) video_files_df -> v_rig v = b_rig brow ->
                               v_dt_start v = None).
    { intros l v Hin Hrig. destruct (v_dt_start v) as [start_v|] eqn:Hs; [|reflexivity].
      exfalso. apply (Hnone l (overlap_ns brow (v_dt_end v) start_v)).
      apply in_overlaps. exists v. split; [exact Hin|]. split; [exact Hrig|].
      exists start_v. auto. }
    assert (Hcase : overlaps video_files_df brow = []
                    \/ overlaps video_files_df brow <> []).
    { destruct (overlaps video_files_df brow); [now left | right; discriminate]. }
    destruct Hcase as [E|Hne].
    + rewrite E. simpl. split; [reflexivity | exact Hall].
    + rewrite (argmax_nonempty Hne), Hf. simpl.
      split; [reflexivity | exact Hall].
Qed.

(** The first largest value: nothing before it is as large. *)
Lemma first_max_first (s : series (option Z)) :
  forall best l m,
    first_max Z.ltb best s = Some (l, m) ->
    (best = Some (l, m))
    \/ exists pre post,
        s = pre ++ (l, Some m) :: post
        /\ (forall l0 m0, best = Some (l0, m0) -> m0 < m)
        /\ (forall l' q, In (l', Some q) pre -> q < m).
Proof.
  induction s as [|[l0 [q|]] s IH]; intros best l m H; simpl in H.
  - now left.
  - destruct best as [[lb mb]|].
    + destruct (mb <? q) eqn:E.
      * apply Z.ltb_lt in E. right.
        apply IH in H as [H|(pre & post & -> & Hb & Hpre)].
        -- injection H as <- <-. exists [], s. split; [reflexivity|]. split.
           ++ intros l1 m1 [= _ <-]. exact E.
           ++ intros l' q' [].
        -- exists ((l0, Some q) :: pre), post. split; [reflexivity|].
           assert (q < m) by (apply (Hb l0 q); reflexivity). split.
           ++ intros l1 m1 [= _ <-]. lia.
           ++ intros l' q' [Heq|Hin]; [injection Heq as _ <-; lia | now apply (Hpre l')].
      * apply Z.ltb_ge in E.
        apply IH in H as [H|(pre & post & -> & Hb & Hpre)]; [now left|]. right.
        exists ((l0, Some q) :: pre), post. split; [reflexivity|].
        assert (mb < m) by (apply (Hb lb mb); reflexivity). split.
        -- exact Hb.
        -- intros l' q' [Heq|Hin]; [injection Heq as _ <-; lia | now apply (Hpre l')].
    + right. apply IH in H as [H|(pre & post & -> & Hb & Hpre)].
      * injection H as <- <-. exists [], s. split; [reflexivity|]. split.
        -- intros l1 m1 [=].
        -- intros l' q' [].
      * exists ((l0, Some q) :: pre), post. split; [reflexivity|].
        assert (q < m) by (apply (Hb l0 q); reflexivity). split.
        -- intros l1 m1 [=].
        -- intros l' q' [Heq|Hin]; [injection Heq as _ <-; lia | now apply (Hpre l')].
  - apply IH in H as [H|(pre & post & -> & Hb & Hpre)]; [now left|]. right.
    exists ((l0, None) :: pre), post. split; [reflexivity|]. split; [exact Hb|].
    intros l' q' [Heq|Hin]; [discriminate | now apply (Hpre l')].
Qed.

(** A split of the overlap series comes from a split of the frame. *)
Lemma overlaps_split (brow : behavior_record) (video_files_df : series video_record) :
  forall pre row post,
    overlaps video_files_df brow = pre ++ row :: post ->
    exists vpre v vpost,
      video_files_df = vpre ++ (fst row, v) :: vpost
      /\ v_rig v = b_rig brow
      /\ snd row = row_overlap brow v
      /\ overlaps vpre brow = pre.
Proof.
  unfold overlaps, same_rig.
  induction video_files_df as [|[l v] s IH]; intros pre row post H; simpl in H.
  - destruct pre; discriminate.
  - destruct (String.eqb (v_rig v) (b_rig brow)) eqn:E; simpl in H.
    + destruct pre as [|p pre]; simpl in H.
      * injection H as <- _. exists [], v, s. apply String.eqb_eq in E. auto.
      * injection H as <- H. apply IH in H as (vpre & v' & vpost & -> & Hr & Hv & Hp).
        exists ((l, v) :: vpre), v', vpost. simpl. rewrite E. simpl.
        rewrite Hp. auto.
    + apply IH in H as (vpre & v' & vpost & -> & Hr & Hv & Hp).
      exists ((l, v) :: vpre), v', vpost. simpl. rewrite E. auto.
Qed.

(** X17: ties go to the video listed first.  When the labels are
    unique and some video of the rig has a start, the video whose
    overlap the loop body looks at comes in the frame before every
    other video of the rig with as large an overlap: the videos of the
    rig before it overlap less, none overlaps more, and when its
    overlap is positive its label is the one stored. *)
Theorem ties_go_to_the_first_video (video_files_df : series video_record)
    (brow : behavior_record) :
  NoDup (index video_files_df) ->
  (exists l v ov, candidate video_files_df brow l v ov) ->
  exists m vpre l v vpost ov,
    best_overlap video_files_df brow = Ok m
    /\ video_files_df = vpre ++ (l, v) :: vpost
    /\ candidate video_files_df brow l v ov
    /\ (forall l' v' ov', candidate vpre brow l' v' ov' -> ov' < ov)
    /\ (forall l' v' ov', candidate video_files_df brow l' v' ov' -> ov' <= ov)
    /\ (0 < ov -> best_video_index m = l).
Proof.
  intros Hnd [l0 [v0 [ov0 Hc0]]].
  assert (Hin0 : In (l0, Some ov0) (overlaps video_files_df brow))
    by (apply in_overlaps; now exists v0).
  pose proof (first_max_spec (overlaps video_files_df brow) None) as Hspec.
  destruct (first_max Z.ltb None (overlaps video_files_df brow)) as [[l ov]|] eqn:Hf.
  2:{ destruct Hspec as [_ H]. exfalso. apply (H l0 ov0 Hin0). }
  destruct Hspec as [[Hsrc|Hsrc] [_ Hmax]]; [discriminate|].
  pose proof Hf as Hfirst.
  apply first_max_first in Hfirst as [Hfirst|(pre & post & Hsplit & _ & Hpre)];
    [discriminate|].
  destruct (@overlaps_split _ _ _ _ _ Hsplit)
    as (vpre & v & vpost & Hv & Hrig & Hov & Hp).
  simpl in Hv, Hov.
  assert (Hnd' : NoDup (index (overlaps video_files_df brow))).
  { rewrite index_overlaps. now apply NoDup_index_filter. }
  assert (Hc : candidate video_files_df brow l v ov).
  { split; [rewrite Hv; apply in_elt|]. split; [exact Hrig|].
    destruct (v_dt_start v) as [s|] eqn:Hs.
    - exists s. split; [reflexivity|].
      rewrite (@row_overlap_known brow v _ Hs) in Hov. now injection Hov.
    - rewrite (@row_overlap_missing brow v Hs) in Hov. discriminate. }
  assert (Hne : overlaps video_files_df brow <> []).
  { intros E. rewrite E in Hin0. exact Hin0. }
  exists (if Qlt_bool 0 (Behavior.seconds ov)
          then {| m_behavior := brow; best_video_index := l;
                  best_video_overlap := Behavior.seconds ov |}
          else {| m_behavior := brow; best_video_index := -1;
                  best_video_overlap := 0 |}).
  exists vpre, l, v, vpost, ov.
  split; [|split; [exact Hv|split; [exact Hc|split; [|split]]]].
  - rewrite best_overlap_unfold, (argmax_nonempty Hne), Hf. simpl bind.
    rewrite (@overlap_at_In _ _ _ Hnd' Hsrc). simpl bind.
    destruct (Qlt_bool 0 (Behavior.seconds ov)); reflexivity.
  - intros l' v' ov' Hc'. apply (Hpre l'). rewrite <- Hp.
    apply in_overlaps. now exists v'.
  - intros l' v' ov' Hc'. apply (Hmax l'). apply in_overlaps. now exists v'.
  - intros Hpos. rewrite seconds_positive.
    apply Z.ltb_lt in Hpos. rewrite Hpos. reflexivity.
Qed.

End MatcherMore.

(** ** More on [frame_dump] *)

Module FrameDumpFacts.

Import Video VideoFacts.
Local Open Scope Q_scope.
Local Open Scope string_scope.

Section Run.

Variable check_output : syscall -> result string.

(** X18: [frame_dump] starts the subprocess only when [dry_run] is
    off and [meth] is one of the three ffmpeg methods, and then with
    the command built for that method. *)
Theorem subprocess_only_when_asked (filename : string) (frametime : Q)
    (output_filename meth : string) (subseek_cushion : Q)
    (verbose dry_run very_verbose : bool) (c : syscall) :
  In (CheckOutput c)
     (fst (frame_dump check_output filename frametime output_filename meth
             subseek_cushion verbose dry_run very_verbose)) ->
  dry_run = false
  /\ frame_dump_syscall filename frametime output_filename meth subseek_cushion
     = Ok (Some c)
  /\ (meth = "ffmpeg best" \/ meth = "ffmpeg accurate" \/ meth = "ffmpeg fast").
Proof.
  unfold frame_dump.
  assert (Hm : forall c',
             frame_dump_syscall filename frametime output_filename meth
               subseek_cushion = Ok (Some c') ->
             meth = "ffmpeg best" \/ meth = "ffmpeg accurate"
             \/ meth = "ffmpeg fast").
  { unfold frame_dump_syscall. intros c'.
    destruct (String.eqb meth "mplayer"); [discriminate|].
    destruct (String.eqb meth "ffmpeg best") eqn:E1;
      [apply String.eqb_eq in E1; auto|].
    destruct (String.eqb meth "ffmpeg accurate") eqn:E2;
      [apply String.eqb_eq in E2; auto|].
    destruct (String.eqb meth "ffmpeg fast") eqn:E3;
      [apply String.eqb_eq in E3; auto|].
    discriminate. }
  destruct (frame_dump_syscall filename frametime output_filename meth
              subseek_cushion) as [[c'|]|e]; unfold lift, io_bind.
  - specialize (Hm c' eq_refl).
    destruct verbose, dry_run; simpl;
      try (intuition discriminate);
      destruct (check_output c') as [txt|e]; destruct very_verbose; simpl;
      intros H; repeat (destruct H as [H|H]; try discriminate);
      try contradiction;
      injection H as <-; auto.
  - destruct verbose, dry_run; simpl; intuition discriminate.
  - simpl. intros [].
Qed.

(** X19: with a method that is none of mplayer and the three ffmpeg
    methods no command is built; the function then raises
    UnboundLocalError when it is to print or to run the command, and
    returns quietly only for a silent dry run. *)
Theorem unknown_method (filename : string) (frametime : Q)
    (output_filename meth : string) (subseek_cushion : Q)
    (verbose dry_run very_verbose : bool) :
  meth <> "mplayer" -> meth <> "ffmpeg best" ->
  meth <> "ffmpeg accurate" -> meth <> "ffmpeg fast" ->
  frame_dump check_output filename frametime output_filename meth
    subseek_cushion verbose dry_run very_verbose
  = ([], if verbose || negb dry_run then Raise UnboundLocalError else Ok tt).
Proof.
  intros H1 H2 H3 H4. unfold frame_dump, frame_dump_syscall.
  apply String.eqb_neq in H1, H2, H3, H4. rewrite H1, H2, H3, H4.
  destruct verbose, dry_run; reflexivity.
Qed.

End Run.

(** X20: in [ffmpeg best], a frame time that is within the cushion
    is reached by the fine seek alone: the command seeks coarsely to
    0 and then finely to the frame time itself. *)
Theorem seek_within_cushion_is_all_fine (filename output_filename : string)
    (frametime subseek_cushion : Q) :
  frametime <= subseek_cushion ->
  exists fine,
    frame_dump_syscall filename frametime output_filename "ffmpeg best"
      subseek_cushion
    = Ok (Some (FfmpegBest 0 filename fine output_filename))
    /\ fine == frametime.
Proof.
  intros Hle.
  assert (H : Qle_bool (frametime - subseek_cushion) 0 = true).
  { apply Qle_bool_iff. apply Qle_minus_iff. apply Qle_minus_iff in Hle.
    assert (E : 0 + - (frametime - subseek_cushion)
                == subseek_cushion + - frametime) by ring.
    now rewrite E. }
  exists (frametime - 0). split; [|ring].
  unfold frame_dump_syscall, np_max0. rewrite H. reflexivity.
Qed.

End FrameDumpFacts.

(** ** Probing a video and reading a frame *)

Module ProbeFacts.

Import Pd Re Sessions Probe.
Local Open Scope string_scope.
Local Open Scope Z_scope.

Section Duration.

Variable abspath : string -> string.
Variable ffprobe : string -> string.
Variable strptime : string -> string -> option Z.

(** X21: [get_video_duration] and [parse_video_filenames] read the
    duration of a file in the same way: when the parser makes a
    record with a duration, [get_video_duration] returns that
    duration (as a timedelta or in seconds); when the parser makes a
    record without one, because ffprobe found invalid data,
    [get_video_duration] raises ValueError. *)
Theorem duration_agrees_with_parser (f : string) (verbose : bool)
    (out : list event) (v : video_record) :
  probe_one abspath strptime ffprobe f verbose = Recorded out v ->
  match v_duration v with
  | Some d =>
      get_video_duration ffprobe strptime f true
      = ([Ffprobe f], Ok (Timedelta d))
      /\ get_video_duration ffprobe strptime f false
         = ([Ffprobe f], Ok (TotalSeconds (Behavior.seconds d)))
  | None =>
      forall as_timedelta,
        get_video_duration ffprobe strptime f as_timedelta
        = ([Ffprobe f], Raise ValueError)
  end.
Proof.
  unfold probe_one, get_video_duration.
  destruct (re_match video_pattern (abspath f))
    as [[|d [|rg [|ds [|x [|y tl]]]]]|]; try discriminate.
  destruct (strptime ds "%Y%m%d%H%M%S"); try discriminate.
  destruct (contains "Invalid data found when processing input" (ffprobe f)).
  - intros [= _ <-]. simpl. intros b. reflexivity.
  - destruct (re_search duration_pattern (ffprobe f)) as [[|du [|dv tl']]|];
      try discriminate.
    destruct (strptime du "%H:%M:%S.%f"); try discriminate.
    intros [= _ <-]. simpl. split; reflexivity.
Qed.

(** X22: [get_video_duration] runs ffprobe once on the file and does
    nothing else.  It raises nothing but ValueError and
    AssertionError; the seconds it returns are at least 0 and less
    than 86400, a day. *)
Theorem get_video_duration_outcome (f : string) (as_timedelta : bool) :
  fst (get_video_duration ffprobe strptime f as_timedelta) = [Ffprobe f]
  /\ match snd (get_video_duration ffprobe strptime f as_timedelta) with
     | Raise e => e = ValueError \/ e = AssertionError
     | Ok (Timedelta ns) => as_timedelta = true /\ 0 <= ns < day_ns
     | Ok (TotalSeconds s) =>
         as_timedelta = false /\ (0 <= s)%Q /\ (s < 86400)%Q
     end.
Proof.
  unfold get_video_duration.
  destruct (contains "Invalid data found when processing input" (ffprobe f));
    [simpl; auto|].
  destruct (re_search duration_pattern (ffprobe f)) as [[|du [|dv tl']]|];
    try (simpl; auto).
  destruct (strptime du "%H:%M:%S.%f") as [t|]; [|simpl; auto].
  pose proof (VideoParserFacts.time_of_day_bounds t) as [H0 H1].
  destruct as_timedelta; simpl; split; try reflexivity.
  - split; [reflexivity | split; assumption].
  - split; [reflexivity|]. unfold Behavior.seconds, Qle, Qlt. simpl.
    unfold day_ns in H1. split; lia.
Qed.

End Duration.

Section Aspect.

Variable ffprobe : string -> string.
Variable int : string -> option Z.

Lemma stream_size_pair (line : string) (wh : list Z) :
  stream_size int line = Ok (Some wh) -> exists w h, wh = [w; h].
Proof.
  unfold stream_size.
  destruct (negb (startswith "Stream #" (strip line))); [discriminate|].
  destruct (negb (contains " Video: " (nth 0 (split_on "," line) "")));
    [discriminate|].
  destruct (List.length (split_on "," line) <? 3)%nat; [discriminate|].
  destruct (split_words (nth 2 (split_on "," line) "")) as [|size_string ws];
    [discriminate|].
  destruct (split_on "x" size_string) as [|a [|b [|c l]]]; simpl; try discriminate.
  destruct (int a); [|discriminate]. destruct (int b); [|discriminate].
  simpl. intros [= <-]. eauto.
Qed.

Lemma stream_size_raises (line : string) (e : exn) :
  stream_size int line = Raise e -> e = ValueError.
Proof.
  unfold stream_size.
  destruct (negb (startswith "Stream #" (strip line))); [discriminate|].
  destruct (negb (contains " Video: " (nth 0 (split_on "," line) "")));
    [discriminate|].
  destruct (List.length (split_on "," line) <? 3)%nat; [now intros [= <-]|].
  destruct (split_words (nth 2 (split_on "," line) "")) as [|size_string ws];
    [now intros [= <-]|].
  destruct (negb (List.length (split_on "x" size_string) =? 2)%nat);
    [now intros [= <-]|].
  induction (split_on "x" size_string) as [|a l IH]; simpl; [discriminate|].
  destruct (int a); [|now intros [= <-]].
  destruct (mapM _ l); [discriminate|]. simpl. simpl in IH. exact IH.
Qed.

(** What the loop collects. *)
Lemma stream_sizes_spec (lines : list string) :
  match stream_sizes int lines with
  | Raise e => e = ValueError
  | Ok [] => Forall (fun line => stream_size int line = Ok None) lines
  | Ok (wh :: _) =>
      exists pre line post,
        lines = (pre ++ line :: post)%list
        /\ Forall (fun line => stream_size int line = Ok None) pre
        /\ stream_size int line = Ok (Some wh)
  end.
Proof.
  induction lines as [|line rest IH]; simpl; [constructor|].
  destruct (stream_size int line) as [[wh|]|e] eqn:E; simpl.
  - destruct (stream_sizes int rest) as [l|e]; simpl; [|exact IH].
    exists [], line, rest. repeat split; [constructor | exact E].
  - destruct (stream_sizes int rest) as [[|wh l]|e]; simpl.
    + constructor; assumption.
    + destruct IH as (pre & line' & post & -> & Hpre & Hl).
      exists (line :: pre), line', post. repeat split; [|exact Hl].
      constructor; assumption.
    + exact IH.
  - now apply stream_size_raises in E.
Qed.

(** X23: [get_video_aspect] runs ffprobe once.  It returns the width
    and the height of the first line that is a video stream, the
    lines before it being passed over; it raises IndexError when no
    line is a video stream, and otherwise nothing but ValueError. *)
Theorem get_video_aspect_outcome (f : string) :
  let lines := split_on "010"%char (ffprobe f) in
  (exists rest, fst (get_video_aspect ffprobe int f) = Ffprobe f :: rest)
  /\ match snd (get_video_aspect ffprobe int f) with
     | Ok wh =>
         (exists w h, wh = [w; h])
         /\ exists pre line post,
             lines = (pre ++ line :: post)%list
             /\ Forall (fun line => stream_size int line = Ok None) pre
             /\ stream_size int line = Ok (Some wh)
     | Raise e =>
         e = ValueError
         \/ (e = IndexError
             /\ Forall (fun line => stream_size int line = Ok None) lines)
     end.
Proof.
  intros lines. unfold get_video_aspect.
  destruct (contains "Invalid data found when processing input" (ffprobe f)).
  - simpl. split; [eauto | now left].
  - pose proof (stream_sizes_spec lines) as H. fold lines.
    destruct (stream_sizes int lines) as [[|wh l]|e]; simpl.
    + split; [eauto | right; now split].
    + destruct H as (pre & line & post & Hl & Hpre & Hs).
      destruct l; simpl; (split; [eauto|]); split;
        try (eapply stream_size_pair; exact Hs);
        exists pre, line, post; auto.
    + split; [eauto | now left].
Qed.

End Aspect.

(** *** A stream line in the layout of ffprobe *)

Lemma append_assoc (a b c : string) : (a ++ b) ++ c = a ++ b ++ c.
Proof. induction a as [|x a IH]; simpl; [reflexivity | now rewrite IH]. Qed.

Lemma append_nil_r (a : string) : a ++ "" = a.
Proof. induction a as [|x a IH]; simpl; [reflexivity | now rewrite IH]. Qed.

Lemma occurs_app (c : ascii) (a b : string) :
  occurs c (a ++ b) = occurs c a || occurs c b.
Proof.
  induction a as [|x a IH]; simpl; [reflexivity|].
  now rewrite IH, orb_assoc.
Qed.

Lemma no_space_app (a b : string) :
  no_space (a ++ b) = no_space a && no_space b.
Proof.
  induction a as [|x a IH]; simpl; [reflexivity|].
  now rewrite IH, andb_assoc.
Qed.

Lemma split_on_free (c : ascii) (a : string) :
  occurs c a = false -> split_on c a = [a].
Proof.
  induction a as [|x a IH]; simpl; [reflexivity|].
  intros H. apply orb_false_iff in H as [H1 H2].
  rewrite H1, (IH H2). reflexivity.
Qed.

Lemma split_on_field (c : ascii) (a b : string) :
  occurs c a = false ->
  split_on c (a ++ String c b) = a :: split_on c b.
Proof.
  induction a as [|x a IH]; simpl; intros H.
  - now rewrite Ascii.eqb_refl.
  - apply orb_false_iff in H as [H1 H2]. rewrite H1, (IH H2). reflexivity.
Qed.

Lemma strip_prefix_app (p s : string) : strip_prefix p (p ++ s) = Some s.
Proof.
  induction p as [|a p IH]; simpl; [now destruct s|].
  now rewrite Ascii.eqb_refl.
Qed.

Lemma contains_prefix (needle hay t : string) :
  strip_prefix needle hay = Some t -> contains needle hay = true.
Proof. intros H. destruct hay; simpl; now rewrite H. Qed.

Lemma contains_app (needle a b : string) :
  contains needle (a ++ needle ++ b) = true.
Proof.
  induction a as [|x a IH].
  - simpl append. exact (@contains_prefix _ _ _ (strip_prefix_app needle b)).
  - simpl append. simpl contains.
    destruct (strip_prefix needle (String x (a ++ needle ++ b)));
      [reflexivity | exact IH].
Qed.

Lemma lstrip_indent (indent s : string) :
  all_spaces indent = true -> lstrip (indent ++ s) = lstrip s.
Proof.
  induction indent as [|a indent IH]; simpl; [reflexivity|].
  intros H. apply andb_true_iff in H as [H1 H2]. now rewrite H1, IH.
Qed.

(** Stripping on the right keeps a prefix that ends in a character
    that is no whitespace. *)
Lemma rstrip_keeps_prefix (p : string) (c : ascii) (s : string) :
  is_space c = false ->
  exists t, rstrip (p ++ String c s) = p ++ String c t.
Proof.
  intros Hc. induction p as [|a p [t IH]].
  - simpl. destruct (rstrip s) as [|b r].
    + rewrite Hc. now exists "".
    + now exists (String b r).
  - simpl append. simpl rstrip. rewrite IH.
    exists t. destruct (p ++ String c t) eqn:E; [|reflexivity].
    destruct p; discriminate.
Qed.

Lemma strip_prefix_more (p s t : string) :
  strip_prefix p s = Some t -> forall u, strip_prefix p (s ++ u) = Some (t ++ u).
Proof.
  revert s. induction p as [|a p IH]; intros s H u; simpl in *.
  - destruct s; injection H as <-; reflexivity.
  - destruct s as [|b s]; [discriminate|]. simpl.
    destruct (Ascii.eqb a b); [now apply IH | discriminate].
Qed.

Lemma split_at_spaces_word (word after : string) :
  no_space word = true -> ends_word after = true ->
  exists fields, split_at_spaces (word ++ after) = word :: fields.
Proof.
  intros Hw Ha. induction word as [|a word IH]; simpl.
  - destruct after as [|b after]; simpl; [now exists []|].
    simpl in Ha. rewrite Ha. eauto.
  - simpl in Hw. apply andb_true_iff in Hw as [H1 H2].
    apply negb_true_iff in H1. rewrite H1.
    destruct (IH H2) as [fields E]. rewrite E. eauto.
Qed.

Lemma space_is_no_comma (a : ascii) : is_space a = true -> Ascii.eqb a "," = false.
Proof.
  destruct a as [[] [] [] [] [] [] [] []]; simpl; intros H;
    try reflexivity; discriminate.
Qed.

Lemma all_spaces_no_comma (s : string) : all_spaces s = true -> occurs "," s = false.
Proof.
  induction s as [|a s IH]; simpl; [reflexivity|].
  intros H. apply andb_true_iff in H as [H1 H2].
  now rewrite (@space_is_no_comma _ H1), IH.
Qed.

Section Line.

Variable int : string -> option Z.

(** X24: for a line in the layout of ffprobe, with fields that hold
    no comma and a size that holds no whitespace and no other [x],
    the pass over the line gives the width and the height that
    [int] reads from the two parts of the size. *)
Theorem stream_size_of_stream_line
    (indent head codec pix width height after rest : string) (w h : Z) :
  all_spaces indent = true ->
  occurs "," head = false -> occurs "," codec = false ->
  occurs "," pix = false -> occurs "," width = false ->
  occurs "," height = false -> occurs "," after = false ->
  occurs "x" width = false -> occurs "x" height = false ->
  no_space width = true -> no_space height = true ->
  ends_word after = true -> ends_field rest = true ->
  int width = Some w -> int height = Some h ->
  stream_size int
    (stream_line indent head codec pix width height after rest)
  = Ok (Some [w; h]).
Proof.
  intros Hind Hh Hc Hp Hwc Hhc Hac Hwx Hhx Hws Hhs Haw Hrf Hiw Hih.
  unfold stream_size, stream_line.
  (* the line is a stream line *)
  assert (Es : startswith "Stream #"
                 (strip (indent ++ "Stream #" ++ head ++ " Video: " ++ codec ++ ","
                         ++ pix ++ ", " ++ width ++ "x" ++ height ++ after ++ rest))
               = true).
  { unfold strip. rewrite (@lstrip_indent _ _ Hind). simpl lstrip.
    destruct (@rstrip_keeps_prefix "Stream " "#"
                (head ++ " Video: " ++ codec ++ "," ++ pix ++ ", " ++ width
                 ++ "x" ++ height ++ after ++ rest) eq_refl) as [t Et].
    simpl append in Et. simpl append. rewrite Et. reflexivity. }
  rewrite Es. change (negb true) with false. cbv iota.
  (* its fields *)
  set (first := indent ++ "Stream #" ++ head ++ " Video: " ++ codec).
  set (third := " " ++ width ++ "x" ++ height ++ after).
  assert (El : indent ++ "Stream #" ++ head ++ " Video: " ++ codec ++ ","
               ++ pix ++ ", " ++ width ++ "x" ++ height ++ after ++ rest
               = first ++ String "," (pix ++ String "," (third ++ rest))).
  { unfold first, third. rewrite ?append_assoc. reflexivity. }
  rewrite El.
  assert (Hfirst : occurs "," first = false).
  { unfold first. rewrite !occurs_app, (@all_spaces_no_comma _ Hind), Hh, Hc.
    reflexivity. }
  assert (Hthird : occurs "," third = false).
  { unfold third. rewrite !occurs_app, Hwc, Hhc, Hac. reflexivity. }
  assert (Esplit : exists more,
             split_on "," (first ++ String "," (pix ++ String "," (third ++ rest)))
             = first :: pix :: third :: more).
  { rewrite (@split_on_field _ _ _ Hfirst), (@split_on_field _ _ _ Hp).
    destruct rest as [|r rest'].
    - rewrite append_nil_r, (@split_on_free _ _ Hthird). now exists [].
    - simpl in Hrf. apply Ascii.eqb_eq in Hrf. subst r.
      rewrite (@split_on_field _ _ _ Hthird). eauto. }
  destruct Esplit as [more Esplit]. rewrite Esplit. cbn [nth List.length].
  assert (Ev : contains " Video: " first = true).
  { unfold first.
    replace (indent ++ "Stream #" ++ head ++ " Video: " ++ codec)
      with ((indent ++ "Stream #" ++ head) ++ " Video: " ++ codec)
      by (rewrite ?append_assoc; reflexivity).
    apply contains_app. }
  rewrite Ev. change (negb true) with false. cbv iota.
  assert (Elen : (S (S (S (List.length more))) <? 3)%nat = false)
    by (apply Nat.ltb_ge; lia).
  rewrite Elen.
  (* the size is the first word of the third field *)
  assert (Ew : exists words,
             split_words third = (width ++ "x" ++ height) :: words).
  { unfold third, split_words. simpl append. simpl split_at_spaces.
    assert (Hword : no_space (width ++ "x" ++ height) = true).
    { rewrite !no_space_app, Hws, Hhs. reflexivity. }
    destruct (@split_at_spaces_word (width ++ "x" ++ height) after Hword Haw)
      as [fields Ef].
    replace (width ++ String "x" (height ++ after))
      with ((width ++ "x" ++ height) ++ after)
      by (rewrite ?append_assoc; reflexivity).
    rewrite Ef. simpl filter.
    assert (Hne : nonempty (width ++ String "x" height) = true)
      by (destruct width; reflexivity).
    rewrite Hne. eauto. }
  destruct Ew as [words Ew]. rewrite Ew.
  replace (width ++ "x" ++ height) with (width ++ String "x" height) by reflexivity.
  rewrite (@split_on_field _ _ _ Hwx), (@split_on_free _ _ Hhx).
  simpl. rewrite Hiw, Hih. reflexivity.
Qed.

End Line.

Section Frame.

Variable ffprobe : string -> string.
Variable int : string -> option Z.
Variable ffmpeg_stdout : frame_command -> list ascii.
Variable communicate : frame_command -> string * string.

(** X25: [get_frame] releases the pipe on every way out.  When
    [get_video_aspect] raises, no subprocess is started.  Otherwise
    the subprocess is started once and read once, and the last two
    calls are [terminate] and [communicate], whether a frame was
    read, the pipe ran short, or the reshape was refused. *)
Theorem get_frame_releases_the_pipe (filename : string) (frametime : Q)
    (pix_fmt : string) :
  let aspect := get_video_aspect ffprobe int filename in
  let run := get_frame ffprobe int ffmpeg_stdout communicate
               filename frametime pix_fmt in
  match snd aspect with
  | Raise e => run = (map Plain (fst aspect), Raise e)
  | Ok wh =>
      exists printed,
        fst run
        = (map Plain (fst aspect)
           ++ [Popen {| c_frametime := frametime; c_filename := filename;
                        c_pix_fmt := pix_fmt |};
               StdoutRead (nth 0 wh 0 * nth 1 wh 0)]
           ++ map Plain printed ++ [Terminate; Communicate])%list
  end.
Proof.
  intros aspect run. unfold run, get_frame. fold aspect.
  destruct aspect as [out [wh|e]]; simpl; [|reflexivity].
  set (command := {| c_frametime := frametime; c_filename := filename;
                     c_pix_fmt := pix_fmt |}).
  set (size := nth 0 wh 0 * nth 1 wh 0).
  destruct (Z.of_nat (List.length (read (ffmpeg_stdout command) size)) <? size).
  - exists [PrintText "warning: cannot get frame"]. simpl.
    rewrite ?app_nil_r. reflexivity.
  - exists []. 
    destruct (reshape2 (Z.of_nat (List.length (read (ffmpeg_stdout command) size)))
                (nth 1 wh 0) (nth 0 wh 0)); simpl; rewrite ?app_nil_r; reflexivity.
Qed.

Lemma read_enough (available : list ascii) (size : Z) :
  0 <= size ->
  (Z.of_nat (List.length (read available size)) <? size)
  = (Z.of_nat (List.length available) <? size)
  /\ (size <= Z.of_nat (List.length available) ->
      Z.of_nat (List.length (read available size)) = size).
Proof.
  intros Hs. unfold read.
  assert (E : (size <? 0) = false) by (apply Z.ltb_ge; lia). rewrite E.
  rewrite length_firstn. split.
  - destruct (Z.of_nat (List.length available) <? size) eqn:H.
    + apply Z.ltb_lt in H. apply Z.ltb_lt. lia.
    + apply Z.ltb_ge in H. apply Z.ltb_ge. lia.
  - intros H. lia.
Qed.

(** X26: for a video of width [w] and height [h], neither negative,
    [get_frame] raises nothing.  When the pipe gives at least [w * h]
    bytes the frame has shape (h, w) and holds the first [w * h]
    bytes; when it gives fewer, the warning is printed and no frame
    is returned. *)
Theorem get_frame_outcome (filename : string) (frametime : Q)
    (pix_fmt : string) (printed : list event) (w h : Z) :
  get_video_aspect ffprobe int filename = (printed, Ok [w; h]) ->
  0 <= w -> 0 <= h ->
  let command := {| c_frametime := frametime; c_filename := filename;
                    c_pix_fmt := pix_fmt |} in
  let available := ffmpeg_stdout command in
  let short := Z.of_nat (List.length available) <? w * h in
  get_frame ffprobe int ffmpeg_stdout communicate filename frametime pix_fmt
  = ((map Plain printed
      ++ [Popen command; StdoutRead (w * h)]
      ++ (if short then [Plain (PrintText "warning: cannot get frame")] else [])
      ++ [Terminate; Communicate])%list,
     Ok (if short then None
         else Some {| shape := (h, w);
                      pixels := firstn (Z.to_nat (w * h)) available |},
         fst (communicate command), snd (communicate command))).
Proof.
  intros Ha Hw Hh command available short. unfold get_frame.
  rewrite Ha. simpl. fold command. fold available.
  assert (Hs : 0 <= w * h) by nia.
  destruct (read_enough available Hs) as [E1 E2]. rewrite E1. fold short.
  destruct short eqn:Hlt.
  - simpl. rewrite ?app_nil_r. reflexivity.
  - unfold short in Hlt. apply Z.ltb_ge in Hlt. specialize (E2 Hlt).
    assert (Er : reshape2 (Z.of_nat (List.length (read available (w * h)))) h w
                 = Some (h, w)).
    { rewrite E2. unfold reshape2.
      assert (H1 : (h =? -1) = false) by (apply Z.eqb_neq; lia).
      assert (H2 : (w =? -1) = false) by (apply Z.eqb_neq; lia).
      assert (H3 : (h <? 0) = false) by (apply Z.ltb_ge; lia).
      assert (H4 : (w <? 0) = false) by (apply Z.ltb_ge; lia).
      assert (H5 : (h * w =? w * h) = true) by (apply Z.eqb_eq; lia).
      rewrite H1, H2, H3, H4, H5. reflexivity. }
    rewrite Er. simpl. rewrite ?app_nil_r.
    unfold read. assert (E : (w * h <? 0) = false) by (apply Z.ltb_ge; lia).
    rewrite E. reflexivity.
Qed.

End Frame.

End ProbeFacts.

(** ** The further facts on the example files *)

Module MoreExamples.

Import Np Pd Re Behavior Sessions Video Probe DemoFiles.
Local Open Scope string_scope.

Lemma nan_test_time_raises_witness :
  generate_mplayer_guesses_and_sync Demo.short_servo exact_lstsq_line Demo.md
    (Some Demo.user_results) Demo.guess 4 10
  = (mplayer_lines Demo.md 10 Demo.short_test_times Demo.short_test_next_times,
     Raise ValueError).
Proof.
  apply (@TestTimesFacts.nan_test_time_raises Demo.short_servo exact_lstsq_line
           Demo.md (Some Demo.user_results) Demo.guess 4 10
           Demo.short_test_times [] Demo.short_test_next_times).
  vm_compute. reflexivity.
Defined.

Lemma no_user_results_prints_commands_witness :
  generate_mplayer_guesses_and_sync Demo.servo exact_lstsq_line Demo.md
    None Demo.guess 4 10
  = (mplayer_lines Demo.md 10 Demo.test_times Demo.test_next_times, Ok tt)
  /\ List.length (mplayer_lines Demo.md 10 Demo.test_times Demo.test_next_times)
     = Z.to_nat 4
  /\ forall i x,
      nth_error Demo.test_times i = Some x ->
      exists next,
        nth_error (mplayer_lines Demo.md 10 Demo.test_times Demo.test_next_times) i
        = Some (PrintMplayer (int x - 10)%Z (filename_video Demo.md) x next).
Proof.
  apply (@TestTimesFacts.no_user_results_prints_commands Demo.servo exact_lstsq_line
           Demo.md Demo.guess 4 10 Demo.test_times Demo.test_next_times).
  vm_compute. reflexivity.
Defined.

Lemma zero_points_fit_raises_witness :
  generate_mplayer_guesses_and_sync Demo.servo exact_lstsq_line Demo.md
    (Some []) Demo.guess 0 10
  = ([], Raise TypeError).
Proof.
  apply (@TestTimesFacts.zero_points_fit_raises Demo.servo exact_lstsq_line
           Demo.md Demo.guess 10 [] []).
  vm_compute. reflexivity.
Defined.

Lemma bad_stamp_raises_witness :
  parse_behavior_filenames abspath get_file_time strptime
    [behavior_L1; behavior_bad_stamp; behavior_alias] true
  = ([], Raise ValueError).
Proof.
  apply (@ParserMore.bad_stamp_raises abspath get_file_time strptime
           [behavior_L1; behavior_bad_stamp; behavior_alias] behavior_bad_stamp true).
  - simpl. auto.
  - exists "/data/runmice", "L1", "2019", "KF13". split; vm_compute; reflexivity.
Defined.

Lemma no_matching_file_warns_witness :
  parse_behavior_filenames abspath get_file_time strptime
    [video_L1; "notes.txt"] true
  = ([PrintText "warning: no behavior files found"], Ok []).
Proof.
  apply (@ParserMore.no_matching_file_warns abspath get_file_time strptime
           [video_L1; "notes.txt"] true).
  intros f [<-|[<-|[]]]; vm_compute; reflexivity.
Defined.

Lemma full_cache_is_returned_witness :
  parse_video_filenames abspath strptime ffprobe [video_L2; video_L1] true
    (Some (from_records videos_noon))
  = ([], Ok (Cached (from_records videos_noon))).
Proof.
  apply (@VideoParserFacts.full_cache_is_returned abspath strptime ffprobe
           [video_L2; video_L1] true (from_records videos_noon)).
  - intros f [<-|[<-|[]]]; simpl; auto.
  - intros f [<-|[<-|[]]]; simpl; auto.
Defined.

Lemma only_new_files_are_probed_witness :
  In video_L2 [video_L1; video_L2]
  /\ ~ In video_L2 (cache_filenames [(0%Z, hour_video video_L1 "L1" (at_time 12 0 0))]).
Proof.
  apply (@VideoParserFacts.only_new_files_are_probed abspath strptime ffprobe
           [video_L1; video_L2] true
           [(0%Z, hour_video video_L1 "L1" (at_time 12 0 0))] video_L2).
  vm_compute. right. left. reflexivity.
Defined.

Lemma search_without_cache_raises_witness :
  search_for_behavior_and_video_files abspath get_file_time strptime ffprobe
    [behavior_L1] [] None
  = (([] ++ [PrintText "warning: no video files found"])%list,
     Raise AttributeError).
Proof.
  apply (@VideoParserFacts.search_without_cache_raises abspath get_file_time
           strptime ffprobe [behavior_L1] [] []
           [(0%Z, session behavior_L1 "L1")]).
  - vm_compute. reflexivity.
  - right. discriminate.
Defined.

Lemma ties_go_to_the_first_video_witness :
  exists m vpre l v vpost ov,
    best_overlap (from_records videos_tie) (session behavior_L1 "L1") = Ok m
    /\ from_records videos_tie = (vpre ++ (l, v) :: vpost)%list
    /\ candidate (from_records videos_tie) (session behavior_L1 "L1") l v ov
    /\ (forall l' v' ov',
           candidate vpre (session behavior_L1 "L1") l' v' ov' -> (ov' < ov)%Z)
    /\ (forall l' v' ov',
           candidate (from_records videos_tie) (session behavior_L1 "L1") l' v' ov' ->
           (ov' <= ov)%Z)
    /\ ((0 < ov)%Z -> best_video_index m = l).
Proof.
  apply (@MatcherMore.ties_go_to_the_first_video (from_records videos_tie)
           (session behavior_L1 "L1")).
  - vm_compute. repeat constructor; simpl; intuition discriminate.
  - exists 1%Z, (hour_video video_L1_late "L1" (at_time 13 0 0)), (at_time 0 55 0).
    split; [right; now left|]. split; [reflexivity|].
    exists (at_time 12 0 0). split; reflexivity.
Defined.

Lemma best_overlap_total_witness :
  match best_overlap (from_records videos_broken_L1) (session behavior_L1 "L1") with
  | Raise e =>
      e = ValueError
      /\ forall l v, In (l, v) (from_records videos_broken_L1) ->
                     v_rig v = b_rig (session behavior_L1 "L1") ->
                     v_dt_start v = None
  | Ok m =>
      m_behavior m = session behavior_L1 "L1"
      /\ (exists l v start_v,
             In (l, v) (from_records videos_broken_L1)
             /\ v_rig v = b_rig (session behavior_L1 "L1")
             /\ v_dt_start v = Some start_v)
      /\ ((best_video_index m = (-1)%Z /\ best_video_overlap m = 0%Q)
          \/ exists v start_v ov,
              In (best_video_index m, v) (from_records videos_broken_L1)
              /\ v_rig v = b_rig (session behavior_L1 "L1")
              /\ v_dt_start v = Some start_v
              /\ (0 < ov)%Z
              /\ best_video_overlap m = Behavior.seconds ov
              /\ (ov <= b_dt_end (session behavior_L1 "L1")
                        - b_dt_start (session behavior_L1 "L1"))%Z
              /\ (ov <= v_dt_end v - start_v)%Z)
  end.
Proof.
  apply (@MatcherMore.best_overlap_total (from_records videos_broken_L1)
           (session behavior_L1 "L1")).
  vm_compute. repeat constructor; simpl; intuition discriminate.
Defined.

(** With the two videos of the same hour the first one is stored. *)
Example tie_stores_first :
  option_map best_video_index
    (match best_overlap (from_records videos_tie) (session behavior_L1 "L1") with
     | Ok m => Some m
     | Raise _ => None
     end) = Some 1%Z.
Proof. vm_compute. reflexivity. Qed.

Lemma subprocess_only_when_asked_witness :
  false = false
  /\ frame_dump_syscall "video.mp4" 25 "out.png" "ffmpeg fast" 20
     = Ok (Some (FfmpegFast 25 "video.mp4" "out.png"))
  /\ ("ffmpeg fast" = "ffmpeg best" \/ "ffmpeg fast" = "ffmpeg accurate"
      \/ "ffmpeg fast" = "ffmpeg fast").
Proof.
  apply (@FrameDumpFacts.subprocess_only_when_asked check_output_ok
           "video.mp4" 25 "out.png" "ffmpeg fast" 20 true false true
           (FfmpegFast 25 "video.mp4" "out.png")).
  simpl. right. left. reflexivity.
Defined.

Lemma unknown_method_witness :
  frame_dump check_output_ok "video.mp4" 25 "out.png" "ffmpeg" 20 false true false
  = ([], if false || negb true then Raise UnboundLocalError else Ok tt).
Proof.
  apply (@FrameDumpFacts.unknown_method check_output_ok
           "video.mp4" 25 "out.png" "ffmpeg" 20 false true false);
    discriminate.
Defined.

Lemma seek_within_cushion_is_all_fine_witness :
  exists fine,
    frame_dump_syscall "video.mp4" 5 "out.png" "ffmpeg best" 20
    = Ok (Some (FfmpegBest 0 "video.mp4" fine "out.png"))
    /\ (fine == 5)%Q.
Proof.
  apply (@FrameDumpFacts.seek_within_cushion_is_all_fine "video.mp4" "out.png" 5 20).
  discriminate.
Defined.

Lemma duration_agrees_with_parser_witness :
  get_video_duration ffprobe strptime video_L1 true
  = ([Ffprobe video_L1], Ok (Timedelta (at_time 1 0 0)))
  /\ get_video_duration ffprobe strptime video_L1 false
     = ([Ffprobe video_L1], Ok (TotalSeconds (Behavior.seconds (at_time 1 0 0)))).
Proof.
  apply (@ProbeFacts.duration_agrees_with_parser abspath ffprobe strptime
           video_L1 false [Ffprobe video_L1]
           (hour_video video_L1 "L1" (at_time 12 0 0))).
  vm_compute. reflexivity.
Defined.

Lemma stream_size_of_stream_line_witness :
  stream_size DemoProbe.int
    (stream_line "    " "0:0(und):" "h264 (High)" " yuv420p" "4" "2"
       " [SAR 1:1 DAR 2:1]" ", 25 fps, 25 tbr")
  = Ok (Some [4; 2]%Z).
Proof.
  apply (@ProbeFacts.stream_size_of_stream_line DemoProbe.int
           "    " "0:0(und):" "h264 (High)" " yuv420p" "4" "2"
           " [SAR 1:1 DAR 2:1]" ", 25 fps, 25 tbr" 4 2);
    reflexivity.
Defined.

Lemma get_frame_outcome_witness :
  get_frame DemoProbe.ffprobe DemoProbe.int DemoProbe.ffmpeg_stdout
    DemoProbe.communicate "video.mp4" 25 "gray"
  = ([Plain (Ffprobe "video.mp4");
      Popen {| c_frametime := 25; c_filename := "video.mp4"; c_pix_fmt := "gray" |};
      StdoutRead 8; Terminate; Communicate],
     Ok (Some {| shape := (2, 4)%Z;
                 pixels := list_ascii_of_string "abcdefgh" |},
         "ij", "frame=    1 fps=0.0")).
Proof.
  apply (@ProbeFacts.get_frame_outcome DemoProbe.ffprobe DemoProbe.int
           DemoProbe.ffmpeg_stdout DemoProbe.communicate
           "video.mp4" 25 "gray" [Ffprobe "video.mp4"] 4 2).
  - vm_compute. reflexivity.
  - lia.
  - lia.
Defined.

End MoreExamples.
